(** * Swiss chess tournament controller: registration, round loop, leaderboard

    Shallow embedding of [controller/tournament_controller.py] and of
    [repository/player_repository.py].

    Conventions.
    - Python integers are [Z]; list indexing follows Python (negative
      indices count from the end, anything else out of range raises
      [IndexError]).
    - Scores are multiples of one half point; a score is stored as its number
      of half points, so 0, 0.5 and 1 are 0, 1 and 2.
    - Dictionaries keyed by strings are [gmap string _].
    - Console output, collaborator calls and saves are recorded, in order, in
      a list of [event]s returned by every operation.
    - Everything a collaborator or the user answers is read from a script, one
      entry per loop iteration; a loop that needs an answer the script does
      not hold stops as [Pending]. *)

From stdpp Require Import gmap strings list pretty sorting.
From Stdlib Require Import ZArith Lia.

Local Open Scope Z_scope.

(** ** Data model *)

Module Player.
(** Modelled from the spec: [model/player.py] is not part of the sources at
    hand; a player is its identity (first name, last name, birth date,
    federation id), built by [Player(firstname, lastname, birth, id)]. *)
Record t := mk {
  firstname : string;
  lastname : string;
  birth : string;
  national_chess_id : string
}.
End Player.

Module Match.
(** Modelled from the spec: [model/match.py] is missing; a match holds two
    players, each with a score; [players] is the dictionary
    [{player1: score1, player2: score2}] in insertion order. *)
Record t := mk {
  player1 : Player.t;
  score1 : Z;
  player2 : Player.t;
  score2 : Z
}.
End Match.

Module Round.
(** Modelled from the spec: [model/round.py] is missing; the fields are
    those of the call [Round(round_name, matches, start_time, end_time)],
    [None] standing for a timestamp that is not set. *)
Record t := mk {
  name : string;
  matches : list Match.t;
  start_time : option string;
  end_time : option string
}.

Definition set_start_time (v : option string) (r : t) : t :=
  mk (name r) (matches r) v (end_time r).

Definition set_end_time (v : option string) (r : t) : t :=
  mk (name r) (matches r) (start_time r) v.

Definition set_matches (v : list Match.t) (r : t) : t :=
  mk (name r) v (start_time r) (end_time r).
End Round.

Module Tournament.
(** Modelled from the spec: [model/tournament.py] is missing; the fields are
    those of the spec's data model, with the attributes the controller reads
    and writes ([players_score] is set by [calculate_leaderboard]). *)
Record t := mk {
  name : string;
  place : string;
  date_start : string;
  date_end : string;
  director_note : string;
  rounds : list Round.t;
  current_round : Z;
  players_list : list Player.t;
  players_score : gmap string Z
}.

Definition set_rounds (v : list Round.t) (x : t) : t :=
  mk (name x) (place x) (date_start x) (date_end x) (director_note x)
     v (current_round x) (players_list x) (players_score x).

Definition set_current_round (v : Z) (x : t) : t :=
  mk (name x) (place x) (date_start x) (date_end x) (director_note x)
     (rounds x) v (players_list x) (players_score x).

Definition set_players_list (v : list Player.t) (x : t) : t :=
  mk (name x) (place x) (date_start x) (date_end x) (director_note x)
     (rounds x) (current_round x) v (players_score x).

Definition set_players_score (v : gmap string Z) (x : t) : t :=
  mk (name x) (place x) (date_start x) (date_end x) (director_note x)
     (rounds x) (current_round x) (players_list x) v.
End Tournament.

(** ** Python primitives *)

(** [len(l)] as a Python integer. *)
Definition len {A} (l : list A) : Z := Z.of_nat (length l).

(** [l[i]]: the position read and the element, [None] for [IndexError]. *)
Definition py_index {A} (l : list A) (i : Z) : option (nat * A) :=
  let pos := if 0 <=? i then i else len l + i in
  if (0 <=? pos) && (pos <? len l)
  then (fun x => (Z.to_nat pos, x)) <$> l !! Z.to_nat pos
  else None.

(** [sorted(l, key=key, reverse=reverse)] for keys compared by [leb]: a
    stable sort.  Every element is put in front of the first element of the
    already sorted tail that does not have to precede it, so equal keys keep
    their input order, also with [reverse=True]. *)
Section PySorted.
Context {A K : Type} (leb : K -> K -> bool) (key : A -> K).

Fixpoint insert_stable (x : A) (l : list A) : list A :=
  match l with
  | [] => [x]
  | y :: l' => if leb (key x) (key y) then x :: y :: l'
               else y :: insert_stable x l'
  end.

Definition stable_sort (l : list A) : list A := foldr insert_stable [] l.
End PySorted.

Definition py_sorted {A K} (leb : K -> K -> bool) (key : A -> K)
    (reverse : bool) (l : list A) : list A :=
  stable_sort (if reverse then flip leb else leb) key l.

(** A dictionary comprehension [{k: v for (k, v) in l}]: entries are stored
    from left to right, a later entry replaces an earlier one with its key. *)
Definition py_dict {V} (l : list (string * V)) : gmap string V :=
  foldl (fun m kv => <[kv.1 := kv.2]> m) ∅ l.

Definition nl : string := String (Ascii.ascii_of_nat 10) "".
Definition esc : string := String (Ascii.ascii_of_nat 27) "".

(** ** Events *)

(** What an operation does to the world, in order.
    - [Print s]: [print(s)];
    - [Input prompt]: a line is read with [input(prompt)];
    - [Now formatted]: [datetime.now()] is read, [formatted] being its
      [strftime];
    - [PrintMatch], [PrintRank], [PrintNewPlayer]: the [print] of a match, of
      a leaderboard line and of a new player, whose text depends on how
      Python formats the scores and the player object;
    - [DisplayAddPlayerMenu n]: the view's [display_add_player_menu(n)];
    - [GeneratePairs t]: [t.generate_pairs_for_round()] is called, [t] being
      the tournament as it is at the call;
    - [CalculateLeaderboard t previous_scores]: [calculate_leaderboard] is
      entered with these arguments;
    - [AddTournament t]: [add_tournament(t)] is called on a tournament
      repository, which saves [t]. *)
Inductive event :=
  | Print (s : string)
  | Input (prompt : string)
  | Now (formatted : string)
  | PrintMatch (player1_name player2_name : string) (score1 score2 : Z)
  | PrintRank (i : nat) (player_name : string) (score : Z)
  | PrintNewPlayer (player : Player.t)
  | DisplayAddPlayerMenu (num_players : Z)
  | GeneratePairs (tournament : Tournament.t)
  | CalculateLeaderboard (tournament : Tournament.t)
                         (previous_scores : gmap string Z)
  | AddTournament (tournament : Tournament.t).

Inductive exn := IndexError.

Inductive outcome := Returned | Raised (e : exn) | Pending.

(** ** The controller object *)

Module TournamentController.
(** [player_repository] is the content of the players file the repository
    reads; [players_score] is the dynamic attribute [self.players_score],
    [None] while [hasattr(self, 'players_score')] is false.  The other
    collaborators (views, tournament repository, player controller) answer
    through the scripts and are recorded in the events. *)
Record t := mk {
  player_repository : list Player.t;
  num_players : Z;
  players_score : option (gmap string Z)
}.

Definition set_num_players (v : Z) (self : t) : t :=
  mk (player_repository self) v (players_score self).

(** [__init__]: stores the collaborators and sets [num_players] to 0. *)
Definition init (player_repository : list Player.t) : t :=
  mk player_repository 0 None.
End TournamentController.

(** ** calculate_leaderboard *)

Definition full_name (player : Player.t) : string :=
  Player.firstname player +:+ " " +:+ Player.lastname player.

Section Controller.
(** [player.calculate_total_score(rounds, previous_scores)] of the missing
    [model/player.py]: a deterministic function of its arguments. *)
Variable calculate_total_score :
  Player.t -> list Round.t -> gmap string Z -> Z.

(** [Tournament.from_json] of the missing [model/tournament.py], decoding a
    stored tournament record. *)
Variable Json : Type.
Variable from_json : Json -> Tournament.t.

(** [player.calculate_total_score(tournament.rounds, previous_scores)]. *)
Definition total_score (tournament : Tournament.t)
    (previous_scores : gmap string Z) (player : Player.t) : Z :=
  calculate_total_score player (Tournament.rounds tournament) previous_scores.

(** [leaderboard]: the list comprehension over [tournament.players_list]. *)
Definition leaderboard (tournament : Tournament.t)
    (previous_scores : gmap string Z) : list (Player.t * Z) :=
  map (fun player => (player, total_score tournament previous_scores player))
      (Tournament.players_list tournament).

(** [sorted(leaderboard, key=lambda x: x[1], reverse=True)]. *)
Definition sorted_leaderboard (tournament : Tournament.t)
    (previous_scores : gmap string Z) : list (Player.t * Z) :=
  py_sorted Z.leb snd true (leaderboard tournament previous_scores).

(** The dictionary stored in [tournament.players_score]. *)
Definition leaderboard_scores (tournament : Tournament.t)
    (previous_scores : gmap string Z) : gmap string Z :=
  py_dict (map (fun x => (full_name x.1, x.2))
               (sorted_leaderboard tournament previous_scores)).

(** The line printed above the ranks. *)
Definition leaderboard_title (tournament : Tournament.t) : string :=
  if Tournament.current_round tournament
     =? len (Tournament.rounds tournament) - 1
  then nl +:+ "Classement final du tournoi :"
  else nl +:+ "Classement fin du round "
       +:+ pretty (Tournament.current_round tournament + 1) +:+ " :".

Definition calculate_leaderboard (tournament : Tournament.t)
    (previous_scores : gmap string Z) : list event * Tournament.t :=
  let sorted_leaderboard := sorted_leaderboard tournament previous_scores in
  let tournament' :=
    Tournament.set_players_score
      (leaderboard_scores tournament previous_scores) tournament in
  ([CalculateLeaderboard tournament previous_scores;
    Print (leaderboard_title tournament)]
   ++ imap (fun i x => PrintRank (S i) (full_name x.1) x.2)
           sorted_leaderboard,
   tournament').

(** ** play_tournament *)

(** What the collaborators answer during one iteration of the round loop. *)
Record round_input := {
  (* datetime.now() as formatted for start_time; read when it is unset *)
  clock_start : string;
  (* the matches, with their results, that generate_pairs_for_round leaves
     in the round *)
  paired : list Match.t;
  (* datetime.now() as formatted for end_time; read when it is unset *)
  clock_end : string;
  (* ask_to_play_next_round(); asked after a round that is not the last *)
  play_next : bool
}.

Inductive flow := Continue | Break.

(** The line printed for one match: [list(match.players.keys())[0]] and
    [[1]] are the two players of a [Match.t], whose dictionary holds two
    keys.  A dictionary with fewer keys, which no [Match.t] stands for, makes
    these reads raise [IndexError]. *)
Definition print_match (m : Match.t) : event :=
  PrintMatch (full_name (Match.player1 m)) (full_name (Match.player2 m))
             (Match.score1 m) (Match.score2 m).

(** The [while] condition. *)
Definition loop_guard (tournament : Tournament.t) : bool :=
  Tournament.current_round tournament <=? len (Tournament.rounds tournament).

(** The round objects are shared between the local variable
    [current_round] and the list [tournament.rounds]: a write to the round
    is a write at its position [pos] of the list. *)
Definition store_round (pos : nat) (r : Round.t) (tournament : Tournament.t)
    : Tournament.t :=
  Tournament.set_rounds (<[pos := r]> (Tournament.rounds tournament))
                        tournament.

(** Modelled from the spec: [Tournament.generate_pairs_for_round] of the
    missing [model/tournament.py] populates in place the match list of the
    round at [current_round], the object the local variable [current_round]
    of [play_tournament] refers to and that sits at position [pos] of the
    list, and touches nothing else; [paired] is the match list it leaves
    there, the pairs and the results the collaborators put in them. *)
Definition generate_pairs_for_round (paired : list Match.t) (pos : nat)
    (current_round : Round.t) (tournament : Tournament.t)
    : Round.t * Tournament.t :=
  let current_round := Round.set_matches paired current_round in
  (current_round, store_round pos current_round tournament).

(** [if r.start_time is None: r.start_time = now], and the same for
    [end_time]. *)
Definition stamp_start (now : string) (r : Round.t) : list event * Round.t :=
  match Round.start_time r with
  | None => ([Now now], Round.set_start_time (Some now) r)
  | Some _ => ([], r)
  end.

Definition stamp_end (now : string) (r : Round.t) : list event * Round.t :=
  match Round.end_time r with
  | None => ([Now now], Round.set_end_time (Some now) r)
  | Some _ => ([], r)
  end.

(** The body of the [while] loop once [current_round =
    tournament.rounds[tournament.current_round]] has been read at position
    [pos]. *)
Definition play_round (self : TournamentController.t)
    (tournament : Tournament.t) (pos : nat) (current_round : Round.t)
    (inp : round_input) : list event * Tournament.t * flow :=
  let ev_round :=
    [Print (nl +:+ "Round "
            +:+ pretty (Tournament.current_round tournament + 1) +:+ " :")] in
  let '(ev_start, current_round) :=
    stamp_start (clock_start inp) current_round in
  let tournament := store_round pos current_round tournament in
  let ev_pairs := [GeneratePairs tournament] in
  let '(current_round, tournament) :=
    generate_pairs_for_round (paired inp) pos current_round tournament in
  let ev_matches := map print_match (Round.matches current_round) in
  let previous_scores :=
    match TournamentController.players_score self with
    | Some scores => scores
    | None => ∅
    end in
  let '(ev_board, tournament) :=
    calculate_leaderboard tournament previous_scores in
  let '(ev_end, current_round) := stamp_end (clock_end inp) current_round in
  let tournament := store_round pos current_round tournament in
  let ev :=
    ev_round ++ ev_start ++ ev_pairs ++ ev_matches ++ ev_board ++ ev_end in
  let advanced :=
    Tournament.set_current_round
      (Tournament.current_round tournament + 1) tournament in
  if Tournament.current_round tournament
     =? len (Tournament.rounds tournament) - 1
  then (ev ++ [AddTournament advanced], advanced, Break)
  else if negb (play_next inp)
  then (ev ++ [AddTournament advanced], advanced, Break)
  else (ev, advanced, Continue).

(** The loop: one script entry per iteration.  The guard and the read of
    [tournament.rounds[tournament.current_round]] come before anything is
    asked of a collaborator. *)
Fixpoint play_tournament (self : TournamentController.t)
    (tournament : Tournament.t) (script : list round_input)
    : list event * Tournament.t * outcome :=
  if loop_guard tournament then
    match py_index (Tournament.rounds tournament)
                   (Tournament.current_round tournament) with
    | None => ([], tournament, Raised IndexError)
    | Some (pos, current_round) =>
      match script with
      | [] => ([], tournament, Pending)
      | inp :: script =>
        let '(ev, tournament, fl) :=
          play_round self tournament pos current_round inp in
        match fl with
        | Break => (ev, tournament, Returned)
        | Continue =>
          let '(ev', tournament, res) :=
            play_tournament self tournament script in
          (ev ++ ev', tournament, res)
        end
      end
    end
  else ([], tournament, Returned).

(** ** resume_tournament *)

(** [chosen_tournament] is what [tournament_repository.resume_tournament()]
    returned, [None] for a falsy value. *)
Definition resume_tournament (self : TournamentController.t)
    (chosen_tournament : option Json) (script : list round_input)
    : list event * option Tournament.t * outcome :=
  match chosen_tournament with
  | Some chosen_tournament =>
    let tournament := from_json chosen_tournament in
    let '(ev, tournament, res) := play_tournament self tournament script in
    (ev, Some tournament, res)
  | None => ([], None, Returned)
  end.

(** ** repository/player_repository.py *)

(** [str.isdigit] and [int] on a line of ASCII characters, where a digit
    is one of [0] to [9].  On other lines Python consults the Unicode
    tables ([str.isdigit] is also true of other digits, some of which
    [int] refuses with [ValueError]), and [int] refuses more than 4300
    digits: what is stated about typed lines is stated for the lines of
    [plain_line] below. *)
Definition is_digit_char (c : Ascii.ascii) : bool :=
  ((48 <=? Ascii.nat_of_ascii c) && (Ascii.nat_of_ascii c <=? 57))%nat.

Fixpoint all_digits (s : string) : bool :=
  match s with
  | EmptyString => true
  | String c s' => is_digit_char c && all_digits s'
  end.

Definition isdigit (s : string) : bool :=
  match s with
  | EmptyString => false
  | _ => all_digits s
  end.

Fixpoint int_from (acc : Z) (s : string) : Z :=
  match s with
  | EmptyString => acc
  | String c s' =>
    int_from (10 * acc + (Z.of_nat (Ascii.nat_of_ascii c) - 48)) s'
  end.

Definition int (s : string) : Z := int_from 0 s.

(** The lines on which [isdigit] and [int] are Python's [str.isdigit] and
    [int]: ASCII characters only, and at most 4300 of them, the length up
    to which [int] converts any string of digits. *)
Fixpoint all_ascii (s : string) : bool :=
  match s with
  | EmptyString => true
  | String c s' => (Ascii.nat_of_ascii c <? 128)%nat && all_ascii s'
  end.

Definition plain_line (s : string) : bool :=
  all_ascii s && (String.length s <=? 4300)%nat.

(** [get_selected_player]: [index_inputs] are the lines typed at the index
    prompt; the function loops until one is a number within range, and is
    [None] (still waiting at the prompt) when none is.  The lines are read
    with [isdigit] and [int] above, so this is the source's function on the
    lines of [plain_line]; on another line the source can leave with
    [ValueError] or accept a digit that is not an ASCII one. *)
Fixpoint get_selected_player (sorted_players : list Player.t)
    (index_inputs : list string) : list event * option (Player.t * Z) :=
  let ev_input := Input "Entrez l'index du joueur : " in
  match index_inputs with
  | [] => ([ev_input], None)
  | index_input :: index_inputs =>
    if isdigit index_input then
      let index := int index_input in
      if (1 <=? index) && (index <=? len sorted_players) then
        match sorted_players !! Z.to_nat (index - 1) with
        | Some player_data =>
          let player_instance :=
            Player.mk (Player.firstname player_data)
                      (Player.lastname player_data)
                      (Player.birth player_data)
                      (Player.national_chess_id player_data) in
          ([ev_input], Some (player_instance, index))
        | None =>
          (* not reached: the guard gives a position within the list *)
          ([ev_input], None)
        end
      else
        let '(ev, res) := get_selected_player sorted_players index_inputs in
        (ev_input :: Print (esc +:+ "[91mIndex invalide." +:+ esc +:+ "[0m")
           :: ev, res)
    else
      let '(ev, res) := get_selected_player sorted_players index_inputs in
      (ev_input
         :: Print (esc +:+ "[91mVeuillez indiquer un numéro valide."
                   +:+ esc +:+ "[0m")
         :: ev, res)
  end.

(** [PlayerRepository.get_player_by_alphabetical_order] on the loaded
    players. *)
Definition get_player_by_alphabetical_order (players : list Player.t)
    : list Player.t :=
  py_sorted String.leb Player.lastname false players.

(** [PlayerRepository.display_players_by_index]. *)
Definition display_players_by_index (players : list Player.t)
    : list event * list Player.t :=
  let sorted_players := get_player_by_alphabetical_order players in
  (Print (nl +:+ "Liste des joueurs triés par ordre alphabétique:")
     :: imap (fun i player_data =>
                Print (pretty (Z.of_nat i + 1) +:+ " - "
                       +:+ Player.lastname player_data +:+ " "
                       +:+ Player.firstname player_data))
             sorted_players,
   sorted_players).

(** ** add_players_to_tournament *)

(** What the user and the collaborators answer during one iteration of the
    registration loop. *)
Record turn := {
  (** [get_user_choice()] *)
  user_choice : string;
  (** the lines typed at the index prompt, under choice 1 *)
  index_inputs : list string;
  (** [player_controller.create_new_player()], under choice 2 *)
  new_player : option Player.t;
  (** [prompt_play_tournament()] under choice 3,
      [confirm_return_to_main_menu()] under choice q *)
  answer : bool;
  (** the script of the round loop that choice 3 may start *)
  rounds_script : list round_input
}.

(** The objects the loop works on: [self], the tournament and the two local
    lists. *)
Record registration := {
  self : TournamentController.t;
  tournament : Tournament.t;
  selected_players_index : list Z;
  selected_players : list Player.t
}.

Inductive exit := Confirmed | Quit.

Inductive turn_flow :=
  | Again
  | Leave (by_ : exit)
  | Fail (e : exn)
  | Wait.

Inductive registration_outcome :=
  | Left (by_ : exit)
  | Failed (e : exn)
  | Waiting.

Definition print_player (player : Player.t) : event :=
  Print ("- " +:+ Player.firstname player +:+ " " +:+ Player.lastname player).

Definition same_name (a b : Player.t) : bool :=
  String.eqb (Player.firstname a) (Player.firstname b)
  && String.eqb (Player.lastname a) (Player.lastname b).

Definition increment_num_players (self : TournamentController.t)
    : TournamentController.t :=
  TournamentController.set_num_players
    (TournamentController.num_players self + 1) self.

(** The body of [while True]. *)
Definition registration_turn (sorted_players_list : list Player.t)
    (st : registration) (t : turn)
    : list event * registration * turn_flow :=
  let ev_menu :=
    [DisplayAddPlayerMenu (TournamentController.num_players (self st))] in
  if String.eqb (user_choice t) "1" then
    match get_selected_player sorted_players_list (index_inputs t) with
    | (ev, None) => (ev_menu ++ ev, st, Wait)
    | (ev, Some (selected_player, index)) =>
      if existsb (fun player => same_name player selected_player)
                 (selected_players st)
      then (ev_menu ++ ev ++ [Print "Ce joueur est déjà ajouté au tournoi."],
            st, Again)
      else
        let selected := selected_players st ++ [selected_player] in
        (ev_menu ++ ev
         ++ [Print ("Ajout du joueur " +:+ Player.firstname selected_player
                    +:+ " " +:+ Player.lastname selected_player);
             Print (nl +:+ "Joueurs inscrits dans le tournoi:")]
         ++ map print_player selected,
         {| self := increment_num_players (self st);
            tournament := tournament st;
            selected_players_index := selected_players_index st ++ [index];
            selected_players := selected |},
         Again)
    end
  else if String.eqb (user_choice t) "2" then
    match new_player t with
    | Some new_player =>
      let selected := selected_players st ++ [new_player] in
      (ev_menu
       ++ [PrintNewPlayer new_player;
           Print ("Ajout du joueur " +:+ Player.firstname new_player
                  +:+ " " +:+ Player.lastname new_player);
           Print (nl +:+ "Joueurs inscrits dans le tournoi:")]
       ++ map print_player selected,
       {| self := increment_num_players (self st);
          tournament := tournament st;
          selected_players_index := selected_players_index st;
          selected_players := selected |},
       Again)
    | None => (ev_menu, st, Again)
    end
  else if String.eqb (user_choice t) "3" then
    if (6 <=? len (selected_players st))
       && (len (selected_players st) mod 2 =? 0)
    then
      let tournament :=
        Tournament.set_players_list
          (Tournament.players_list (tournament st) ++ selected_players st)
          (tournament st) in
      let ev := ev_menu ++ [AddTournament tournament;
                            Print "Les joueurs ont bien été ajoutés."] in
      if answer t then
        let '(ev', tournament, res) :=
          play_tournament (self st) tournament (rounds_script t) in
        (ev ++ ev',
         {| self := self st; tournament := tournament;
            selected_players_index := selected_players_index st;
            selected_players := selected_players st |},
         match res with
         | Returned => Leave Confirmed
         | Raised e => Fail e
         | Pending => Wait
         end)
      else
        (ev,
         {| self := self st; tournament := tournament;
            selected_players_index := selected_players_index st;
            selected_players := selected_players st |},
         Leave Confirmed)
    else
      (ev_menu ++ [Print ("Le nombre d'inscrits doit être pair "
                          +:+ "et au moins égal à 6.")],
       st, Again)
  else if String.eqb (user_choice t) "q" then
    if answer t then (ev_menu, st, Leave Quit) else (ev_menu, st, Again)
  else
    (ev_menu ++ [Print (esc +:+ "[91mVeuillez indiquer un choix valide."
                        +:+ esc +:+ "[0m")],
     st, Again).

Fixpoint registration_loop (sorted_players_list : list Player.t)
    (st : registration) (turns : list turn)
    : list event * registration * registration_outcome :=
  match turns with
  | [] => ([], st, Waiting)
  | t :: turns =>
    let '(ev, st, fl) := registration_turn sorted_players_list st t in
    match fl with
    | Again =>
      let '(ev', st, res) := registration_loop sorted_players_list st turns in
      (ev ++ ev', st, res)
    | Leave by_ => (ev, st, Left by_)
    | Fail e => (ev, st, Failed e)
    | Wait => (ev, st, Waiting)
    end
  end.

(** The statements before the loop: the players already in the tournament
    are copied to [selected_players] and counted, then the tournament's own
    list is emptied. *)
Definition registration_entry (self : TournamentController.t)
    (tournament : Tournament.t) : list event * registration :=
  let selected_players := Tournament.players_list tournament in
  let self :=
    TournamentController.set_num_players
      (TournamentController.num_players self + len selected_players) self in
  let '(ev, tournament) :=
    match Tournament.players_list tournament with
    | [] => ([], tournament)
    | _ :: _ =>
      (Print (nl +:+ "Joueurs déjà inscrits dans le tournoi:")
         :: map print_player selected_players,
       Tournament.set_players_list [] tournament)
    end in
  (ev ++ [Print (nl +:+ esc +:+ "[92mInfo : Le nombre de joueur "
                 +:+ "doit être de minimum 6 et pair." +:+ esc +:+ "[0m")],
   {| self := self; tournament := tournament;
      selected_players_index := []; selected_players := selected_players |}).

Definition add_players_to_tournament (self : TournamentController.t)
    (tournament : Tournament.t) (turns : list turn)
    : list event * registration * registration_outcome :=
  let '(ev_list, sorted_players_list) :=
    display_players_by_index (TournamentController.player_repository self) in
  let '(ev_entry, st) := registration_entry self tournament in
  let '(ev, st, res) := registration_loop sorted_players_list st turns in
  (ev_list ++ ev_entry ++ ev, st, res).

(** The controller objects the program can hold: built by [__init__] and
    then passed, as [self], through [add_players_to_tournament], the one
    method that writes to an attribute of [self] ([num_players]); the other
    methods, [play_tournament] among them, leave [self] as it is. *)
Inductive reachable : TournamentController.t -> Prop :=
  | reachable_init (player_repository : list Player.t) :
      reachable (TournamentController.init player_repository)
  | reachable_add_players (self0 : TournamentController.t)
      (tournament : Tournament.t) (turns : list turn) :
      reachable self0 ->
      reachable (self (add_players_to_tournament self0 tournament turns).1.2).

End Controller.

(** ** Reading the event log *)

(** The round indices [generate_pairs_for_round] was run on, in order. *)
Definition paired_rounds (ev : list event) : list Z :=
  omap (fun e => match e with
                 | GeneratePairs s => Some (Tournament.current_round s)
                 | _ => None
                 end) ev.

(** The player pools [generate_pairs_for_round] was run on. *)
Definition pairing_pools (ev : list event) : list (list Player.t) :=
  omap (fun e => match e with
                 | GeneratePairs s => Some (Tournament.players_list s)
                 | _ => None
                 end) ev.

(** The [previous_scores] arguments [calculate_leaderboard] received. *)
Definition previous_scores_passed (ev : list event) : list (gmap string Z) :=
  omap (fun e => match e with
                 | CalculateLeaderboard _ previous_scores =>
                   Some previous_scores
                 | _ => None
                 end) ev.


(** The tournaments handed to the storage collaborator. *)
Definition saved (ev : list event) : list Tournament.t :=
  omap (fun e => match e with
                 | AddTournament s => Some s
                 | _ => None
                 end) ev.

(** Output, input and clock readings, as opposed to the calls above. *)
Definition is_console (e : event) : bool :=
  match e with
  | Print _ | Input _ | Now _ | PrintMatch _ _ _ _ | PrintRank _ _ _
  | PrintNewPlayer _ | DisplayAddPlayerMenu _ => true
  | GeneratePairs _ | CalculateLeaderboard _ _ | AddTournament _ => false
  end.

(** The round object one pass of the loop body leaves behind: start stamp,
    matches, end stamp. *)
Definition played_round (inp : round_input) (r : Round.t) : Round.t :=
  (stamp_end (clock_end inp)
     (Round.set_matches (paired inp)
        (stamp_start (clock_start inp) r).2)).2.

(** The [previous_scores] that [play_tournament] computes from [self]. *)
Definition previous_scores_of (self : TournamentController.t)
    : gmap string Z :=
  match TournamentController.players_score self with
  | Some scores => scores
  | None => ∅
  end.

(** The count test of choice 3. *)
Definition valid_count (players : list Player.t) : Prop :=
  6 <= len players /\ len players mod 2 = 0.

(** ** The other functions of the two files *)

(** The value a call returns, or the exception it raises. *)
Inductive py_result (A : Type) : Type :=
  | Value (a : A)
  | Error (e : exn).

Arguments Value {A} a.
Arguments Error {A} e.

(** [get_tournament_name_by_index]: the result is [None] for Python's
    [None]. *)
Definition get_tournament_name_by_index (tournaments : list Tournament.t)
    (tournament_index : Z) : py_result (option string) :=
  if (1 <=? tournament_index) && (tournament_index <=? len tournaments) then
    match py_index tournaments (tournament_index - 1) with
    | Some (_, tournament) => Value (Some (Tournament.name tournament))
    | None => Error IndexError
    end
  else Value None.

(** The test [get_selected_player] makes on a line typed at its prompt. *)
Definition valid_index_input (sorted_players : list Player.t)
    (index_input : string) : bool :=
  isdigit index_input
  && ((1 <=? int index_input) && (int index_input <=? len sorted_players)).

(** [str.lower] on the ASCII letters. *)
Definition lower_char (c : Ascii.ascii) : Ascii.ascii :=
  let n := Ascii.nat_of_ascii c in
  if ((65 <=? n) && (n <=? 90))%nat then Ascii.ascii_of_nat (n + 32) else c.

Fixpoint lower (s : string) : string :=
  match s with
  | EmptyString => EmptyString
  | String c s' => String (lower_char c) (lower s')
  end.

(** What the user answers during one iteration of the loop of
    [add_director_notes_to_tournament]. *)
Record note_turn := {
  (* the line typed at the y/n prompt *)
  notes : string;
  (* the line typed at the notes prompt, under y *)
  notes_text : string;
  (* confirm_stop_add_note() under a note q,
     confirm_return_to_previous_menu() under a choice q *)
  confirmed : bool
}.

(** [add_director_notes_to_tournament]: the result is [None] while the loop
    still waits for a line, [Some None] when the method returns [None] and
    [Some (Some text)] when it returns a string. *)
Fixpoint add_director_notes_to_tournament (turns : list note_turn)
    : list event * option (option string) :=
  let ev_notes := Input "Ajouter des notes du directeur (y/n) ? : " in
  let ev_text := Input "Entrez les notes du directeur : " in
  match turns with
  | [] => ([ev_notes], None)
  | t :: turns =>
    if String.eqb (lower (notes t)) "y" then
      if String.eqb (notes_text t) "q" then
        if confirmed t then ([ev_notes; ev_text], Some (Some ""))
        else
          let '(ev, res) := add_director_notes_to_tournament turns in
          (ev_notes :: ev_text :: ev, res)
      else ([ev_notes; ev_text], Some (Some (notes_text t)))
    else if String.eqb (lower (notes t)) "n" then
      ([ev_notes], Some (Some ""))
    else if String.eqb (lower (notes t)) "q" then
      if confirmed t then ([ev_notes], Some None)
      else
        let '(ev, res) := add_director_notes_to_tournament turns in
        (ev_notes :: ev, res)
    else
      let '(ev, res) := add_director_notes_to_tournament turns in
      (ev_notes :: Print "Choix invalide." :: ev, res)
  end.

(** What [get_selected_player] does with a line it does not accept: the
    prompt that read it, then the message. *)
Definition rejected_line (index_input : string) : list event :=
  [Input "Entrez l'index du joueur : ";
   Print (if isdigit index_input
          then esc +:+ "[91mIndex invalide." +:+ esc +:+ "[0m"
          else esc +:+ "[91mVeuillez indiquer un numéro valide."
               +:+ esc +:+ "[0m")].

(** The number of script entries, from the first one on, after which the
    user chooses to play the next round. *)
Fixpoint leading_yes (script : list round_input) : nat :=
  match script with
  | [] => 0
  | inp :: script => if play_next inp then S (leading_yes script) else 0
  end.

(** The pair that the duplicate test of [add_players_to_tournament]
    compares. *)
Definition name_pair (player : Player.t) : string * string :=
  (Player.firstname player, Player.lastname player).

(** What identifies a tournament and its rounds: the five fields given at
    creation and the names of the rounds, in order. *)
Definition tournament_identity (tournament : Tournament.t)
    : string * string * string * string * string * list string :=
  (Tournament.name tournament, Tournament.place tournament,
   Tournament.date_start tournament, Tournament.date_end tournament,
   Tournament.director_note tournament,
   Round.name <$> Tournament.rounds tournament).

Module RoundDetails.
(** One dictionary of the [rounds] list of [create_new_tournament]: the keys
    [name], [start_time] and [end_time], and [matches] when it is present. *)
Record t := mk {
  name : string;
  start_time : option string;
  end_time : option string;
  matches : option (list Match.t)
}.
End RoundDetails.

Module TournamentDetails.
(** The tuple [tournament_view.get_new_tournament_details()] returns; [rounds]
    is [None] for Python's [None]. *)
Record t := mk {
  name : string;
  place : string;
  date_start : string;
  date_end : string;
  director_note : string;
  rounds : option (list RoundDetails.t)
}.
End TournamentDetails.

(** Modelled from the spec: [Tournament.add_round] of the missing
    [model/tournament.py] puts the round at the end of [rounds]. *)
Definition add_round (new_round : Round.t) (tournament : Tournament.t)
    : Tournament.t :=
  Tournament.set_rounds (Tournament.rounds tournament ++ [new_round])
                        tournament.

(** [Round(round_name, matches, start_time, end_time)] for one dictionary,
    [matches] being [round_details.get("matches", [])]. *)
Definition round_of_details (round_details : RoundDetails.t) : Round.t :=
  Round.mk (RoundDetails.name round_details)
           (default [] (RoundDetails.matches round_details))
           (RoundDetails.start_time round_details)
           (RoundDetails.end_time round_details).

(** The controller a registration works on, [self] in the source. *)
Definition controller_of (st : registration) : TournamentController.t :=
  self st.

Section MoreController.
Variable calculate_total_score :
  Player.t -> list Round.t -> gmap string Z -> Z.

(** The constructor [Tournament(name=..., place=..., date_start=...,
    date_end=..., director_note=...)] of the missing [model/tournament.py]. *)
Variable new_Tournament :
  string -> string -> string -> string -> string -> Tournament.t.

(** [create_new_tournament]: [tournament_details] is what the view returned,
    [add_players] what [prompt_add_players()] answers.  The result holds the
    events, [self], the value returned ([None] for Python's [None]) and how
    the call ended. *)
Definition create_new_tournament (self : TournamentController.t)
    (tournament_details : option TournamentDetails.t) (add_players : bool)
    (turns : list turn)
    : list event * TournamentController.t * option Tournament.t * outcome :=
  match tournament_details with
  | None =>
    ([Print "Retour au menu principal sans sauvegarde."], self, None,
     Returned)
  | Some details =>
    let new_tournament :=
      new_Tournament (TournamentDetails.name details)
                     (TournamentDetails.place details)
                     (TournamentDetails.date_start details)
                     (TournamentDetails.date_end details)
                     (TournamentDetails.director_note details) in
    match TournamentDetails.rounds details with
    | Some rounds =>
      let new_tournament :=
        foldl (fun tournament round_details =>
                 add_round (round_of_details round_details) tournament)
              new_tournament rounds in
      let ev_saved := [AddTournament new_tournament] in
      let registered :=
        if add_players then
          let '(ev, st, res) :=
            add_players_to_tournament calculate_total_score self
                                      new_tournament turns in
          (ev, controller_of st, tournament st,
           match res with
           | Left _ => Returned
           | Failed e => Raised e
           | Waiting => Pending
           end)
        else ([], self, new_tournament, Returned) in
      let '(ev_players, self, new_tournament, res) := registered in
      match res with
      | Returned =>
        (ev_saved ++ ev_players
         ++ [Print (nl +:+ "Le tournoi " +:+ Tournament.name new_tournament
                    +:+ " à " +:+ Tournament.place new_tournament
                    +:+ " avec a bien été enregistré.")],
         self, Some new_tournament, Returned)
      | _ => (ev_saved ++ ev_players, self, None, res)
      end
    | None => ([], self, Some new_tournament, Returned)
    end
  end.

End MoreController.

(** ** Sample data

    Concrete players, tournaments and scripts on which the properties below
    are run. *)

Definition same_player (a b : Player.t) : bool :=
  same_name a b
  && String.eqb (Player.birth a) (Player.birth b)
  && String.eqb (Player.national_chess_id a) (Player.national_chess_id b).

(** A score ledger in the sense of the design: the sum, over every match of
    every round, of the score the player got. *)
Definition sample_total_score (player : Player.t) (rounds : list Round.t)
    (previous_scores : gmap string Z) : Z :=
  foldr (fun r acc =>
           foldr (fun m acc =>
                    (if same_player player (Match.player1 m)
                     then Match.score1 m else 0)
                    + (if same_player player (Match.player2 m)
                       then Match.score2 m else 0)
                    + acc)
                 acc (Round.matches r))
        0 rounds.

Definition alice : Player.t := Player.mk "Alice" "Arnaud" "01-01-1990" "AB1".
Definition bruno : Player.t := Player.mk "Bruno" "Blanc" "02-02-1991" "AB2".
Definition chloe : Player.t := Player.mk "Chloe" "Caron" "03-03-1992" "AB3".
Definition denis : Player.t := Player.mk "Denis" "Dupont" "04-04-1993" "AB4".
Definition emma : Player.t := Player.mk "Emma" "Etienne" "05-05-1994" "AB5".
Definition felix : Player.t := Player.mk "Felix" "Faure" "06-06-1995" "AB6".

Definition six_players : list Player.t :=
  [alice; bruno; chloe; denis; emma; felix].

Definition empty_round (name : string) : Round.t :=
  Round.mk name [] None None.

(** Two rounds, none played, six players registered. *)
Definition two_rounds : Tournament.t :=
  Tournament.mk "Open" "Paris" "03-11-2026" "04-11-2026" ""
                [empty_round "Round 1"; empty_round "Round 2"] 0
                six_players ∅.

(** Alice, Chloe and Emma win (one point is two half points). *)
Definition round_results : list Match.t :=
  [Match.mk alice 2 bruno 0; Match.mk chloe 2 denis 0; Match.mk emma 2 felix 0].

(** A round after which the user chooses to play the next one. *)
Definition go_on : round_input :=
  {| clock_start := "03-11-2026 10:00"; paired := round_results;
     clock_end := "03-11-2026 11:00"; play_next := true |}.

(** The same tournament once its first round has been played and saved. *)
Definition one_round_played : Tournament.t :=
  Tournament.mk "Open" "Paris" "03-11-2026" "04-11-2026" ""
                [Round.mk "Round 1" round_results (Some "03-11-2026 10:00")
                          (Some "03-11-2026 11:00");
                 empty_round "Round 2"] 1
                six_players ∅.

(** The same tournament once both rounds have been played. *)
Definition finished : Tournament.t :=
  Tournament.mk "Open" "Paris" "03-11-2026" "04-11-2026" ""
                [Round.mk "Round 1" round_results (Some "03-11-2026 10:00")
                          (Some "03-11-2026 11:00");
                 Round.mk "Round 2" round_results (Some "04-11-2026 10:00")
                          (Some "04-11-2026 11:00")] 2
                six_players ∅.

(** A tournament defined without any round: it is unstarted,
    [current_round] is 0, and 0 is also [len(rounds)]. *)
Definition no_rounds : Tournament.t :=
  Tournament.mk "Blitz" "Lyon" "05-11-2026" "05-11-2026" "" [] 0
                six_players ∅.

(** Two registered players with one full name and different scores. *)
Definition namesake : Player.t :=
  Player.mk "Alice" "Arnaud" "07-07-1997" "AB7".

Definition namesakes : Tournament.t :=
  Tournament.mk "Open" "Paris" "03-11-2026" "04-11-2026" ""
                [Round.mk "Round 1" [Match.mk alice 2 bruno 0]
                          (Some "03-11-2026 10:00") None] 0
                [bruno; alice; namesake] ∅.

Definition sample_controller : TournamentController.t :=
  TournamentController.init six_players.

(** Choice 3, then yes to playing. *)
Definition confirm_and_play : turn :=
  {| user_choice := "3"; index_inputs := []; new_player := None;
     answer := true; rounds_script := [go_on; go_on] |}.

(** Choice q, confirmed. *)
Definition quit_confirmed : turn :=
  {| user_choice := "q"; index_inputs := []; new_player := None;
     answer := true; rounds_script := [] |}.

(** Choice 1, an invalid line and then index 1. *)
Definition select_first : turn :=
  {| user_choice := "1"; index_inputs := ["x"; "1"]; new_player := None;
     answer := false; rounds_script := [] |}.

(** The loop state once Alice has been selected for a tournament without
    players. *)
Definition alice_selected : registration :=
  {| self := TournamentController.mk six_players 1 None;
     tournament := Tournament.set_players_list [] two_rounds;
     selected_players_index := [1];
     selected_players := [alice] |}.

(** A controller whose player file holds nobody. *)
Definition empty_controller : TournamentController.t :=
  TournamentController.init [].

(** Choice 1 with the line [index] typed at the prompt. *)
Definition select (index : string) : turn :=
  {| user_choice := "1"; index_inputs := [index]; new_player := None;
     answer := false; rounds_script := [] |}.

(** The six players of the file selected one after the other, then choice 3
    and yes to playing. *)
Definition register_six : list turn :=
  (select <$> ["1"; "2"; "3"; "4"; "5"; "6"]) ++ [confirm_and_play].

(** A constructor in the sense of the design: no round, no player, round
    index 0. *)
Definition sample_new_Tournament (name place date_start date_end
    director_note : string) : Tournament.t :=
  Tournament.mk name place date_start date_end director_note [] 0 [] ∅.

(** The details of a tournament of two rounds, and of one without rounds. *)
Definition open_details : TournamentDetails.t :=
  TournamentDetails.mk "Open" "Paris" "03-11-2026" "04-11-2026" ""
    (Some [RoundDetails.mk "Round 1" None None None;
           RoundDetails.mk "Round 2" None None (Some [])]).

Definition blitz_details : TournamentDetails.t :=
  TournamentDetails.mk "Blitz" "Lyon" "05-11-2026" "05-11-2026" ""
    (Some []).

(** * Properties *)

(** ** The stable sort *)

Section StableSort.
Context {A K : Type} `{EqDecision K} (leb : K -> K -> bool) (key : A -> K).
Hypothesis leb_refl : forall a, leb a a = true.
Hypothesis leb_total : forall a b, leb a b = true \/ leb b a = true.
Hypothesis leb_trans :
  forall a b c, leb a b = true -> leb b c = true -> leb a c = true.

Lemma insert_stable_Permutation (x : A) (l : list A) :
  insert_stable leb key x l ≡ₚ x :: l.
Proof.
  induction l as [|y l IH]; simpl; [done|].
  destruct (leb (key x) (key y)); [done|].
  rewrite IH. apply Permutation_swap.
Qed.

Lemma stable_sort_Permutation (l : list A) : stable_sort leb key l ≡ₚ l.
Proof.
  induction l as [|x l IH]; simpl; [done|].
  by rewrite insert_stable_Permutation, IH.
Qed.

Lemma insert_stable_filter (k : K) (x : A) (l : list A) :
  filter (fun y => key y = k) (insert_stable leb key x l)
  = filter (fun y => key y = k) (x :: l).
Proof.
  induction l as [|y l IH]; simpl; [done|].
  destruct (leb (key x) (key y)) eqn:Hxy; [done|].
  rewrite (filter_cons _ y), IH, !filter_cons.
  destruct (decide (key y = k)) as [Hy|Hy], (decide (key x = k)) as [Hx|Hx];
    try done.
  rewrite <- Hy in Hx. rewrite Hx, leb_refl in Hxy. done.
Qed.

Lemma stable_sort_filter (k : K) (l : list A) :
  filter (fun y => key y = k) (stable_sort leb key l)
  = filter (fun y => key y = k) l.
Proof.
  induction l as [|x l IH]; simpl; [done|].
  by rewrite insert_stable_filter, !filter_cons, IH.
Qed.

Lemma insert_stable_sorted (x : A) (l : list A) :
  StronglySorted (fun a b => leb (key a) (key b) = true) l ->
  StronglySorted (fun a b => leb (key a) (key b) = true)
                 (insert_stable leb key x l).
Proof.
  induction 1 as [|y l Hl IH Hy]; simpl.
  - repeat constructor.
  - destruct (leb (key x) (key y)) eqn:Hxy.
    + constructor; [by constructor|]. constructor; [done|].
      eapply Forall_impl; [exact Hy|]. simpl. eauto.
    + constructor; [done|].
      rewrite insert_stable_Permutation. constructor; [|done].
      destruct (leb_total (key x) (key y)); congruence.
Qed.

Lemma stable_sort_sorted (l : list A) :
  StronglySorted (fun a b => leb (key a) (key b) = true)
                 (stable_sort leb key l).
Proof.
  induction l as [|x l IH]; simpl; [constructor|].
  by apply insert_stable_sorted.
Qed.
End StableSort.

Lemma StronglySorted_weaken {A} (R1 R2 : A -> A -> Prop) (l : list A) :
  (forall a b, R1 a b -> R2 a b) -> StronglySorted R1 l -> StronglySorted R2 l.
Proof.
  intros HR. induction 1 as [|x l Hl IH Hx]; constructor; [done|].
  eapply Forall_impl; [exact Hx|]. auto.
Qed.

(** [sorted(l, key=key, reverse=True)] on integer keys: a permutation of
    the input, in descending order of the key, equal keys in input order. *)
Lemma py_sorted_reverse_spec {A} (key : A -> Z) (l : list A) :
  py_sorted Z.leb key true l ≡ₚ l
  /\ StronglySorted (fun a b => key b <= key a) (py_sorted Z.leb key true l)
  /\ forall k, filter (fun y => key y = k) (py_sorted Z.leb key true l)
               = filter (fun y => key y = k) l.
Proof.
  unfold py_sorted. split; [apply stable_sort_Permutation|]. split.
  - eapply StronglySorted_weaken; [|apply stable_sort_sorted].
    + intros a b H. unfold flip in H. lia.
    + intros a b. unfold flip. lia.
    + intros a b c. unfold flip. lia.
  - intros k. apply stable_sort_filter. intros a. unfold flip. lia.
Qed.

(** The three properties determine the result: whatever algorithm Python
    runs, a list that is in descending key order and keeps, for every key,
    the elements of that key in input order is the list [py_sorted]
    returns. *)
Lemma descending_stable_unique {A} (key : A -> Z) (l1 : list A) :
  forall l2 : list A,
  StronglySorted (fun a b => key b <= key a) l1 ->
  StronglySorted (fun a b => key b <= key a) l2 ->
  (forall k, filter (fun y => key y = k) l1 = filter (fun y => key y = k) l2) ->
  l1 = l2.
Proof.
  induction l1 as [|x l1 IH]; intros l2 Hs1 Hs2 Hfilter.
  - destruct l2 as [|y l2]; [done|].
    specialize (Hfilter (key y)). rewrite filter_cons in Hfilter.
    by destruct (decide (key y = key y)).
  - destruct l2 as [|y l2].
    { specialize (Hfilter (key x)). rewrite filter_cons in Hfilter.
      by destruct (decide (key x = key x)). }
    apply StronglySorted_inv in Hs1 as [Hs1 Hx].
    apply StronglySorted_inv in Hs2 as [Hs2 Hy].
    assert (Hyx : key y <= key x).
    { assert (Hin : y ∈ filter (fun z => key z = key y) (x :: l1)).
      { rewrite Hfilter. apply list_elem_of_filter. split; [done|].
        apply list_elem_of_here. }
      apply list_elem_of_filter in Hin as [_ Hin].
      apply elem_of_cons in Hin as [->|Hin]; [lia|].
      rewrite Forall_forall in Hx. by apply Hx. }
    assert (Hxy : key x <= key y).
    { assert (Hin : x ∈ filter (fun z => key z = key x) (y :: l2)).
      { rewrite <- Hfilter. apply list_elem_of_filter. split; [done|].
        apply list_elem_of_here. }
      apply list_elem_of_filter in Hin as [_ Hin].
      apply elem_of_cons in Hin as [->|Hin]; [lia|].
      rewrite Forall_forall in Hy. by apply Hy. }
    assert (Hkey : key x = key y) by lia.
    pose proof (Hfilter (key x)) as Hhead. rewrite !filter_cons in Hhead.
    destruct (decide (key x = key x)) as [_|]; [|done].
    destruct (decide (key y = key x)) as [_|]; [|done].
    injection Hhead as -> Htail. f_equal. apply IH; [done|done|].
    intros k. destruct (decide (key y = k)) as [<-|Hne]; [done|].
    specialize (Hfilter k). rewrite !filter_cons in Hfilter.
    by destruct (decide (key y = k)).
Qed.

Lemma py_sorted_reverse_unique {A} (key : A -> Z) (l l' : list A) :
  StronglySorted (fun a b => key b <= key a) l' ->
  (forall k, filter (fun y => key y = k) l' = filter (fun y => key y = k) l) ->
  l' = py_sorted Z.leb key true l.
Proof.
  intros Hsorted Hstable.
  destruct (py_sorted_reverse_spec key l) as (_ & Hs & Hf).
  apply (descending_stable_unique key); [done|done|].
  intros k. by rewrite Hstable, Hf.
Qed.

(** ** The dictionary comprehension *)

Lemma py_dict_snoc {V} (l : list (string * V)) (k : string) (v : V) :
  py_dict (l ++ [(k, v)]) = <[k := v]> (py_dict l).
Proof. unfold py_dict. by rewrite foldl_app. Qed.

(** The entry under [k] is the last pair of the list with key [k]. *)
Lemma py_dict_lookup {V} (l : list (string * V)) (k : string) :
  py_dict l !! k = snd <$> last (filter (fun kv => kv.1 = k) l).
Proof.
  induction l as [|[k' v] l IH] using rev_ind; [done|].
  rewrite py_dict_snoc, filter_app, filter_cons, filter_nil. simpl.
  destruct (decide (k' = k)) as [->|Hne].
  - by rewrite lookup_insert_eq, last_snoc.
  - by rewrite lookup_insert_ne, app_nil_r.
Qed.

Lemma py_dict_dom {V} (l : list (string * V)) :
  dom (py_dict l) = list_to_set (l.*1).
Proof.
  induction l as [|[k v] l IH] using rev_ind; [done|].
  rewrite py_dict_snoc, dom_insert_L, IH, fmap_app, list_to_set_app_L.
  simpl. rewrite (right_id_L ∅ (∪)). apply (comm_L (∪)).
Qed.

(** ** The leaderboard *)

Lemma StronglySorted_last_least {A} (R : A -> A -> Prop) (l : list A)
    (x : A) :
  StronglySorted R l -> last l = Some x ->
  forall y, y ∈ l -> y = x \/ R y x.
Proof.
  induction 1 as [|z l Hl IH Hz]; [done|].
  intros Hlast y Hy. destruct l as [|z' l].
  - injection Hlast as <-. apply elem_of_cons in Hy as [->|Hy]; [auto|].
    by apply not_elem_of_nil in Hy.
  - rewrite last_cons_cons in Hlast.
    apply elem_of_cons in Hy as [->|Hy]; [|by apply IH].
    right. rewrite Forall_forall in Hz. apply Hz.
    by apply last_Some_elem_of.
Qed.

Lemma StronglySorted_filter_keeps {A} (R : A -> A -> Prop)
    (P : A -> Prop) `{forall x, Decision (P x)} (l : list A) :
  StronglySorted R l -> StronglySorted R (filter P l).
Proof.
  induction 1 as [|z l Hl IH Hz]; [constructor|].
  rewrite filter_cons. destruct (decide (P z)); [|done].
  constructor; [done|]. rewrite Forall_forall in *.
  intros y Hy. apply Hz. by apply list_elem_of_filter in Hy as [_ Hy].
Qed.

Section LeaderboardProperties.
Variable calculate_total_score :
  Player.t -> list Round.t -> gmap string Z -> Z.

Lemma leaderboard_filter (tournament : Tournament.t)
    (previous_scores : gmap string Z) (s : Z) :
  (filter (fun x => x.2 = s)
          (leaderboard calculate_total_score tournament previous_scores)).*1
  = filter (fun player =>
              total_score calculate_total_score tournament previous_scores
                          player = s)
           (Tournament.players_list tournament).
Proof.
  unfold leaderboard.
  induction (Tournament.players_list tournament) as [|p l IH]; [done|].
  rewrite map_cons, !filter_cons. cbn [fst snd].
  destruct (decide (total_score calculate_total_score tournament
                                previous_scores p = s));
    [rewrite fmap_cons|]; by rewrite IH.
Qed.

Lemma sorted_leaderboard_entry (tournament : Tournament.t)
    (previous_scores : gmap string Z) (x : Player.t * Z) :
  x ∈ sorted_leaderboard calculate_total_score tournament previous_scores <->
  x.1 ∈ Tournament.players_list tournament
  /\ x.2 = total_score calculate_total_score tournament previous_scores x.1.
Proof.
  unfold sorted_leaderboard.
  destruct (py_sorted_reverse_spec snd
              (leaderboard calculate_total_score tournament previous_scores))
    as (Hperm & _ & _).
  rewrite Hperm. unfold leaderboard.
  change (map ?f ?l) with (f <$> l). rewrite list_elem_of_fmap.
  split.
  - intros (p & -> & Hp). done.
  - intros [Hp Hs]. exists x.1. split; [|done].
    destruct x; simpl in *. by f_equal.
Qed.

(** C4: the sequence [calculate_leaderboard] sorts and displays holds one
    (player, score) pair per registered player, is in descending order of
    the score, and lists the players of any one score in the order they
    have in [tournament.players_list]: the sort is stable and nothing else
    breaks ties. *)
Theorem calculate_leaderboard_sorted_stable (tournament : Tournament.t)
    (previous_scores : gmap string Z) :
  let score :=
    total_score calculate_total_score tournament previous_scores in
  let board :=
    sorted_leaderboard calculate_total_score tournament previous_scores in
  (calculate_leaderboard calculate_total_score tournament previous_scores).1
  = [CalculateLeaderboard tournament previous_scores;
     Print (leaderboard_title tournament)]
    ++ imap (fun i x => PrintRank (S i) (full_name x.1) x.2) board
  /\ board ≡ₚ map (fun player => (player, score player))
                  (Tournament.players_list tournament)
  /\ StronglySorted (fun a b => b.2 <= a.2) board
  /\ forall s : Z,
       (filter (fun x => x.2 = s) board).*1
       = filter (fun player => score player = s)
                (Tournament.players_list tournament).
Proof.
  intros score board. subst score board. unfold sorted_leaderboard.
  destruct (py_sorted_reverse_spec snd
              (leaderboard calculate_total_score tournament previous_scores))
    as (Hperm & Hsorted & Hstable).
  split; [done|]. split; [exact Hperm|]. split; [exact Hsorted|].
  intros s. rewrite Hstable. apply leaderboard_filter.
Qed.

(** The entry of the stored dictionary under a name: the score of a
    registered player of that name that no registered player of that name
    undercuts. *)
Lemma leaderboard_scores_lookup (tournament : Tournament.t)
    (previous_scores : gmap string Z) (name : string) (s : Z) :
  let score :=
    total_score calculate_total_score tournament previous_scores in
  leaderboard_scores calculate_total_score tournament previous_scores
  !! name = Some s <->
  (exists player,
     player ∈ Tournament.players_list tournament
     /\ full_name player = name /\ score player = s)
  /\ (forall player,
        player ∈ Tournament.players_list tournament ->
        full_name player = name -> s <= score player).
Proof.
  intros score.
  set (board := sorted_leaderboard calculate_total_score tournament
                                   previous_scores).
  set (named := filter (fun x : Player.t * Z => full_name x.1 = name) board).
  assert (Hlookup :
    leaderboard_scores calculate_total_score tournament previous_scores
    !! name = snd <$> last named).
  { unfold leaderboard_scores. rewrite py_dict_lookup.
    subst named. fold board. generalize board. intros l.
    induction l as [|[p sp] l IH] using rev_ind; [done|].
    rewrite map_app, !filter_app. simpl. rewrite !filter_cons, !filter_nil.
    simpl. destruct (decide (full_name p = name)).
    - by rewrite !last_snoc.
    - by rewrite !app_nil_r. }
  assert (Hsorted : StronglySorted (fun a b : Player.t * Z => b.2 <= a.2)
                                   named).
  { apply StronglySorted_filter_keeps.
    apply (py_sorted_reverse_spec snd
             (leaderboard calculate_total_score tournament previous_scores)). }
  assert (Hnamed : forall player,
             player ∈ Tournament.players_list tournament ->
             full_name player = name ->
             (player, score player) ∈ named).
  { intros player Hin Hname. apply list_elem_of_filter. split; [done|].
    by apply sorted_leaderboard_entry. }
  assert (Hforward : forall q sq,
             last named = Some (q, sq) ->
             (q ∈ Tournament.players_list tournament
              /\ full_name q = name /\ score q = sq)
             /\ (forall player,
                   player ∈ Tournament.players_list tournament ->
                   full_name player = name -> sq <= score player)).
  { intros q sq Hlast. split.
    - apply last_Some_elem_of in Hlast.
      apply list_elem_of_filter in Hlast as [Hname Hq].
      apply sorted_leaderboard_entry in Hq as [Hq Hs]. done.
    - intros player Hin Hname.
      destruct (StronglySorted_last_least _ _ _ Hsorted Hlast _
                  (Hnamed _ Hin Hname))
        as [[= _ ->]|Hle]; [lia|done]. }
  rewrite Hlookup. split.
  - destruct (last named) as [[q sq]|] eqn:Hlast; [|done].
    cbn. intros [= ->].
    destruct (Hforward _ _ eq_refl) as [Hq Hleast].
    split; [by exists q|done].
  - intros [(player & Hin & Hname & Hs) Hleast].
    destruct (last named) as [[q sq]|] eqn:Hlast.
    + destruct (Hforward _ _ eq_refl) as [(Hq & Hqname & Hqs) Hqleast].
      cbn. f_equal.
      pose proof (Hleast _ Hq Hqname). pose proof (Hqleast _ Hin Hname).
      lia.
    + apply last_None in Hlast. pose proof (Hnamed _ Hin Hname) as Hx.
      rewrite Hlast in Hx. by apply not_elem_of_nil in Hx.
Qed.

(** C8 (as amended): after [calculate_leaderboard],
    [tournament.players_score] has one entry under the string made of the
    first name, a space and the last name of every registered player, and
    under no other key.  The value under a key is the score of the player
    of that name written last, the one ranked last in the descending
    leaderboard: it is the lowest score among the registered players of
    that name.  So a registered player finds their own score under their
    name exactly when no registered player of the same name has a lower
    score, in particular when the name is theirs alone. *)
Theorem calculate_leaderboard_players_score (tournament : Tournament.t)
    (previous_scores : gmap string Z) :
  let key := fun player : Player.t =>
    Player.firstname player +:+ " " +:+ Player.lastname player in
  let score := fun player : Player.t =>
    calculate_total_score player (Tournament.rounds tournament)
                          previous_scores in
  let scores :=
    Tournament.players_score
      (calculate_leaderboard calculate_total_score tournament
                             previous_scores).2 in
  dom scores = list_to_set (key <$> Tournament.players_list tournament)
  /\ (forall (name : string) (s : Z),
        scores !! name = Some s <->
        (exists player,
           player ∈ Tournament.players_list tournament
           /\ key player = name /\ score player = s)
        /\ (forall player,
              player ∈ Tournament.players_list tournament ->
              key player = name -> s <= score player))
  /\ (forall player : Player.t,
        player ∈ Tournament.players_list tournament ->
        (scores !! key player = Some (score player) <->
         forall other : Player.t,
           other ∈ Tournament.players_list tournament ->
           key other = key player ->
           score player <= score other)).
Proof.
  intros key score scores.
  assert (Hlookup : forall (name : string) (s : Z),
             scores !! name = Some s <->
             (exists player,
                player ∈ Tournament.players_list tournament
                /\ key player = name /\ score player = s)
             /\ (forall player,
                   player ∈ Tournament.players_list tournament ->
                   key player = name -> s <= score player)).
  { intros name s.
    apply (leaderboard_scores_lookup tournament previous_scores name s). }
  split; [|split; [exact Hlookup|]].
  - subst scores. simpl. unfold leaderboard_scores.
    rewrite py_dict_dom. change (map ?f ?l) with (f <$> l).
    rewrite <- list_fmap_compose.
    apply set_eq. intros name.
    rewrite !elem_of_list_to_set, !list_elem_of_fmap.
    split.
    + intros (x & -> & Hx). apply sorted_leaderboard_entry in Hx as [Hx _].
      by exists x.1.
    + intros (p & -> & Hp). exists (p, score p). split; [done|].
      by apply sorted_leaderboard_entry.
  - intros player Hin. rewrite Hlookup. split.
    + intros [_ Hleast]. exact Hleast.
    + intros Hleast. split; [by exists player|exact Hleast].
Qed.

End LeaderboardProperties.

(** ** The event log *)

Lemma omap_console {B} (f : event -> option B) (ev : list event) :
  (forall e, is_console e = true -> f e = None) ->
  forallb is_console ev = true -> omap f ev = [].
Proof.
  intros Hf. induction ev as [|e ev IH]; simpl; [done|].
  intros [He Hev]%andb_prop. rewrite (Hf e He). by apply IH.
Qed.

Lemma paired_rounds_console (ev : list event) :
  forallb is_console ev = true -> paired_rounds ev = [].
Proof. apply omap_console. by intros []. Qed.

Lemma pairing_pools_console (ev : list event) :
  forallb is_console ev = true -> pairing_pools ev = [].
Proof. apply omap_console. by intros []. Qed.

Lemma previous_scores_passed_console (ev : list event) :
  forallb is_console ev = true -> previous_scores_passed ev = [].
Proof. apply omap_console. by intros []. Qed.

Lemma saved_console (ev : list event) :
  forallb is_console ev = true -> saved ev = [].
Proof. apply omap_console. by intros []. Qed.

Lemma paired_rounds_app (ev1 ev2 : list event) :
  paired_rounds (ev1 ++ ev2) = paired_rounds ev1 ++ paired_rounds ev2.
Proof. apply omap_app. Qed.

Lemma pairing_pools_app (ev1 ev2 : list event) :
  pairing_pools (ev1 ++ ev2) = pairing_pools ev1 ++ pairing_pools ev2.
Proof. apply omap_app. Qed.

Lemma previous_scores_passed_app (ev1 ev2 : list event) :
  previous_scores_passed (ev1 ++ ev2)
  = previous_scores_passed ev1 ++ previous_scores_passed ev2.
Proof. apply omap_app. Qed.

Lemma saved_app (ev1 ev2 : list event) :
  saved (ev1 ++ ev2) = saved ev1 ++ saved ev2.
Proof. apply omap_app. Qed.

Lemma console_app (ev1 ev2 : list event) :
  forallb is_console (ev1 ++ ev2)
  = forallb is_console ev1 && forallb is_console ev2.
Proof. apply forallb_app. Qed.

Lemma console_print_match (l : list Match.t) :
  forallb is_console (map print_match l) = true.
Proof. by induction l. Qed.

Lemma console_imap {B} (f : nat -> B -> event) (l : list B) :
  (forall i x, is_console (f i x) = true) ->
  forallb is_console (imap f l) = true.
Proof.
  revert f. induction l as [|x l IH]; intros f Hf; simpl; [done|].
  rewrite Hf. simpl. apply IH. intros i y. apply Hf.
Qed.

Lemma console_stamp_start (now : string) (r : Round.t) :
  forallb is_console (stamp_start now r).1 = true.
Proof. unfold stamp_start. by destruct (Round.start_time r). Qed.

Lemma console_stamp_end (now : string) (r : Round.t) :
  forallb is_console (stamp_end now r).1 = true.
Proof. unfold stamp_end. by destruct (Round.end_time r). Qed.

(** ** Python indexing *)

Ltac zbool :=
  repeat match goal with
  | H : (_ && _) = true |- _ => apply andb_prop in H as [? ?]
  | H : (_ && _) = false |- _ => apply andb_false_iff in H as [?|?]
  | H : negb _ = true |- _ => apply negb_true_iff in H
  | H : negb _ = false |- _ => apply negb_false_iff in H
  | H : (_ <=? _) = true |- _ => apply Z.leb_le in H
  | H : (_ <=? _) = false |- _ => apply Z.leb_gt in H
  | H : (_ <? _) = true |- _ => apply Z.ltb_lt in H
  | H : (_ <? _) = false |- _ => apply Z.ltb_ge in H
  | H : (_ =? _) = true |- _ => apply Z.eqb_eq in H
  | H : (_ =? _) = false |- _ => apply Z.eqb_neq in H
  end.

Lemma py_index_Some {B} (l : list B) (i : Z) (pos : nat) (x : B) :
  py_index l i = Some (pos, x) ->
  l !! pos = Some x /\ (0 <= i -> Z.of_nat pos = i).
Proof.
  unfold py_index, len. intros H.
  destruct (0 <=? i) eqn:Hi;
    (destruct (_ && _) eqn:Hr in H; [|done]);
    (destruct (l !! _) eqn:Hl in H; simpl in H; [|done]);
    injection H as <- <-; (split; [done|]); zbool; lia.
Qed.

Lemma py_index_in_range {B} (l : list B) (i : Z) :
  0 <= i < len l -> exists x, py_index l i = Some (Z.to_nat i, x).
Proof.
  unfold py_index, len. intros Hi.
  destruct (0 <=? i) eqn:H0; [|zbool; lia].
  destruct (_ && _) eqn:Hr; [|zbool; lia].
  destruct (lookup_lt_is_Some_2 l (Z.to_nat i)) as [x Hx]; [lia|].
  exists x. by rewrite Hx.
Qed.

Lemma py_index_len {B} (l : list B) : py_index l (len l) = None.
Proof.
  unfold py_index, len.
  destruct (0 <=? Z.of_nat (length l)) eqn:H0; [|zbool; lia].
  destruct (_ && _) eqn:Hr; [zbool; lia|done].
Qed.

(** ** The round loop *)

Section PlayProperties.
Variable calculate_total_score :
  Player.t -> list Round.t -> gmap string Z -> Z.

Lemma console_leaderboard (tournament : Tournament.t)
    (previous_scores : gmap string Z) :
  exists ev,
    (calculate_leaderboard calculate_total_score tournament previous_scores).1
    = CalculateLeaderboard tournament previous_scores :: ev
    /\ forallb is_console ev = true.
Proof.
  eexists. split; [reflexivity|]. simpl. by apply console_imap.
Qed.

(** The loop body, with its local variables spelled out. *)
Lemma play_round_eq (self : TournamentController.t)
    (tournament : Tournament.t) (pos : nat) (r : Round.t) (inp : round_input) :
  let r1 := (stamp_start (clock_start inp) r).2 in
  let r2 := Round.set_matches (paired inp) r1 in
  let t1 := store_round pos r1 tournament in
  let t2 := store_round pos r2 t1 in
  let board :=
    calculate_leaderboard calculate_total_score t2 (previous_scores_of self) in
  let advanced :=
    Tournament.set_current_round
      (Tournament.current_round tournament + 1)
      (store_round pos (played_round inp r) board.2) in
  let stop :=
    (Tournament.current_round tournament
     =? len (Tournament.rounds tournament) - 1)
    || negb (play_next inp) in
  play_round calculate_total_score self tournament pos r inp
  = (([Print (nl +:+ "Round "
              +:+ pretty (Tournament.current_round tournament + 1) +:+ " :")]
      ++ (stamp_start (clock_start inp) r).1
      ++ [GeneratePairs t1]
      ++ map print_match (paired inp)
      ++ board.1
      ++ (stamp_end (clock_end inp) r2).1)
     ++ (if stop then [AddTournament advanced] else []),
     advanced,
     if stop then Break else Continue).
Proof.
  unfold play_round, played_round, generate_pairs_for_round.
  fold (previous_scores_of self).
  destruct (stamp_start (clock_start inp) r) as [ev_start r1].
  cbn [fst snd].
  destruct (stamp_end (clock_end inp) (Round.set_matches (paired inp) r1))
    as [ev_end r3].
  cbn [fst snd].
  destruct (calculate_leaderboard _ _ _) as [ev_board t3] eqn:Hcalc.
  cbn [fst snd].
  assert (Hcr : Tournament.current_round (store_round pos r3 t3)
                = Tournament.current_round tournament).
  { unfold calculate_leaderboard in Hcalc. by injection Hcalc as _ <-. }
  assert (Hlen : len (Tournament.rounds (store_round pos r3 t3))
                 = len (Tournament.rounds tournament)).
  { unfold calculate_leaderboard in Hcalc. injection Hcalc as _ <-.
    unfold len. simpl. by rewrite !length_insert. }
  rewrite Hcr, Hlen.
  destruct (_ =? _); [done|]. cbn [orb].
  destruct (negb _); [done|]. by rewrite app_nil_r.
Qed.

(** What one pass of the loop body does. *)
Lemma play_round_facts (self : TournamentController.t)
    (tournament : Tournament.t) (pos : nat) (r : Round.t) (inp : round_input)
    (ev : list event) (tournament' : Tournament.t) (fl : flow) :
  play_round calculate_total_score self tournament pos r inp
  = (ev, tournament', fl) ->
  Tournament.rounds tournament'
  = <[pos := played_round inp r]> (Tournament.rounds tournament)
  /\ Tournament.current_round tournament'
     = Tournament.current_round tournament + 1
  /\ Tournament.players_list tournament'
     = Tournament.players_list tournament
  /\ paired_rounds ev = [Tournament.current_round tournament]
  /\ pairing_pools ev = [Tournament.players_list tournament]
  /\ previous_scores_passed ev = [previous_scores_of self]
  /\ saved ev = match fl with Break => [tournament'] | Continue => [] end
  /\ (fl = Continue ->
      Tournament.current_round tournament
      <> len (Tournament.rounds tournament) - 1
      /\ play_next inp = true).
Proof.
  rewrite play_round_eq. cbv zeta.
  destruct (console_leaderboard
              (store_round pos
                 (Round.set_matches (paired inp)
                    (stamp_start (clock_start inp) r).2)
                 (store_round pos (stamp_start (clock_start inp) r).2
                    tournament))
              (previous_scores_of self)) as (ev_board & -> & Hboard).
  pose proof (console_stamp_start (clock_start inp) r) as Hstart.
  pose proof (console_stamp_end (clock_end inp)
                (Round.set_matches (paired inp)
                   (stamp_start (clock_start inp) r).2)) as Hend.
  pose proof (console_print_match (paired inp)) as Hmatches.
  intros H.
  pose proof (f_equal (fun x => x.1.1) H) as Hev.
  pose proof (f_equal (fun x => x.1.2) H) as Ht.
  pose proof (f_equal snd H) as Hfl.
  cbv beta in Hev, Ht. cbn [fst snd] in Hev, Ht, Hfl. clear H.
  subst ev tournament' fl.
  split; [simpl; by rewrite !list_insert_insert_eq|].
  split; [done|]. split; [done|].
  rewrite !paired_rounds_app, !pairing_pools_app,
    !previous_scores_passed_app, !saved_app.
  change (CalculateLeaderboard ?t ?p :: ev_board)
    with ([CalculateLeaderboard t p] ++ ev_board).
  rewrite !paired_rounds_app, !pairing_pools_app,
    !previous_scores_passed_app, !saved_app.
  rewrite !(paired_rounds_console (stamp_start _ _).1),
    !(pairing_pools_console (stamp_start _ _).1),
    !(previous_scores_passed_console (stamp_start _ _).1),
    !(saved_console (stamp_start _ _).1) by done.
  rewrite !(paired_rounds_console (stamp_end _ _).1),
    !(pairing_pools_console (stamp_end _ _).1),
    !(previous_scores_passed_console (stamp_end _ _).1),
    !(saved_console (stamp_end _ _).1) by done.
  rewrite !(paired_rounds_console (map _ _)),
    !(pairing_pools_console (map _ _)),
    !(previous_scores_passed_console (map _ _)),
    !(saved_console (map _ _)) by done.
  rewrite !(paired_rounds_console ev_board),
    !(pairing_pools_console ev_board),
    !(previous_scores_passed_console ev_board),
    !(saved_console ev_board) by done.
  destruct (_ || _) eqn:Hstop; simpl; repeat split; try done.
  - apply orb_false_iff in Hstop as [H1 H2]. zbool. done.
  - apply orb_false_iff in Hstop as [H1 H2]. by destruct (play_next inp).
Qed.

Lemma play_round_break_last (self : TournamentController.t)
    (tournament : Tournament.t) (pos : nat) (r : Round.t) (inp : round_input)
    (ev : list event) (tournament' : Tournament.t) :
  play_round calculate_total_score self tournament pos r inp
  = (ev, tournament', Break) ->
  exists ev0, ev = ev0 ++ [AddTournament tournament'].
Proof.
  rewrite play_round_eq. cbv zeta. intros H.
  pose proof (f_equal (fun x => x.1.1) H) as Hev.
  pose proof (f_equal (fun x => x.1.2) H) as Ht.
  pose proof (f_equal snd H) as Hfl.
  cbv beta in Hev, Ht. cbn [fst snd] in Hev, Ht, Hfl. clear H.
  destruct (_ || _); [|done]. subst ev tournament'. eauto.
Qed.

(** The loop guard still holds after a pass that continues. *)
Lemma loop_guard_after_continue (tournament tournament' : Tournament.t)
    (pos : nat) (r : Round.t) :
  py_index (Tournament.rounds tournament)
           (Tournament.current_round tournament) = Some (pos, r) ->
  Tournament.current_round tournament
  <> len (Tournament.rounds tournament) - 1 ->
  Tournament.current_round tournament'
  = Tournament.current_round tournament + 1 ->
  length (Tournament.rounds tournament')
  = length (Tournament.rounds tournament) ->
  loop_guard tournament' = true.
Proof.
  intros Hidx Hne Hcr Hlen. unfold loop_guard, len in *.
  apply py_index_Some in Hidx as [Hpos Hi].
  apply lookup_lt_Some in Hpos. apply Z.leb_le.
  destruct (decide (0 <= Tournament.current_round tournament)); lia.
Qed.

(** What a run of the loop does. *)
Lemma play_tournament_facts (self : TournamentController.t)
    (script : list round_input) :
  forall (tournament : Tournament.t) (ev : list event)
         (tournament' : Tournament.t) (res : outcome),
  play_tournament calculate_total_score self tournament script
  = (ev, tournament', res) ->
  length (Tournament.rounds tournament')
  = length (Tournament.rounds tournament)
  /\ Tournament.players_list tournament'
     = Tournament.players_list tournament
  /\ Tournament.current_round tournament
     <= Tournament.current_round tournament'
  /\ (forall i : nat,
        Z.of_nat i < Tournament.current_round tournament ->
        Tournament.rounds tournament' !! i
        = Tournament.rounds tournament !! i)
  /\ paired_rounds ev
     = seqZ (Tournament.current_round tournament)
            (Tournament.current_round tournament'
             - Tournament.current_round tournament)
  /\ Forall (eq (Tournament.players_list tournament)) (pairing_pools ev)
  /\ Forall (eq (previous_scores_of self)) (previous_scores_passed ev)
  /\ saved ev = match res with
                | Returned =>
                  if loop_guard tournament then [tournament'] else []
                | _ => []
                end
  /\ (res = Returned -> loop_guard tournament = true ->
      Tournament.current_round tournament
      < Tournament.current_round tournament'
      /\ exists ev0, ev = ev0 ++ [AddTournament tournament']).
Proof.
  induction script as [|inp script IH]; intros t ev t' res; simpl.
  - destruct (loop_guard t) eqn:Hguard;
      [destruct (py_index _ _) as [[pos r]|]|];
      intros [= <- <- <-]; rewrite Z.sub_diag;
      repeat split; try done; by constructor.
  - destruct (loop_guard t) eqn:Hguard.
    2:{ intros [= <- <- <-]. rewrite Z.sub_diag.
        repeat split; try done; by constructor. }
    destruct (py_index _ _) as [[pos r]|] eqn:Hidx.
    2:{ intros [= <- <- <-]. rewrite Z.sub_diag.
        repeat split; try done; by constructor. }
    destruct (play_round _ _ _ _ _ _) as [[ev1 t1] fl] eqn:Hround.
    pose proof (play_round_facts _ _ _ _ _ _ _ _ Hround)
      as (Hrounds & Hcr & Hplayers & Hpaired & Hpools & Hprev & Hsaved & Hcont).
    assert (Hlen1 : length (Tournament.rounds t1)
                    = length (Tournament.rounds t)).
    { by rewrite Hrounds, length_insert. }
    assert (Hframe : forall i : nat,
               Z.of_nat i < Tournament.current_round t ->
               Tournament.rounds t1 !! i = Tournament.rounds t !! i).
    { intros i Hi. rewrite Hrounds. apply list_lookup_insert_ne.
      apply py_index_Some in Hidx as [_ Hpos]. lia. }
    destruct fl.
    + destruct (play_tournament _ _ t1 script) as [[ev2 t2] res2] eqn:Hrest.
      intros [= <- <- <-].
      destruct (Hcont eq_refl) as [Hne Hnext].
      pose proof (loop_guard_after_continue _ _ _ _ Hidx Hne Hcr Hlen1)
        as Hguard1.
      destruct (IH _ _ _ _ Hrest)
        as (Hlen & Hpl & Hle & Hfr & Hpr & Hpo & Hps & Hsv & Hlast).
      rewrite paired_rounds_app, pairing_pools_app,
        previous_scores_passed_app, saved_app.
      rewrite Hpaired, Hpools, Hprev, Hsaved, Hpr, Hsv, Hguard1.
      split; [congruence|]. split; [congruence|]. split; [lia|].
      split; [intros i Hi; rewrite Hfr by lia; by apply Hframe|].
      split.
      { rewrite (seqZ_cons (Tournament.current_round t)) by lia.
        simpl. do 2 f_equal; lia. }
      split; [constructor; [done|]; by rewrite <- Hplayers|].
      split; [by constructor|]. split; [done|].
      intros Hres _. destruct (Hlast Hres Hguard1) as [Hlt [ev0 ->]].
      split; [lia|]. exists (ev1 ++ ev0). by rewrite app_assoc.
    + intros [= <- <- <-].
      rewrite Hpaired, Hpools, Hprev, Hsaved.
      split; [done|]. split; [done|]. split; [lia|]. split; [done|].
      split.
      { rewrite seqZ_cons by lia. rewrite seqZ_nil by lia. done. }
      split; [by repeat constructor|]. split; [by repeat constructor|].
      split; [done|]. intros _ _. split; [lia|].
      by eapply play_round_break_last.
Qed.

(** On a round index within range the loop never raises, and it returns
    once the script covers the rounds that remain. *)
Lemma play_tournament_in_range (self : TournamentController.t)
    (script : list round_input) :
  forall (tournament : Tournament.t) (ev : list event)
         (tournament' : Tournament.t) (res : outcome),
  0 <= Tournament.current_round tournament
    < len (Tournament.rounds tournament) ->
  play_tournament calculate_total_score self tournament script
  = (ev, tournament', res) ->
  (forall e, res <> Raised e)
  /\ Tournament.current_round tournament'
     <= len (Tournament.rounds tournament)
  /\ (len (Tournament.rounds tournament)
      - Tournament.current_round tournament <= len script ->
      res = Returned).
Proof.
  induction script as [|inp script IH]; intros t ev t' res Hrange; simpl.
  - assert (Hguard : loop_guard t = true).
    { unfold loop_guard. apply Z.leb_le. lia. }
    destruct (py_index_in_range _ _ Hrange) as [r Hidx].
    rewrite Hguard, Hidx. intros [= <- <- <-].
    split; [done|]. split; [lia|]. unfold len at 2. simpl. lia.
  - assert (Hguard : loop_guard t = true).
    { unfold loop_guard. apply Z.leb_le. lia. }
    destruct (py_index_in_range _ _ Hrange) as [r Hidx].
    rewrite Hguard, Hidx.
    destruct (play_round _ _ _ _ _ _) as [[ev1 t1] fl] eqn:Hround.
    pose proof (play_round_facts _ _ _ _ _ _ _ _ Hround)
      as (Hrounds & Hcr & _ & _ & _ & _ & _ & Hcont).
    assert (Hlen1 : len (Tournament.rounds t1) = len (Tournament.rounds t)).
    { unfold len. by rewrite Hrounds, length_insert. }
    destruct fl.
    + destruct (play_tournament _ _ t1 script) as [[ev2 t2] res2] eqn:Hrest.
      intros [= <- <- <-]. destruct (Hcont eq_refl) as [Hne _].
      assert (Hrange1 : 0 <= Tournament.current_round t1
                             < len (Tournament.rounds t1)) by lia.
      destruct (IH _ _ _ _ Hrange1 Hrest) as (Hraise & Hle & Hret).
      split; [done|]. split; [lia|].
      intros Hscript. apply Hret. unfold len at 2 in Hscript.
      simpl in Hscript. unfold len at 2. lia.
    + intros [= <- <- <-]. split; [done|]. split; [lia|]. done.
Qed.

(** C1 (where the code departs from the claim): on a finished tournament,
    whose [current_round] equals [len(rounds)], the loop guard
    [current_round <= len(rounds)] holds, the body is entered and its first
    statement reads [tournament.rounds[len(rounds)]]: [play_tournament]
    raises [IndexError] before doing anything else, whatever the
    collaborators would answer. *)
Theorem play_tournament_finished_raises (self : TournamentController.t)
    (tournament : Tournament.t) (script : list round_input) :
  Tournament.current_round tournament = len (Tournament.rounds tournament) ->
  play_tournament calculate_total_score self tournament script
  = ([], tournament, Raised IndexError).
Proof.
  intros Hcr.
  assert (Hguard : loop_guard tournament = true).
  { unfold loop_guard. apply Z.leb_le. lia. }
  destruct script; simpl; by rewrite Hguard, Hcr, py_index_len.
Qed.

(** C2 (as amended): [play_tournament] hands the tournament to the storage
    collaborator when the loop stops, and only then: a call that enters the
    loop and returns has saved exactly once, as its last act, the tournament
    in its final state, after advancing [current_round] past the round just
    finished (the last configured round, or a round after which the user
    declined to go on).  A pass of the loop body over a round that is not
    the last, after which the user answers yes to playing the next round,
    advances [current_round], saves nothing and lets the loop go on; these
    are the only passes that do not stop the loop, and a pass that stops it
    ends with the save. *)
Theorem play_tournament_saves_when_loop_stops (self : TournamentController.t)
    (tournament : Tournament.t) (script : list round_input)
    (ev : list event) (tournament' : Tournament.t) (res : outcome) :
  play_tournament calculate_total_score self tournament script
  = (ev, tournament', res) ->
  (res = Returned -> loop_guard tournament = true ->
   saved ev = [tournament']
   /\ (exists ev0, ev = ev0 ++ [AddTournament tournament'])
   /\ Tournament.current_round tournament
      < Tournament.current_round tournament')
  /\ (res <> Returned -> saved ev = [])
  /\ (forall pos r inp ev1 t1 fl,
        play_round calculate_total_score self tournament pos r inp
        = (ev1, t1, fl) ->
        Tournament.current_round t1
        = Tournament.current_round tournament + 1
        /\ (Tournament.current_round tournament
            <> len (Tournament.rounds tournament) - 1 ->
            play_next inp = true ->
            fl = Continue /\ saved ev1 = [])
        /\ (fl = Continue ->
            saved ev1 = []
            /\ play_next inp = true
            /\ Tournament.current_round tournament
               <> len (Tournament.rounds tournament) - 1)
        /\ (fl = Break ->
            saved ev1 = [t1]
            /\ exists ev0, ev1 = ev0 ++ [AddTournament t1]))
  /\ (forall pos r inp rest,
        loop_guard tournament = true ->
        py_index (Tournament.rounds tournament)
                 (Tournament.current_round tournament) = Some (pos, r) ->
        script = inp :: rest ->
        Tournament.current_round tournament
        <> len (Tournament.rounds tournament) - 1 ->
        play_next inp = true ->
        exists ev1 t1 ev2,
          play_round calculate_total_score self tournament pos r inp
          = (ev1, t1, Continue)
          /\ saved ev1 = []
          /\ play_tournament calculate_total_score self t1 rest
             = (ev2, tournament', res)
          /\ ev = ev1 ++ ev2).
Proof.
  intros Hrun.
  assert (Hyes : forall pos r inp ev1 t1 fl,
             play_round calculate_total_score self tournament pos r inp
             = (ev1, t1, fl) ->
             Tournament.current_round tournament
             <> len (Tournament.rounds tournament) - 1 ->
             play_next inp = true ->
             fl = Continue /\ saved ev1 = []).
  { intros pos r inp ev1 t1 fl Hround Hnotlast Hnext.
    pose proof (play_round_facts _ _ _ _ _ _ _ _ Hround)
      as (_ & _ & _ & _ & _ & _ & Hsv & _).
    assert (Hfl : fl = Continue).
    { rewrite play_round_eq in Hround. cbv zeta in Hround.
      pose proof (f_equal snd Hround) as Hfl. cbn [snd] in Hfl.
      rewrite Hnext in Hfl.
      destruct (_ =? _) eqn:Hlast'; [zbool; done|].
      by rewrite <- Hfl. }
    split; [exact Hfl|]. by rewrite Hfl in Hsv. }
  destruct (play_tournament_facts _ _ _ _ _ _ Hrun)
    as (_ & _ & _ & _ & _ & _ & _ & Hsaved & Hlast).
  split; [|split; [|split]].
  - intros -> Hguard. rewrite Hguard in Hsaved.
    destruct (Hlast eq_refl Hguard) as [Hlt Hev0]. done.
  - intros Hres. by destruct res.
  - intros pos r inp ev1 t1 fl Hround.
    pose proof (play_round_facts _ _ _ _ _ _ _ _ Hround)
      as (_ & Hcr & _ & _ & _ & _ & Hsv & Hcont).
    split; [exact Hcr|]. split; [|split].
    + by apply (Hyes _ _ _ _ _ _ Hround).
    + intros ->. by destruct (Hcont eq_refl).
    + intros ->. split; [exact Hsv|].
      by apply (play_round_break_last _ _ _ _ _ _ _ Hround).
  - intros pos r inp rest Hguard Hidx -> Hnotlast Hnext.
    cbn [play_tournament] in Hrun. rewrite Hguard, Hidx in Hrun.
    destruct (play_round calculate_total_score self tournament pos r inp)
      as [[ev1 t1] fl] eqn:Hround.
    destruct (Hyes _ _ _ _ _ _ Hround Hnotlast Hnext) as [-> Hnone].
    destruct (play_tournament calculate_total_score self t1 rest)
      as [[ev2 t2] res2] eqn:Hrest.
    exists ev1, t1, ev2.
    pose proof (f_equal (fun x => x.1.1) Hrun) as Hev.
    pose proof (f_equal (fun x => x.1.2) Hrun) as Ht.
    pose proof (f_equal snd Hrun) as Hres.
    cbv beta in Hev, Ht. cbn [fst snd] in Hev, Ht, Hres.
    subst ev tournament' res. done.
Qed.

Variable Json : Type.
Variable from_json : Json -> Tournament.t.

(** C3: resuming a tournament whose [current_round] is strictly between 0
    and [len(rounds)] plays the rounds from index [current_round] on, each
    once and in order, never raises, and leaves every round of a smaller
    index exactly as it was stored: neither its matches nor its timestamps
    change, and pairing is not run on it again. *)
Theorem resume_tournament_reenters_at_current_round
    (self : TournamentController.t) (chosen_tournament : Json)
    (script : list round_input) (ev : list event)
    (resumed : option Tournament.t) (res : outcome) :
  0 < Tournament.current_round (from_json chosen_tournament)
    < len (Tournament.rounds (from_json chosen_tournament)) ->
  resume_tournament calculate_total_score Json from_json self
                    (Some chosen_tournament) script
  = (ev, resumed, res) ->
  exists tournament' : Tournament.t,
    resumed = Some tournament'
    /\ (forall e, res <> Raised e)
    /\ paired_rounds ev
       = seqZ (Tournament.current_round (from_json chosen_tournament))
              (Tournament.current_round tournament'
               - Tournament.current_round (from_json chosen_tournament))
    /\ (script <> [] ->
        head (paired_rounds ev)
        = Some (Tournament.current_round (from_json chosen_tournament)))
    /\ Forall (fun i =>
                 Tournament.current_round (from_json chosen_tournament) <= i)
              (paired_rounds ev)
    /\ (forall i : nat,
          Z.of_nat i < Tournament.current_round (from_json chosen_tournament) ->
          Tournament.rounds tournament' !! i
          = Tournament.rounds (from_json chosen_tournament) !! i).
Proof.
  intros Hrange. unfold resume_tournament.
  destruct (play_tournament _ _ _ _) as [[ev1 t1] res1] eqn:Hrun.
  intros [= <- <- <-]. exists t1. split; [done|].
  destruct (play_tournament_facts _ _ _ _ _ _ Hrun)
    as (_ & _ & Hle & Hframe & Hpaired & _).
  assert (Hrange0 :
            0 <= Tournament.current_round (from_json chosen_tournament)
              < len (Tournament.rounds (from_json chosen_tournament)))
    by lia.
  destruct (play_tournament_in_range _ _ _ _ _ _ Hrange0 Hrun)
    as (Hraise & _ & _).
  split; [done|]. split; [done|]. split; [|split; [|done]].
  - intros Hscript. destruct script as [|inp script]; [done|].
    simpl in Hrun.
    assert (Hguard : loop_guard (from_json chosen_tournament) = true).
    { unfold loop_guard. apply Z.leb_le. lia. }
    destruct (py_index_in_range _ _ Hrange0) as [r Hidx].
    rewrite Hguard, Hidx in Hrun.
    destruct (play_round _ _ _ _ _ _) as [[ev2 t2] fl] eqn:Hround.
    pose proof (play_round_facts _ _ _ _ _ _ _ _ Hround)
      as (_ & _ & _ & Hp & _).
    destruct fl.
    + destruct (play_tournament _ _ t2 script) as [[ev3 t3] res3].
      injection Hrun as <- _ _. by rewrite paired_rounds_app, Hp.
    + injection Hrun as <- _ _. by rewrite Hp.
  - rewrite Hpaired. apply Forall_seqZ. intros i Hi. lia.
Qed.

(** C5 (as amended): in a pass of the loop body on a round whose [end_time]
    is unset, the leaderboard comes first and the stamp second:
    [calculate_leaderboard] is called on a tournament whose current round
    has no [end_time] yet, its title and ranks are displayed, and only then
    is the clock read and [end_time] set, before the tournament is saved or
    the next round is begun. *)
Theorem play_round_leaderboard_then_end_time (self : TournamentController.t)
    (tournament : Tournament.t) (pos : nat) (r : Round.t) (inp : round_input)
    (ev : list event) (tournament' : Tournament.t) (fl : flow) :
  Tournament.rounds tournament !! pos = Some r ->
  Round.end_time r = None ->
  play_round calculate_total_score self tournament pos r inp
  = (ev, tournament', fl) ->
  exists (ev1 : list event) (s : Tournament.t),
    ev = ev1
         ++ [CalculateLeaderboard s (previous_scores_of self);
             Print (leaderboard_title s)]
         ++ imap (fun i x => PrintRank (S i) (full_name x.1) x.2)
                 (sorted_leaderboard calculate_total_score s
                                     (previous_scores_of self))
         ++ [Now (clock_end inp)]
         ++ match fl with
            | Break => [AddTournament tournament']
            | Continue => []
            end
    /\ Round.end_time <$> Tournament.rounds s !! pos = Some None
    /\ Round.end_time <$> Tournament.rounds tournament' !! pos
       = Some (Some (clock_end inp)).
Proof.
  intros Hpos Hend. rewrite play_round_eq. cbv zeta. intros H.
  pose proof (f_equal (fun x => x.1.1) H) as Hev.
  pose proof (f_equal (fun x => x.1.2) H) as Ht.
  pose proof (f_equal snd H) as Hfl.
  cbv beta in Hev, Ht. cbn [fst snd] in Hev, Ht, Hfl. clear H.
  apply lookup_lt_Some in Hpos.
  assert (Hend1 : Round.end_time (stamp_start (clock_start inp) r).2 = None).
  { unfold stamp_start. by destruct (Round.start_time r). }
  assert (Hstamp : stamp_end (clock_end inp)
                     (Round.set_matches (paired inp)
                        (stamp_start (clock_start inp) r).2)
                   = ([Now (clock_end inp)],
                      Round.set_end_time (Some (clock_end inp))
                        (Round.set_matches (paired inp)
                           (stamp_start (clock_start inp) r).2))).
  { unfold stamp_end. simpl. by rewrite Hend1. }
  subst ev tournament' fl. unfold played_round. rewrite Hstamp.
  exists ([Print (nl +:+ "Round "
                  +:+ pretty (Tournament.current_round tournament + 1)
                  +:+ " :")]
          ++ (stamp_start (clock_start inp) r).1
          ++ [GeneratePairs
                (store_round pos (stamp_start (clock_start inp) r).2
                             tournament)]
          ++ map print_match (paired inp)),
         (store_round pos
            (Round.set_matches (paired inp)
               (stamp_start (clock_start inp) r).2)
            (store_round pos (stamp_start (clock_start inp) r).2 tournament)).
  split; [|split].
  - unfold calculate_leaderboard. cbn [fst snd]. rewrite <- !app_assoc.
    destruct (_ || _); reflexivity.
  - unfold store_round. cbn [Tournament.rounds Tournament.set_rounds].
    rewrite list_insert_insert_eq, list_lookup_insert_eq by done.
    cbn [fmap option_fmap option_map Round.end_time Round.set_matches].
    by rewrite Hend1.
  - unfold store_round, calculate_leaderboard.
    cbn [fst snd Tournament.rounds Tournament.set_rounds
         Tournament.set_current_round Tournament.set_players_score].
    rewrite !list_insert_insert_eq, list_lookup_insert_eq by done.
    reflexivity.
Qed.

End PlayProperties.

(** ** The registration loop *)

Section RegistrationProperties.
Variable calculate_total_score :
  Player.t -> list Round.t -> gmap string Z -> Z.

Lemma console_get_selected_player (sorted_players : list Player.t)
    (index_inputs : list string) :
  forallb is_console (get_selected_player sorted_players index_inputs).1 = true.
Proof.
  induction index_inputs as [|index_input index_inputs IH]; simpl; [done|].
  destruct (isdigit index_input); [destruct (_ && _)|].
  - by destruct (sorted_players !! _).
  - by destruct (get_selected_player sorted_players index_inputs).
  - by destruct (get_selected_player sorted_players index_inputs).
Qed.

Lemma console_print_player (l : list Player.t) :
  forallb is_console (map print_player l) = true.
Proof. by induction l. Qed.

Ltac console_events H :=
  repeat (cbn [forallb is_console andb app];
          rewrite ?console_app, ?console_print_player, ?H);
  done.

(** One pass of the registration loop either commits nothing, and then only
    prints, or is a confirmed choice 3 on a valid count. *)
Lemma registration_turn_cases (sorted_players_list : list Player.t)
    (st : registration) (t : turn) (ev : list event) (st' : registration)
    (fl : turn_flow) :
  registration_turn calculate_total_score sorted_players_list st t
  = (ev, st', fl) ->
  (forallb is_console ev = true
   /\ tournament st' = tournament st
   /\ TournamentController.players_score (self st')
      = TournamentController.players_score (self st)
   /\ (exists added, selected_players st' = selected_players st ++ added)
   /\ (fl = Again \/ fl = Wait \/ (fl = Leave Quit /\ st' = st)))
  \/ (valid_count (selected_players st)
      /\ selected_players st' = selected_players st
      /\ self st' = self st
      /\ exists (ev' : list event) (res : outcome),
           let committed :=
             Tournament.set_players_list
               (Tournament.players_list (tournament st) ++ selected_players st)
               (tournament st) in
           ev = [DisplayAddPlayerMenu
                   (TournamentController.num_players (self st));
                 AddTournament committed;
                 Print "Les joueurs ont bien été ajoutés."] ++ ev'
           /\ (if answer t
               then play_tournament calculate_total_score (self st) committed
                                    (rounds_script t)
                    = (ev', tournament st', res)
               else ev' = [] /\ tournament st' = committed /\ res = Returned)
           /\ fl = match res with
                   | Returned => Leave Confirmed
                   | Raised e => Fail e
                   | Pending => Wait
                   end).
Proof.
  unfold registration_turn.
  destruct (String.eqb (user_choice t) "1").
  { pose proof (console_get_selected_player sorted_players_list
                  (index_inputs t)) as Hsel.
    destruct (get_selected_player _ _) as [ev_sel [[p idx]|]];
      cbn [fst] in Hsel.
    - destruct (existsb _ _); intros [= <- <- <-]; left;
        (split; [console_events Hsel|]);
        (repeat split; try done); eauto using app_nil_r.
    - intros [= <- <- <-]. left. split; [console_events Hsel|].
      repeat split; try done; eauto using app_nil_r. }
  destruct (String.eqb (user_choice t) "2").
  { destruct (new_player t); intros [= <- <- <-]; left;
      (split; [console_events I|]);
      (repeat split; try done); eauto using app_nil_r. }
  destruct (String.eqb (user_choice t) "3").
  { destruct (_ && _) eqn:Hcount.
    - zbool. destruct (answer t) eqn:Hanswer.
      + destruct (play_tournament _ _ _ _) as [[ev' t'] res] eqn:Hplay.
        intros [= <- <- <-]. right. split; [done|]. split; [done|].
        split; [done|]. exists ev', res. done.
      + intros [= <- <- <-]. right. split; [done|]. split; [done|].
        split; [done|]. exists [], Returned. done.
    - intros [= <- <- <-]. left. split; [console_events I|].
      repeat split; try done; eauto using app_nil_r. }
  destruct (String.eqb (user_choice t) "q").
  { destruct (answer t); intros [= <- <- <-]; left;
      (split; [console_events I|]);
      (repeat split; try done); eauto using app_nil_r. }
  intros [= <- <- <-]. left. split; [console_events I|].
  repeat split; try done; eauto using app_nil_r.
Qed.

Lemma previous_scores_of_ext (a b : TournamentController.t) :
  TournamentController.players_score a = TournamentController.players_score b ->
  previous_scores_of a = previous_scores_of b.
Proof. unfold previous_scores_of. by intros ->. Qed.

(** What a run of the registration loop does, started with the tournament's
    own list emptied: either nothing was committed, or the whole selection
    was, on a valid count, and pairing only ever saw that selection. *)
Lemma registration_loop_facts (sorted_players_list : list Player.t)
    (turns : list turn) :
  forall (st : registration) (ev : list event) (st' : registration)
         (res : registration_outcome),
  registration_loop calculate_total_score sorted_players_list st turns
  = (ev, st', res) ->
  Tournament.players_list (tournament st) = [] ->
  TournamentController.players_score (self st')
  = TournamentController.players_score (self st)
  /\ (exists added, selected_players st' = selected_players st ++ added)
  /\ Forall (eq (previous_scores_of (self st))) (previous_scores_passed ev)
  /\ ((Tournament.players_list (tournament st') = []
       /\ pairing_pools ev = [] /\ saved ev = []
       /\ (res = Waiting \/ res = Left Quit))
      \/ (valid_count (selected_players st')
          /\ Tournament.players_list (tournament st') = selected_players st'
          /\ res <> Left Quit
          /\ Forall (eq (selected_players st')) (pairing_pools ev)
          /\ exists committed more,
               saved ev = committed :: more
               /\ Tournament.players_list committed = selected_players st')).
Proof.
  induction turns as [|t turns IH]; intros st ev st' res; simpl.
  - intros [= <- <- <-] Hempty. split; [done|].
    split; [by exists []; rewrite app_nil_r|]. split; [constructor|].
    left. auto.
  - destruct (registration_turn _ _ _ _) as [[ev1 st1] fl] eqn:Hturn.
    intros Hrun Hempty.
    destruct (registration_turn_cases _ _ _ _ _ _ Hturn)
      as [(Hconsole & Ht & Hscore & [added Hadded] & Hfl)
         |(Hvalid & Hsel & Hself & ev' & res' & Hev & Hplay & Hfl)].
    + assert (Hquiet : Forall (eq (previous_scores_of (self st)))
                              (previous_scores_passed ev1)
                       /\ pairing_pools ev1 = [] /\ saved ev1 = []).
      { rewrite previous_scores_passed_console, pairing_pools_console,
          saved_console by done. by repeat split. }
      destruct Hquiet as (Hprev1 & Hpools1 & Hsaved1).
      destruct Hfl as [->|[->|[-> ->]]].
      * destruct (registration_loop _ _ st1 turns) as [[ev2 st2] res2]
          eqn:Hrest.
        injection Hrun as <- <- <-.
        destruct (IH _ _ _ _ Hrest) as (Hsc & [added2 Hadd2] & Hprev2 & Hcase);
          [by rewrite Ht|].
        split; [congruence|].
        split; [exists (added ++ added2); by rewrite Hadd2, Hadded, app_assoc|].
        rewrite previous_scores_passed_app, pairing_pools_app, saved_app,
          Hpools1, Hsaved1.
        split.
        { apply Forall_app. split; [done|].
          by rewrite (previous_scores_of_ext (self st) (self st1)). }
        done.
      * injection Hrun as <- <- <-. split; [done|]. split; [eauto|].
        split; [done|]. left. rewrite Ht. auto.
      * injection Hrun as <- <- <-. split; [done|].
        split; [by exists []; rewrite app_nil_r|]. split; [done|]. left. auto.
    + cbv zeta in Hev, Hplay.
      assert (Hcommitted :
        Tournament.players_list (tournament st1) = selected_players st1
        /\ Forall (eq (selected_players st1)) (pairing_pools ev')
        /\ Forall (eq (previous_scores_of (self st)))
                  (previous_scores_passed ev')).
      { destruct (answer t).
        - destruct (play_tournament_facts _ _ _ _ _ _ _ Hplay)
            as (_ & Hpl & _ & _ & _ & Hpools & Hprev & _).
          simpl in Hpl, Hpools. rewrite Hempty in Hpl, Hpools.
          simpl in Hpl, Hpools. by rewrite Hsel.
        - destruct Hplay as (-> & -> & _). simpl. rewrite Hempty, Hsel.
          by repeat split. }
      destruct Hcommitted as (Hpl & Hpools & Hprev).
      assert (Hout : ev = ev1 /\ st' = st1 /\ res <> Left Quit
                     /\ res <> Left Quit).
      { subst fl. destruct res'; injection Hrun as <- <- <-; by repeat split. }
      destruct Hout as (-> & -> & Hres & _).
      split; [by rewrite Hself|].
      split; [exists []; by rewrite app_nil_r|].
      rewrite Hev, previous_scores_passed_app, pairing_pools_app, saved_app.
      split; [done|]. right. rewrite <- Hsel in Hvalid.
      split; [done|]. split; [done|]. split; [done|]. split; [done|].
      eexists _, _. split; [reflexivity|].
      simpl. by rewrite Hempty, Hsel.
Qed.

Lemma console_display_players_by_index (players : list Player.t) :
  forallb is_console (display_players_by_index players).1 = true.
Proof. simpl. by apply console_imap. Qed.

(** The statements before the loop. *)
Lemma registration_entry_facts (self0 : TournamentController.t)
    (tournament0 : Tournament.t) :
  let '(ev, st) := registration_entry self0 tournament0 in
  forallb is_console ev = true
  /\ Tournament.players_list (tournament st) = []
  /\ selected_players st = Tournament.players_list tournament0
  /\ TournamentController.players_score (self st)
     = TournamentController.players_score self0.
Proof.
  unfold registration_entry.
  destruct (Tournament.players_list tournament0) as [|p l] eqn:Hl.
  - by repeat split.
  - cbn [fst snd]. split; [|by repeat split].
    rewrite console_app. apply andb_true_intro. split; [|done].
    apply (console_print_player (p :: l)).
Qed.

(** What a call of [add_players_to_tournament] does. *)
Lemma add_players_to_tournament_facts (self0 : TournamentController.t)
    (tournament0 : Tournament.t) (turns : list turn) (ev : list event)
    (st : registration) (res : registration_outcome) :
  add_players_to_tournament calculate_total_score self0 tournament0 turns
  = (ev, st, res) ->
  TournamentController.players_score (self st)
  = TournamentController.players_score self0
  /\ (exists added,
        selected_players st = Tournament.players_list tournament0 ++ added)
  /\ Forall (eq (previous_scores_of self0)) (previous_scores_passed ev)
  /\ ((Tournament.players_list (tournament st) = []
       /\ pairing_pools ev = [] /\ saved ev = []
       /\ (res = Waiting \/ res = Left Quit))
      \/ (valid_count (selected_players st)
          /\ Tournament.players_list (tournament st) = selected_players st
          /\ res <> Left Quit
          /\ Forall (eq (selected_players st)) (pairing_pools ev)
          /\ exists committed more,
               saved ev = committed :: more
               /\ Tournament.players_list committed = selected_players st)).
Proof.
  unfold add_players_to_tournament.
  pose proof (console_display_players_by_index
                (TournamentController.player_repository self0)) as Hlist.
  destruct (display_players_by_index _) as [ev_list sorted_players_list].
  pose proof (registration_entry_facts self0 tournament0) as Hentry.
  destruct (registration_entry self0 tournament0) as [ev_entry st0].
  destruct Hentry as (Hconsole & Hempty & Hsel & Hscore).
  destruct (registration_loop _ _ _ _) as [[ev_loop st1] res1] eqn:Hloop.
  intros [= <- <- <-]. cbn [fst] in Hlist.
  destruct (registration_loop_facts _ _ _ _ _ _ Hloop Hempty)
    as (Hsc & Hadded & Hprev & Hcase).
  rewrite !previous_scores_passed_app, !pairing_pools_app, !saved_app.
  rewrite (previous_scores_passed_console ev_list),
    (previous_scores_passed_console ev_entry), (pairing_pools_console ev_list),
    (pairing_pools_console ev_entry), (saved_console ev_list),
    (saved_console ev_entry) by done.
  cbn [app]. split; [congruence|]. split; [by rewrite <- Hsel|].
  split; [|done]. by rewrite <- (previous_scores_of_ext (self st0) self0).
Qed.

Lemma choice_3 (t : turn) :
  user_choice t = "3" ->
  String.eqb (user_choice t) "1" = false
  /\ String.eqb (user_choice t) "2" = false
  /\ String.eqb (user_choice t) "3" = true.
Proof. by intros ->. Qed.

(** C6: [add_players_to_tournament] writes the selection to
    [tournament.players_list], saves it and lets play begin only under
    choice 3 with an even number of at least 6 selected players; with any
    other number, choice 3 prints the reason, changes nothing and the loop
    goes on with the next choice; pairing is only ever run on a pool that
    passed the test. *)
Theorem add_players_commits_valid_count_only (self0 : TournamentController.t)
    (tournament0 : Tournament.t) (turns : list turn) (ev : list event)
    (st : registration) (res : registration_outcome) :
  add_players_to_tournament calculate_total_score self0 tournament0 turns
  = (ev, st, res) ->
  ((Tournament.players_list (tournament st) = []
    /\ pairing_pools ev = [] /\ saved ev = [] /\ res <> Left Confirmed)
   \/ (valid_count (selected_players st)
       /\ Tournament.players_list (tournament st) = selected_players st
       /\ exists committed more,
            saved ev = committed :: more
            /\ Tournament.players_list committed = selected_players st))
  /\ Forall valid_count (pairing_pools ev)
  /\ (forall (sorted_players_list : list Player.t) (st0 : registration)
             (t : turn) (rest : list turn),
        user_choice t = "3" ->
        ~ valid_count (selected_players st0) ->
        let refusal :=
          [DisplayAddPlayerMenu (TournamentController.num_players (self st0));
           Print ("Le nombre d'inscrits doit être pair "
                  +:+ "et au moins égal à 6.")] in
        registration_turn calculate_total_score sorted_players_list st0 t
        = (refusal, st0, Again)
        /\ registration_loop calculate_total_score sorted_players_list st0
                             (t :: rest)
           = let '(ev', st', res') :=
               registration_loop calculate_total_score sorted_players_list
                                 st0 rest in
             (refusal ++ ev', st', res'))
  /\ (forall (sorted_players_list : list Player.t) (st0 : registration)
             (t : turn),
        user_choice t = "3" ->
        valid_count (selected_players st0) ->
        exists ev' st' fl,
          registration_turn calculate_total_score sorted_players_list st0 t
          = (ev', st', fl)
          /\ fl <> Again
          /\ Tournament.players_list (tournament st')
             = Tournament.players_list (tournament st0) ++ selected_players st0
          /\ exists committed more,
               saved ev' = committed :: more
               /\ Tournament.players_list committed
                  = Tournament.players_list (tournament st0)
                    ++ selected_players st0).
Proof.
  intros Hrun.
  destruct (add_players_to_tournament_facts _ _ _ _ _ _ Hrun)
    as (_ & _ & _ & Hcase).
  split; [|split; [|split]].
  - destruct Hcase as [(He & Hp & Hs & Hres)|(Hv & Hpl & _ & _ & Hsaved)].
    + left. repeat split; try done. by destruct Hres as [->| ->].
    + right. done.
  - destruct Hcase as [(_ & -> & _)|(Hv & _ & _ & Hpools & _)];
      [constructor|].
    eapply Forall_impl; [exact Hpools|]. by intros pool <-.
  - intros sorted_players_list st0 t rest Hchoice Hinvalid refusal.
    assert (Hturn : registration_turn calculate_total_score
                      sorted_players_list st0 t = (refusal, st0, Again)).
    { unfold registration_turn.
      destruct (choice_3 t Hchoice) as (-> & -> & ->).
      destruct (_ && _) eqn:Hcount; [|done].
      zbool. by destruct Hinvalid. }
    split; [done|]. cbn [registration_loop]. by rewrite Hturn.
  - intros sorted_players_list st0 t Hchoice [Hsix Heven].
    unfold registration_turn.
    destruct (choice_3 t Hchoice) as (-> & -> & ->).
    destruct (_ && _) eqn:Hcount.
    2:{ zbool; lia. }
    destruct (answer t).
    + destruct (play_tournament _ _ _ _) as [[ev1 t1] res1] eqn:Hplay.
      destruct (play_tournament_facts _ _ _ _ _ _ _ Hplay)
        as (_ & Hpl & _).
      eexists _, _, _. split; [reflexivity|].
      split; [by destruct res1|]. split; [exact Hpl|].
      eexists _, _. split; [reflexivity|]. done.
    + eexists _, _, _. split; [reflexivity|]. split; [done|].
      split; [done|]. eexists _, _. split; [reflexivity|]. done.
Qed.

(** C7: under choice 1, selecting a player whose first name and last name
    are those of a player already selected prints the message and nothing
    else happens: [selected_players], [selected_players_index],
    [self.num_players] and the tournament are unchanged, and the loop goes
    on with the next choice. *)
Theorem duplicate_selection_rejected (sorted_players_list : list Player.t)
    (st : registration) (t : turn) (rest : list turn) (ev_sel : list event)
    (selected_player : Player.t) (index : Z) :
  user_choice t = "1" ->
  get_selected_player sorted_players_list (index_inputs t)
  = (ev_sel, Some (selected_player, index)) ->
  (exists player : Player.t,
     player ∈ selected_players st
     /\ Player.firstname player = Player.firstname selected_player
     /\ Player.lastname player = Player.lastname selected_player) ->
  let rejection :=
    [DisplayAddPlayerMenu (TournamentController.num_players (self st))]
    ++ ev_sel ++ [Print "Ce joueur est déjà ajouté au tournoi."] in
  registration_turn calculate_total_score sorted_players_list st t
  = (rejection, st, Again)
  /\ registration_loop calculate_total_score sorted_players_list st (t :: rest)
     = let '(ev', st', res') :=
         registration_loop calculate_total_score sorted_players_list st rest in
       (rejection ++ ev', st', res').
Proof.
  intros Hchoice Hsel (player & Hin & Hfirst & Hlast) rejection.
  assert (Hturn : registration_turn calculate_total_score sorted_players_list
                    st t = (rejection, st, Again)).
  { unfold registration_turn. rewrite Hchoice, Hsel. cbn [String.eqb Ascii.eqb].
    simpl.
    assert (Hdup : existsb (fun player => same_name player selected_player)
                           (selected_players st) = true).
    { apply existsb_exists. exists player. split; [by apply list_elem_of_In|].
      unfold same_name. rewrite Hfirst, Hlast, !String.eqb_refl. done. }
    by rewrite Hdup. }
  split; [done|]. cbn [registration_loop]. by rewrite Hturn.
Qed.

Lemma reachable_players_score (self0 : TournamentController.t) :
  reachable calculate_total_score self0 ->
  TournamentController.players_score self0 = None.
Proof.
  induction 1 as [repo|self0 tournament0 turns Hreach IH]; [done|].
  destruct (add_players_to_tournament _ _ _ _) as [[ev st] res] eqn:Hrun.
  destruct (add_players_to_tournament_facts _ _ _ _ _ _ Hrun) as (Hsc & _).
  cbn [fst snd]. congruence.
Qed.

(** C9: no method assigns [players_score] on the controller, so on any
    controller the program can hold the attribute test of [play_tournament]
    fails and every call of [calculate_leaderboard], from the round loop
    entered directly or through the registration loop, receives the empty
    dictionary as [previous_scores]. *)
Theorem previous_scores_always_empty (self0 : TournamentController.t) :
  reachable calculate_total_score self0 ->
  TournamentController.players_score self0 = None
  /\ (forall (tournament0 : Tournament.t) (script : list round_input)
             (ev : list event) (tournament' : Tournament.t) (res : outcome),
        play_tournament calculate_total_score self0 tournament0 script
        = (ev, tournament', res) ->
        Forall (eq ∅) (previous_scores_passed ev))
  /\ (forall (tournament0 : Tournament.t) (turns : list turn)
             (ev : list event) (st : registration)
             (res : registration_outcome),
        add_players_to_tournament calculate_total_score self0 tournament0 turns
        = (ev, st, res) ->
        Forall (eq ∅) (previous_scores_passed ev)
        /\ TournamentController.players_score (self st) = None).
Proof.
  intros Hreach. pose proof (reachable_players_score _ Hreach) as Hnone.
  assert (Hprev : previous_scores_of self0 = ∅).
  { unfold previous_scores_of. by rewrite Hnone. }
  split; [done|]. split.
  - intros tournament0 script ev tournament' res Hrun.
    destruct (play_tournament_facts _ _ _ _ _ _ _ Hrun)
      as (_ & _ & _ & _ & _ & _ & Hpassed & _).
    by rewrite Hprev in Hpassed.
  - intros tournament0 turns ev st res Hrun.
    destruct (add_players_to_tournament_facts _ _ _ _ _ _ Hrun)
      as (Hsc & _ & Hpassed & _).
    rewrite Hprev in Hpassed. split; [done|]. congruence.
Qed.

(** C10: when [add_players_to_tournament] is entered with players already in
    [tournament.players_list] and left through choice q, the list is empty
    afterwards and nothing was saved: the registrations found at entry live
    on only in the local selection, which is dropped. *)
Theorem quit_leaves_players_list_empty (self0 : TournamentController.t)
    (tournament0 : Tournament.t) (turns : list turn) (ev : list event)
    (st : registration) :
  Tournament.players_list tournament0 <> [] ->
  add_players_to_tournament calculate_total_score self0 tournament0 turns
  = (ev, st, Left Quit) ->
  Tournament.players_list (tournament st) = []
  /\ Tournament.players_list (tournament st)
     <> Tournament.players_list tournament0
  /\ saved ev = []
  /\ exists added,
       selected_players st = Tournament.players_list tournament0 ++ added.
Proof.
  intros Hnonempty Hrun.
  destruct (add_players_to_tournament_facts _ _ _ _ _ _ Hrun)
    as (_ & Hadded & _ & [(Hempty & _ & Hsaved & _)|(_ & _ & Hres & _)]);
    [|done].
  split; [done|]. split; [by rewrite Hempty|]. done.
Qed.

End RegistrationProperties.

(** * Properties of the other functions *)

(** * Further properties *)

(** ** get_tournament_name_by_index *)

(** X1: [get_tournament_name_by_index] never raises: for an index from 1 to
    [len(tournaments)] it returns the name of the tournament at position
    [tournament_index - 1], counted from the start of the list, and for any
    other index, zero and the negative ones included, it returns [None]
    without reading the list. *)
Theorem get_tournament_name_by_index_bounds (tournaments : list Tournament.t)
    (tournament_index : Z) :
  (forall e, get_tournament_name_by_index tournaments tournament_index
             <> Error e)
  /\ (1 <= tournament_index <= len tournaments ->
      exists tournament,
        tournaments !! Z.to_nat (tournament_index - 1) = Some tournament
        /\ get_tournament_name_by_index tournaments tournament_index
           = Value (Some (Tournament.name tournament)))
  /\ (~ 1 <= tournament_index <= len tournaments ->
      get_tournament_name_by_index tournaments tournament_index = Value None).
Proof.
  unfold get_tournament_name_by_index.
  destruct (_ && _) eqn:Hrange.
  - zbool.
    destruct (py_index_in_range tournaments (tournament_index - 1))
      as [t Hidx]; [lia|].
    rewrite Hidx. apply py_index_Some in Hidx as [Hlookup _].
    split; [done|]. split; [eauto|]. intros Hout. lia.
  - split; [done|]. split; [|done]. intros Hin. zbool; lia.
Qed.

(** ** get_selected_player *)

Lemma get_selected_player_rejects (sorted_players : list Player.t)
    (index_input : string) (index_inputs : list string) :
  valid_index_input sorted_players index_input = false ->
  get_selected_player sorted_players (index_input :: index_inputs)
  = (rejected_line index_input
     ++ (get_selected_player sorted_players index_inputs).1,
     (get_selected_player sorted_players index_inputs).2).
Proof.
  unfold valid_index_input, rejected_line. intros Hvalid. simpl.
  destruct (isdigit index_input); simpl in Hvalid.
  - rewrite Hvalid.
    by destruct (get_selected_player sorted_players index_inputs).
  - by destruct (get_selected_player sorted_players index_inputs).
Qed.

Lemma get_selected_player_accepts (sorted_players : list Player.t)
    (index_input : string) (index_inputs : list string) :
  valid_index_input sorted_players index_input = true ->
  exists player,
    sorted_players !! Z.to_nat (int index_input - 1) = Some player
    /\ 1 <= int index_input <= len sorted_players
    /\ get_selected_player sorted_players (index_input :: index_inputs)
       = ([Input "Entrez l'index du joueur : "],
          Some (player, int index_input)).
Proof.
  unfold valid_index_input. intros Hvalid.
  apply andb_prop in Hvalid as [Hdigit Hrange]. simpl.
  rewrite Hdigit, Hrange. zbool. unfold len in *.
  destruct (lookup_lt_is_Some_2 sorted_players
              (Z.to_nat (int index_input - 1))) as [player Hplayer]; [lia|].
  exists player. rewrite Hplayer. split; [done|]. split; [lia|].
  by destruct player.
Qed.

(** X2: on lines of ASCII characters, at most 4300 each,
    [get_selected_player] returns on the first line it accepts, a line of
    digits whose number lies between 1 and [len(sorted_players)]: every
    line typed before it is answered with the prompt and one error message,
    the lines after it are not read, and the result is the player at position
    [index - 1] of the list together with the index. *)
Theorem get_selected_player_first_valid_line
    (sorted_players : list Player.t) (rejected : list string)
    (accepted : string) (rest : list string) :
  Forall (fun s => plain_line s = true) (rejected ++ [accepted]) ->
  Forall (fun s => valid_index_input sorted_players s = false) rejected ->
  valid_index_input sorted_players accepted = true ->
  exists player,
    sorted_players !! Z.to_nat (int accepted - 1) = Some player
    /\ 1 <= int accepted <= len sorted_players
    /\ get_selected_player sorted_players (rejected ++ accepted :: rest)
       = (concat (rejected_line <$> rejected)
          ++ [Input "Entrez l'index du joueur : "],
          Some (player, int accepted)).
Proof.
  intros _ Hrejected Haccepted.
  destruct (get_selected_player_accepts _ _ rest Haccepted)
    as (player & Hplayer & Hrange & Hget).
  exists player. split; [done|]. split; [done|].
  induction Hrejected as [|s rejected Hs _ IH]; [done|].
  rewrite <- app_comm_cons, get_selected_player_rejects by done.
  rewrite IH, fmap_cons, concat_cons. cbn [fst snd]. by rewrite app_assoc.
Qed.

Lemma get_selected_player_spec (sorted_players : list Player.t)
    (index_inputs : list string) :
  match (get_selected_player sorted_players index_inputs).2 with
  | Some (player, index) =>
    1 <= index <= len sorted_players
    /\ sorted_players !! Z.to_nat (index - 1) = Some player
    /\ exists rejected accepted rest,
         index_inputs = rejected ++ accepted :: rest
         /\ Forall (fun s => valid_index_input sorted_players s = false)
                   rejected
         /\ valid_index_input sorted_players accepted = true
         /\ index = int accepted
  | None =>
    Forall (fun s => valid_index_input sorted_players s = false) index_inputs
  end.
Proof.
  induction index_inputs as [|s index_inputs IH]; [by constructor|].
  destruct (valid_index_input sorted_players s) eqn:Hvalid.
  - destruct (get_selected_player_accepts _ _ index_inputs Hvalid)
      as (player & Hplayer & Hrange & ->).
    cbn [snd]. split; [done|]. split; [done|].
    exists [], s, index_inputs. by repeat split.
  - rewrite get_selected_player_rejects by done. cbn [snd].
    destruct (get_selected_player sorted_players index_inputs).2
      as [[player index]|].
    + destruct IH as (Hrange & Hplayer & rejected & accepted & rest
                      & -> & Hrej & Hacc & ->).
      split; [done|]. split; [done|].
      exists (s :: rejected), accepted, rest.
      split; [done|]. split; [by constructor|]. done.
    + by constructor.
Qed.

(** X3: whatever lines of ASCII characters, at most 4300 each, are typed,
    a pair [get_selected_player] returns holds an index between 1 and
    [len(sorted_players)] and the player displayed under it, the index is
    the number of the first accepted line, and while nothing has been
    returned every line read so far was rejected. *)
Theorem get_selected_player_result (sorted_players : list Player.t)
    (index_inputs : list string) :
  Forall (fun s => plain_line s = true) index_inputs ->
  match (get_selected_player sorted_players index_inputs).2 with
  | Some (player, index) =>
    1 <= index <= len sorted_players
    /\ sorted_players !! Z.to_nat (index - 1) = Some player
    /\ exists rejected accepted rest,
         index_inputs = rejected ++ accepted :: rest
         /\ Forall (fun s => valid_index_input sorted_players s = false)
                   rejected
         /\ valid_index_input sorted_players accepted = true
         /\ index = int accepted
  | None =>
    Forall (fun s => valid_index_input sorted_players s = false) index_inputs
  end.
Proof. intros _. apply get_selected_player_spec. Qed.

Lemma get_selected_player_no_players (index_inputs : list string) :
  get_selected_player [] index_inputs
  = (concat (rejected_line <$> index_inputs)
     ++ [Input "Entrez l'index du joueur : "], None).
Proof.
  induction index_inputs as [|s index_inputs IH]; [done|].
  assert (Hinvalid : valid_index_input [] s = false).
  { unfold valid_index_input, len. simpl.
    destruct (isdigit s); [|done]. simpl.
    destruct (1 <=? int s) eqn:H1; [|done]. simpl. apply Z.leb_gt.
    zbool. lia. }
  rewrite get_selected_player_rejects by done. rewrite IH. cbn [fst snd].
  by rewrite fmap_cons, concat_cons, app_assoc.
Qed.

Lemma console_rejected_lines (index_inputs : list string) :
  forallb is_console (concat (rejected_line <$> index_inputs)) = true.
Proof. by induction index_inputs. Qed.

(** X4: with an empty players file, choice 1 of
    [add_players_to_tournament] is not left by typing a line of ASCII
    characters, at most 4300 of them: [get_selected_player] accepts no such
    line, so after any number of them the method is still waiting at the
    index prompt, nothing has been saved and the tournament's own list stays
    emptied. *)
Theorem add_players_to_tournament_no_players_to_select
    (calculate_total_score : Player.t -> list Round.t -> gmap string Z -> Z)
    (self0 : TournamentController.t) (tournament0 : Tournament.t)
    (t : turn) (turns : list turn) :
  TournamentController.player_repository self0 = [] ->
  user_choice t = "1" ->
  Forall (fun s => plain_line s = true) (index_inputs t) ->
  exists ev st,
    add_players_to_tournament calculate_total_score self0 tournament0
                              (t :: turns)
    = (ev, st, Waiting)
    /\ saved ev = []
    /\ selected_players st = Tournament.players_list tournament0
    /\ Tournament.players_list (tournament st) = [].
Proof.
  intros Hrepo Hchoice _. unfold add_players_to_tournament.
  rewrite Hrepo. cbn [display_players_by_index
                       get_player_by_alphabetical_order py_sorted
                       stable_sort foldr imap].
  pose proof (registration_entry_facts self0 tournament0) as Hentry.
  destruct (registration_entry self0 tournament0) as [ev_entry st0].
  destruct Hentry as (Hconsole & Hempty & Hsel & _).
  cbn [registration_loop]. unfold registration_turn.
  rewrite Hchoice, get_selected_player_no_players.
  cbn [String.eqb Ascii.eqb Bool.eqb].
  eexists _, _. split; [reflexivity|].
  split; [|done].
  rewrite !saved_app, (saved_console ev_entry) by done.
  by rewrite (saved_console (concat _)) by apply console_rejected_lines.
Qed.

(** ** Indices as they are displayed and typed *)

Lemma pretty_N_char_digit (x : N) :
  (x < 10)%N ->
  is_digit_char (pretty_N_char x) = true
  /\ Z.of_nat (Ascii.nat_of_ascii (pretty_N_char x)) - 48 = Z.of_N x.
Proof.
  intros Hx.
  assert (Hcases : (x = 0 \/ x = 1 \/ x = 2 \/ x = 3 \/ x = 4 \/ x = 5
                    \/ x = 6 \/ x = 7 \/ x = 8 \/ x = 9)%N) by lia.
  repeat (destruct Hcases as [->|Hcases]; [by split|]). by subst.
Qed.

Lemma int_from_pretty_N_go (x : N) :
  forall s : string,
  int_from 0 (pretty_N_go x s) = int_from (Z.of_N x) s.
Proof.
  induction (N.lt_wf_0 x) as [x _ IH]. intros s.
  destruct (decide (x = 0)%N) as [->|Hx]; [by rewrite pretty_N_go_0|].
  rewrite pretty_N_go_step by lia.
  rewrite IH by (apply N.div_lt; lia). cbn [int_from].
  destruct (pretty_N_char_digit (x `mod` 10)) as [_ ->];
    [by apply N.mod_lt|].
  f_equal. rewrite N2Z.inj_mod, N2Z.inj_div.
  pose proof (Z.div_mod (Z.of_N x) 10). simpl Z.of_N. lia.
Qed.

Lemma isdigit_pretty_N_go (x : N) :
  forall s : string,
  s <> "" -> all_digits s = true -> isdigit (pretty_N_go x s) = true.
Proof.
  induction (N.lt_wf_0 x) as [x _ IH]. intros s Hs Hdigits.
  destruct (decide (x = 0)%N) as [->|Hx].
  - rewrite pretty_N_go_0. by destruct s.
  - rewrite pretty_N_go_step by lia.
    apply IH; [apply N.div_lt; lia|done|]. cbn [all_digits].
    destruct (pretty_N_char_digit (x `mod` 10)) as [-> _];
      [by apply N.mod_lt|done].
Qed.

(** A natural number written in decimal is read back by [isdigit] and
    [int]. *)
Lemma int_pretty (n : Z) :
  0 <= n -> isdigit (pretty n) = true /\ int (pretty n) = n.
Proof.
  intros Hn. destruct n as [|p|p]; [done| |lia].
  unfold pretty, pretty_Z, pretty, pretty_positive, pretty, pretty_N.
  destruct (decide (N.pos p = 0%N)) as [|_]; [done|]. split.
  - rewrite pretty_N_go_step by lia. apply isdigit_pretty_N_go; [done|].
    cbn [all_digits].
    destruct (pretty_N_char_digit (N.pos p `mod` 10)) as [-> _];
      [by apply N.mod_lt|done].
  - unfold int. by rewrite int_from_pretty_N_go.
Qed.

(** X5: the number [display_players_by_index] prints in front of a player
    is the one [get_selected_player] accepts for that player: line [i + 1]
    of the listing shows the player at position [i] of the returned list,
    and typing that number selects exactly this player. *)
Theorem displayed_index_selects_displayed_player
    (players : list Player.t) (i : nat) (player : Player.t)
    (rest : list string) :
  (display_players_by_index players).2 !! i = Some player ->
  (display_players_by_index players).1 !! S i
  = Some (Print (pretty (Z.of_nat i + 1) +:+ " - "
                 +:+ Player.lastname player +:+ " "
                 +:+ Player.firstname player))
  /\ get_selected_player (display_players_by_index players).2
                         (pretty (Z.of_nat i + 1) :: rest)
     = ([Input "Entrez l'index du joueur : "],
        Some (player, Z.of_nat i + 1)).
Proof.
  cbn [display_players_by_index fst snd]. intros Hplayer. split.
  - rewrite lookup_cons, list_lookup_imap, Hplayer. done.
  - pose proof (lookup_lt_Some _ _ _ Hplayer) as Hlt.
    destruct (int_pretty (Z.of_nat i + 1)) as [Hdigit Hint]; [lia|].
    destruct (get_selected_player_accepts
                (get_player_by_alphabetical_order players)
                (pretty (Z.of_nat i + 1)) rest)
      as (p & Hp & _ & Hget).
    { unfold valid_index_input, len. rewrite Hdigit, Hint. cbn [andb].
      apply andb_true_intro. split; [apply Z.leb_le|apply Z.leb_le]; lia. }
    rewrite Hget, Hint. rewrite Hint in Hp.
    replace (Z.to_nat (Z.of_nat i + 1 - 1)) with i in Hp by lia.
    congruence.
Qed.

(** ** The players file *)

Lemma string_leb_refl (a : string) : String.leb a a = true.
Proof. by destruct (String.leb_total a a). Qed.

Lemma string_leb_trans (a : string) :
  forall b c : string,
  String.leb a b = true -> String.leb b c = true -> String.leb a c = true.
Proof.
  unfold String.leb.
  induction a as [|x a IH]; intros [|y b] [|z c]; simpl; try done.
  unfold Ascii.compare.
  destruct (N.compare_spec (Ascii.N_of_ascii x) (Ascii.N_of_ascii y))
    as [Hxy|Hxy|Hxy];
    destruct (N.compare_spec (Ascii.N_of_ascii y) (Ascii.N_of_ascii z))
      as [Hyz|Hyz|Hyz];
    destruct (N.compare_spec (Ascii.N_of_ascii x) (Ascii.N_of_ascii z))
      as [Hxz|Hxz|Hxz];
    try done; try lia.
  apply IH.
Qed.

Lemma get_player_by_alphabetical_order_spec (players : list Player.t) :
  get_player_by_alphabetical_order players ≡ₚ players
  /\ StronglySorted
       (fun a b => String.leb (Player.lastname a) (Player.lastname b) = true)
       (get_player_by_alphabetical_order players)
  /\ forall lastname : string,
       filter (fun player => Player.lastname player = lastname)
              (get_player_by_alphabetical_order players)
       = filter (fun player => Player.lastname player = lastname) players.
Proof.
  unfold get_player_by_alphabetical_order, py_sorted.
  split; [apply stable_sort_Permutation|]. split.
  - apply stable_sort_sorted;
      [apply String.leb_total|intros a b c; apply string_leb_trans].
  - intros lastname. apply stable_sort_filter. apply string_leb_refl.
Qed.

(** X6: [get_player_by_alphabetical_order] returns the loaded players
    rearranged, in non-decreasing order of [lastname], and players that
    share a [lastname] keep the order they have in the file. *)
Theorem get_player_by_alphabetical_order_sorted (players : list Player.t) :
  get_player_by_alphabetical_order players ≡ₚ players
  /\ StronglySorted
       (fun a b => String.leb (Player.lastname a) (Player.lastname b) = true)
       (get_player_by_alphabetical_order players)
  /\ forall lastname : string,
       filter (fun player => Player.lastname player = lastname)
              (get_player_by_alphabetical_order players)
       = filter (fun player => Player.lastname player = lastname) players.
Proof. apply get_player_by_alphabetical_order_spec. Qed.

(** ** More on the round loop *)

Lemma py_index_None {B} (l : list B) (i : Z) :
  py_index l i = None <-> len l <= i \/ i < - len l.
Proof.
  unfold py_index, len.
  destruct (0 <=? i) eqn:Hi; destruct (_ && _) eqn:Hr; zbool;
    try (split; [lia|done]);
    (destruct (l !! _) eqn:Hl; simpl;
     [split; [done|lia]|apply lookup_ge_None in Hl; lia]).
Qed.

Section MorePlayProperties.
Variable calculate_total_score :
  Player.t -> list Round.t -> gmap string Z -> Z.

(** Once the first read of [tournament.rounds] has succeeded, no later one
    fails. *)
Lemma play_tournament_raises_at_entry (self : TournamentController.t)
    (script : list round_input) :
  forall (tournament : Tournament.t) (ev : list event)
         (tournament' : Tournament.t) (res : outcome),
  play_tournament calculate_total_score self tournament script
  = (ev, tournament', res) ->
  py_index (Tournament.rounds tournament)
           (Tournament.current_round tournament) <> None ->
  forall e, res <> Raised e.
Proof.
  induction script as [|inp script IH]; intros t ev t' res; simpl.
  - destruct (loop_guard t); [|by intros [= <- <- <-]].
    destruct (py_index _ _) as [[pos r]|]; [|done].
    by intros [= <- <- <-].
  - destruct (loop_guard t); [|by intros [= <- <- <-]].
    destruct (py_index _ _) as [[pos r]|] eqn:Hidx; [|done].
    destruct (play_round _ _ _ _ _ _) as [[ev1 t1] fl] eqn:Hround.
    pose proof (play_round_facts _ _ _ _ _ _ _ _ _ Hround)
      as (Hrounds & Hcr & _ & _ & _ & _ & _ & Hcont).
    destruct fl; [|by intros [= <- <- <-]].
    destruct (play_tournament _ _ t1 script) as [[ev2 t2] res2] eqn:Hrest.
    intros [= <- <- <-] _. apply (IH _ _ _ _ Hrest).
    destruct (Hcont eq_refl) as [Hne _].
    assert (Hsome : py_index (Tournament.rounds t)
                             (Tournament.current_round t) <> None)
      by by rewrite Hidx.
    rewrite py_index_None in Hsome. rewrite py_index_None.
    unfold len in *. rewrite Hrounds, length_insert, Hcr. lia.
Qed.

(** X8: what [play_tournament] does at entry is decided by its first read
    of [tournament.rounds[tournament.current_round]].  When [current_round]
    equals [len(rounds)] or lies below [-len(rounds)] the read raises
    [IndexError], before any output, pairing or save and with the
    tournament untouched; when [current_round] exceeds [len(rounds)] the
    loop is not entered and the call returns having done nothing; in
    between the read succeeds, for a negative [current_round] on the round
    counted from the end of the list, and the first pass prints the title of
    round [current_round + 1] and runs the pairing. *)
Theorem play_tournament_entry_cases (self : TournamentController.t)
    (tournament : Tournament.t) (script : list round_input) :
  let n := len (Tournament.rounds tournament) in
  let cr := Tournament.current_round tournament in
  let run := play_tournament calculate_total_score self tournament script in
  (cr = n \/ cr < - n -> run = ([], tournament, Raised IndexError))
  /\ (n < cr -> run = ([], tournament, Returned))
  /\ (- n <= cr < n ->
      exists (pos : nat) (r : Round.t),
        py_index (Tournament.rounds tournament) cr = Some (pos, r)
        /\ Tournament.rounds tournament !! pos = Some r
        /\ Z.of_nat pos = cr mod n
        /\ match script with
           | [] => run = ([], tournament, Pending)
           | _ :: _ =>
             head run.1.1
             = Some (Print (nl +:+ "Round " +:+ pretty (cr + 1) +:+ " :"))
             /\ head (paired_rounds run.1.1) = Some cr
           end).
Proof.
  intros n cr run. subst n cr run.
  split; [|split].
  - intros Hcr.
    assert (Hguard : loop_guard tournament = true).
    { unfold loop_guard, len in *. apply Z.leb_le. lia. }
    assert (Hidx : py_index (Tournament.rounds tournament)
                            (Tournament.current_round tournament) = None).
    { apply py_index_None. lia. }
    destruct script; simpl; by rewrite Hguard, Hidx.
  - intros Hcr.
    assert (Hguard : loop_guard tournament = false).
    { unfold loop_guard. apply Z.leb_gt. lia. }
    destruct script; simpl; by rewrite Hguard.
  - intros Hcr.
    assert (Hguard : loop_guard tournament = true).
    { unfold loop_guard. apply Z.leb_le. lia. }
    destruct (py_index (Tournament.rounds tournament)
                       (Tournament.current_round tournament))
      as [[pos r]|] eqn:Hidx; [|apply py_index_None in Hidx; lia].
    exists pos, r. split; [done|].
    assert (Hpos : Tournament.rounds tournament !! pos = Some r
                   /\ Z.of_nat pos
                      = Tournament.current_round tournament
                        `mod` len (Tournament.rounds tournament)).
    { revert Hidx. unfold py_index.
      destruct (0 <=? Tournament.current_round tournament) eqn:Hsign;
        (destruct (_ && _) eqn:Hr; [|done]);
        (destruct (_ !! _) as [r'|] eqn:Hl; [|done]);
        cbn; intros [= <- <-]; (split; [done|]); zbool.
      - rewrite Z.mod_small by lia. lia.
      - rewrite Z2Nat.id by lia. apply (Z.mod_unique_pos _ _ (-1)); lia. }
    destruct Hpos as [Hpos Hmod]. split; [done|]. split; [done|].
    destruct script as [|inp script]; simpl; rewrite Hguard, Hidx; [done|].
    destruct (play_round calculate_total_score self tournament pos r inp)
      as [[ev1 t1] fl] eqn:Hround.
    pose proof (play_round_facts _ _ _ _ _ _ _ _ _ Hround)
      as (_ & _ & _ & Hpaired & _).
    assert (Hhead : head ev1
                    = Some (Print (nl +:+ "Round "
                                   +:+ pretty
                                         (Tournament.current_round tournament
                                          + 1)
                                   +:+ " :"))).
    { rewrite play_round_eq in Hround. cbv zeta in Hround.
      pose proof (f_equal (fun x => x.1.1) Hround) as Hev.
      cbv beta in Hev. cbn [fst snd] in Hev. by rewrite <- Hev. }
    destruct fl.
    + destruct (play_tournament _ _ t1 script) as [[ev2 t2] res2].
      cbn [fst snd]. rewrite paired_rounds_app, Hpaired.
      split; [|done]. destruct ev1; [done|]. done.
    + cbn [fst snd]. by rewrite Hpaired.
Qed.

(** The round one pass of the loop body leaves behind, field by field: a
    timestamp that is set is kept, one that is not is read off the clock. *)
Lemma played_round_fields (inp : round_input) (r : Round.t) :
  played_round inp r
  = Round.mk (Round.name r) (paired inp)
             (Some (default (clock_start inp) (Round.start_time r)))
             (Some (default (clock_end inp) (Round.end_time r))).
Proof.
  unfold played_round, stamp_start, stamp_end.
  destruct r as [name matches [start|] [end_|]]; reflexivity.
Qed.

Lemma play_round_frame (self : TournamentController.t)
    (tournament : Tournament.t) (pos : nat) (r : Round.t) (inp : round_input)
    (ev : list event) (tournament' : Tournament.t) (fl : flow) :
  play_round calculate_total_score self tournament pos r inp
  = (ev, tournament', fl) ->
  Tournament.name tournament' = Tournament.name tournament
  /\ Tournament.place tournament' = Tournament.place tournament
  /\ Tournament.date_start tournament' = Tournament.date_start tournament
  /\ Tournament.date_end tournament' = Tournament.date_end tournament
  /\ Tournament.director_note tournament'
     = Tournament.director_note tournament.
Proof.
  rewrite play_round_eq. cbv zeta. intros H.
  pose proof (f_equal (fun x => x.1.2) H) as Ht.
  cbv beta in Ht. cbn [fst snd] in Ht. subst tournament'.
  by repeat split.
Qed.

Lemma play_tournament_frame (self : TournamentController.t)
    (script : list round_input) :
  forall (tournament : Tournament.t) (ev : list event)
         (tournament' : Tournament.t) (res : outcome),
  play_tournament calculate_total_score self tournament script
  = (ev, tournament', res) ->
  Tournament.name tournament' = Tournament.name tournament
  /\ Tournament.place tournament' = Tournament.place tournament
  /\ Tournament.date_start tournament' = Tournament.date_start tournament
  /\ Tournament.date_end tournament' = Tournament.date_end tournament
  /\ Tournament.director_note tournament'
     = Tournament.director_note tournament
  /\ Round.name <$> Tournament.rounds tournament'
     = Round.name <$> Tournament.rounds tournament.
Proof.
  induction script as [|inp script IH]; intros t ev t' res; simpl.
  - destruct (loop_guard t); [destruct (py_index _ _) as [[pos r]|]|];
      by intros [= <- <- <-].
  - destruct (loop_guard t); [|by intros [= <- <- <-]].
    destruct (py_index _ _) as [[pos r]|] eqn:Hidx;
      [|by intros [= <- <- <-]].
    destruct (play_round _ _ _ _ _ _) as [[ev1 t1] fl] eqn:Hround.
    pose proof (play_round_frame _ _ _ _ _ _ _ _ Hround)
      as (Hn & Hp & Hs & He & Hd).
    pose proof (play_round_facts _ _ _ _ _ _ _ _ _ Hround) as (Hrounds & _).
    assert (Hnames : Round.name <$> Tournament.rounds t1
                     = Round.name <$> Tournament.rounds t).
    { rewrite Hrounds, list_fmap_insert, played_round_fields.
      apply py_index_Some in Hidx as [Hpos _].
      apply list_insert_id. by rewrite list_lookup_fmap, Hpos. }
    destruct fl.
    + destruct (play_tournament _ _ t1 script) as [[ev2 t2] res2] eqn:Hrest.
      intros [= <- <- <-].
      destruct (IH _ _ _ _ Hrest) as (Hn2 & Hp2 & Hs2 & He2 & Hd2 & Hr2).
      repeat split; congruence.
    + intros [= <- <- <-]. by repeat split.
Qed.

(** The rounds a run leaves behind: those from the final [current_round]
    on are untouched, and the round at the k-th index played is the round
    found there as the k-th pass left it. *)
Lemma play_tournament_rounds (self : TournamentController.t)
    (script : list round_input) :
  forall (tournament : Tournament.t) (ev : list event)
         (tournament' : Tournament.t) (res : outcome),
  0 <= Tournament.current_round tournament ->
  play_tournament calculate_total_score self tournament script
  = (ev, tournament', res) ->
  (forall i : nat,
     Tournament.current_round tournament' <= Z.of_nat i ->
     Tournament.rounds tournament' !! i = Tournament.rounds tournament !! i)
  /\ (forall (i : nat) (r : Round.t),
        Tournament.current_round tournament <= Z.of_nat i
          < Tournament.current_round tournament' ->
        Tournament.rounds tournament !! i = Some r ->
        exists inp,
          script !! (i - Z.to_nat (Tournament.current_round tournament))%nat
          = Some inp
          /\ Tournament.rounds tournament' !! i = Some (played_round inp r)).
Proof.
  induction script as [|inp script IH]; intros t ev t' res Hcr; simpl.
  - destruct (loop_guard t); [destruct (py_index _ _) as [[pos r]|]|];
      intros [= <- <- <-]; (split; [done|]); intros i r0 Hi; lia.
  - destruct (loop_guard t);
      [|intros [= <- <- <-]; (split; [done|]); intros i r0 Hi; lia].
    destruct (py_index _ _) as [[pos r]|] eqn:Hidx;
      [|intros [= <- <- <-]; (split; [done|]); intros i r0 Hi; lia].
    apply py_index_Some in Hidx as [Hpos Hposcr]. specialize (Hposcr Hcr).
    destruct (play_round _ _ _ _ _ _) as [[ev1 t1] fl] eqn:Hround.
    pose proof (play_round_facts _ _ _ _ _ _ _ _ _ Hround)
      as (Hrounds & Hcr1 & _).
    pose proof (lookup_lt_Some _ _ _ Hpos) as Hlt.
    destruct fl.
    + destruct (play_tournament _ _ t1 script) as [[ev2 t2] res2] eqn:Hrest.
      intros [= <- <- <-].
      destruct (play_tournament_facts _ _ _ _ _ _ _ Hrest)
        as (_ & _ & Hle & Hbefore & _).
      assert (Hcr1' : 0 <= Tournament.current_round t1) by lia.
      destruct (IH _ _ _ _ Hcr1' Hrest) as (Hafter & Hplayed).
      split.
      * intros i Hi. rewrite Hafter by done. rewrite Hrounds.
        apply list_lookup_insert_ne. lia.
      * intros i r0 Hi Hr0.
        destruct (decide (i = pos)) as [->|Hne].
        -- exists inp. replace (pos - Z.to_nat _)%nat with 0%nat by lia.
           split; [done|]. rewrite Hbefore by lia.
           rewrite Hrounds, list_lookup_insert_eq by done. congruence.
        -- destruct (Hplayed i r0) as (inp' & Hinp' & Hres'); [lia| |].
           { rewrite Hrounds. by rewrite list_lookup_insert_ne. }
           exists inp'. split; [|done].
           replace (i - Z.to_nat (Tournament.current_round t))%nat
             with (S (i - Z.to_nat (Tournament.current_round t1)))%nat
             by lia.
           done.
    + intros [= <- <- <-]. split.
      * intros i Hi. rewrite Hrounds. apply list_lookup_insert_ne. lia.
      * intros i r0 Hi Hr0. assert (i = pos) as -> by lia.
        exists inp. replace (pos - Z.to_nat _)%nat with 0%nat by lia.
        split; [done|]. rewrite Hrounds, list_lookup_insert_eq by done.
        congruence.
Qed.






(** X10: a round that [play_tournament] has passed holds afterwards the
    matches paired for it, a [start_time] and an [end_time]: each time is
    the one the round already had, or else the clock reading taken in that
    round's iteration; the name is unchanged. *)
Theorem play_tournament_played_rounds (self : TournamentController.t)
    (tournament : Tournament.t) (script : list round_input)
    (ev : list event) (tournament' : Tournament.t) (res : outcome)
    (i : nat) (r : Round.t) :
  0 <= Tournament.current_round tournament ->
  play_tournament calculate_total_score self tournament script
  = (ev, tournament', res) ->
  Tournament.current_round tournament <= Z.of_nat i
    < Tournament.current_round tournament' ->
  Tournament.rounds tournament !! i = Some r ->
  exists inp,
    script !! (i - Z.to_nat (Tournament.current_round tournament))%nat
    = Some inp
    /\ Tournament.rounds tournament' !! i
       = Some (Round.mk (Round.name r) (paired inp)
                 (Some (default (clock_start inp) (Round.start_time r)))
                 (Some (default (clock_end inp) (Round.end_time r)))).
Proof.
  intros Hcr Hrun Hi Hr.
  destruct (play_tournament_rounds _ _ _ _ _ _ Hcr Hrun) as [_ Hplayed].
  destruct (Hplayed i r Hi Hr) as (inp & Hinp & Hres).
  exists inp. by rewrite <- played_round_fields.
Qed.

Lemma play_round_flow (self : TournamentController.t)
    (tournament : Tournament.t) (pos : nat) (r : Round.t) (inp : round_input)
    (ev : list event) (tournament' : Tournament.t) (fl : flow) :
  play_round calculate_total_score self tournament pos r inp
  = (ev, tournament', fl) ->
  fl = Break ->
  Tournament.current_round tournament
  = len (Tournament.rounds tournament) - 1
  \/ play_next inp = false.
Proof.
  rewrite play_round_eq. cbv zeta. intros H.
  pose proof (f_equal snd H) as Hfl. cbn [snd] in Hfl. subst fl.
  destruct (_ =? _) eqn:Hlast; [zbool; auto|].
  destruct (play_next inp); [done|auto].
Qed.

(** How many rounds a run plays. *)
Lemma play_tournament_count (self : TournamentController.t)
    (script : list round_input) :
  forall (tournament : Tournament.t) (ev : list event)
         (tournament' : Tournament.t) (res : outcome),
  0 <= Tournament.current_round tournament
    < len (Tournament.rounds tournament) ->
  play_tournament calculate_total_score self tournament script
  = (ev, tournament', res) ->
  let due :=
    Z.min (len (Tournament.rounds tournament)
           - Tournament.current_round tournament)
          (1 + Z.of_nat (leading_yes script)) in
  (res = Returned <-> due <= len script)
  /\ (res = Pending <-> len script < due)
  /\ Tournament.current_round tournament'
     - Tournament.current_round tournament
     = Z.min due (len script).
Proof.
  induction script as [|inp script IH]; intros t ev t' res Hrange;
    cbn [play_tournament].
  - assert (Hguard : loop_guard t = true).
    { unfold loop_guard. apply Z.leb_le. lia. }
    destruct (py_index_in_range _ _ Hrange) as [r Hidx].
    rewrite Hguard, Hidx. intros [= <- <- <-].
    change (len (@nil round_input)) with 0. cbn [leading_yes].
    split; [split; [done|lia]|]. split; [split; [lia|done]|]. lia.
  - assert (Hguard : loop_guard t = true).
    { unfold loop_guard. apply Z.leb_le. lia. }
    destruct (py_index_in_range _ _ Hrange) as [r Hidx].
    rewrite Hguard, Hidx.
    destruct (play_round _ _ _ _ _ _) as [[ev1 t1] fl] eqn:Hround.
    pose proof (play_round_facts _ _ _ _ _ _ _ _ _ Hround)
      as (Hrounds & Hcr & _ & _ & _ & _ & _ & Hcont).
    pose proof (play_round_flow _ _ _ _ _ _ _ _ Hround) as Hbreak.
    assert (Hlen1 : len (Tournament.rounds t1) = len (Tournament.rounds t)).
    { unfold len. by rewrite Hrounds, length_insert. }
    assert (Hlen : len (inp :: script) = 1 + len script).
    { unfold len. simpl. lia. }
    assert (Hnonneg : 0 <= len script) by (unfold len; lia).
    rewrite Hlen. clear Hlen. cbn [leading_yes].
    destruct fl.
    + destruct (play_tournament _ _ t1 script) as [[ev2 t2] res2] eqn:Hrest.
      intros [= <- <- <-]. destruct (Hcont eq_refl) as [Hne Hnext].
      rewrite Hnext.
      assert (Hrange1 : 0 <= Tournament.current_round t1
                             < len (Tournament.rounds t1)) by lia.
      destruct (IH _ _ _ _ Hrange1 Hrest) as (Hret & Hpend & Hcount).
      cbv zeta in Hret, Hpend, Hcount. rewrite Hlen1, Hcr in *.
      rewrite Nat2Z.inj_succ.
      split; [rewrite Hret; lia|]. split; [rewrite Hpend; lia|]. lia.
    + intros [= <- <- <-].
      destruct (Hbreak eq_refl) as [Hlast|Hno].
      * destruct (play_next inp);
          (split; [split; [lia|done]|]); (split; [split; [done|lia]|]); lia.
      * rewrite Hno.
        split; [split; [lia|done]|]. split; [split; [done|lia]|]. lia.
Qed.

(** X11: entered inside the range, [play_tournament] plays consecutive
    rounds starting at [current_round]; it stops after the last round or
    after the first round the user declines to follow, whichever comes
    first.  It returns exactly when the answers cover that many rounds, and
    [current_round] has then advanced by that number; pairing was run once
    for each round played, in order. *)
Theorem play_tournament_number_of_rounds (self : TournamentController.t)
    (tournament : Tournament.t) (script : list round_input)
    (ev : list event) (tournament' : Tournament.t) (res : outcome) :
  0 <= Tournament.current_round tournament
    < len (Tournament.rounds tournament) ->
  play_tournament calculate_total_score self tournament script
  = (ev, tournament', res) ->
  let due :=
    Z.min (len (Tournament.rounds tournament)
           - Tournament.current_round tournament)
          (1 + Z.of_nat (leading_yes script)) in
  (res = Returned <-> due <= len script)
  /\ (res = Pending <-> len script < due)
  /\ Tournament.current_round tournament'
     - Tournament.current_round tournament
     = Z.min due (len script)
  /\ paired_rounds ev
     = seqZ (Tournament.current_round tournament) (Z.min due (len script)).
Proof.
  intros Hrange Hrun due.
  destruct (play_tournament_count _ _ _ _ _ _ Hrange Hrun)
    as (Hret & Hpend & Hcount).
  destruct (play_tournament_facts _ _ _ _ _ _ _ Hrun)
    as (_ & _ & _ & _ & Hpaired & _).
  split; [done|]. split; [done|]. split; [done|].
  by rewrite Hpaired, Hcount.
Qed.

Lemma leading_yes_all (script : list round_input) :
  Forall (fun inp => play_next inp = true) script ->
  leading_yes script = length script.
Proof.
  induction 1 as [|inp script Hinp _ IH]; [done|].
  simpl. by rewrite Hinp, IH.
Qed.

Lemma play_tournament_at_len (self : TournamentController.t)
    (tournament : Tournament.t) (script : list round_input) :
  Tournament.current_round tournament = len (Tournament.rounds tournament) ->
  play_tournament calculate_total_score self tournament script
  = ([], tournament, Raised IndexError).
Proof.
  intros Hend.
  assert (Hguard : loop_guard tournament = true).
  { unfold loop_guard. apply Z.leb_le. lia. }
  destruct script; simpl; by rewrite Hguard, Hend, py_index_len.
Qed.

(** X12: a tournament played to its last round ends with [current_round]
    equal to [len(rounds)], and any further call of [play_tournament] on a
    tournament in that state raises [IndexError] at once. *)
Theorem play_tournament_to_the_end_then_again (self : TournamentController.t)
    (tournament : Tournament.t) (script : list round_input)
    (ev : list event) (tournament' : Tournament.t) (res : outcome) :
  0 <= Tournament.current_round tournament
    < len (Tournament.rounds tournament) ->
  play_tournament calculate_total_score self tournament script
  = (ev, tournament', res) ->
  (Forall (fun inp => play_next inp = true) script ->
   len (Tournament.rounds tournament)
   - Tournament.current_round tournament <= len script ->
   res = Returned
   /\ Tournament.current_round tournament'
      = len (Tournament.rounds tournament'))
  /\ (Tournament.current_round tournament'
      = len (Tournament.rounds tournament') ->
      forall (self' : TournamentController.t) (script' : list round_input),
        play_tournament calculate_total_score self' tournament' script'
        = ([], tournament', Raised IndexError)).
Proof.
  intros Hrange Hrun.
  destruct (play_tournament_count _ _ _ _ _ _ Hrange Hrun)
    as (Hret & _ & Hcount).
  destruct (play_tournament_facts _ _ _ _ _ _ _ Hrun) as (Hlen & _).
  cbv zeta in Hret, Hcount. split.
  - intros Hyes Hscript. rewrite (leading_yes_all _ Hyes) in Hret, Hcount.
    unfold len in *. rewrite Hlen. split; [apply Hret; lia|lia].
  - intros Hend self' script'. by apply play_tournament_at_len.
Qed.

End MorePlayProperties.

(** ** More on the leaderboard *)

Section MoreLeaderboardProperties.
Variable calculate_total_score :
  Player.t -> list Round.t -> gmap string Z -> Z.

(** X13: a value stored in [players_score] under a display name is the
    score of some registered player of that name, and it is the lowest
    score among the registered players of that name: of same-named players
    the one ranked last in the sorted leaderboard is written last. *)
Theorem calculate_leaderboard_namesakes_lowest_score
    (tournament : Tournament.t) (previous_scores : gmap string Z)
    (name : string) (s : Z) :
  Tournament.players_score
    (calculate_leaderboard calculate_total_score tournament
                           previous_scores).2 !! name = Some s ->
  (exists player,
     player ∈ Tournament.players_list tournament
     /\ full_name player = name
     /\ total_score calculate_total_score tournament previous_scores player
        = s)
  /\ (forall player,
        player ∈ Tournament.players_list tournament ->
        full_name player = name ->
        s <= total_score calculate_total_score tournament previous_scores
                         player).
Proof.
  cbn [calculate_leaderboard snd Tournament.players_score
       Tournament.set_players_score].
  unfold leaderboard_scores. rewrite py_dict_lookup.
  set (board := sorted_leaderboard calculate_total_score tournament
                                   previous_scores).
  assert (Hfilter :
    filter (fun kv : string * Z => kv.1 = name)
           (map (fun x : Player.t * Z => (full_name x.1, x.2)) board)
    = (fun x : Player.t * Z => (full_name x.1, x.2))
      <$> filter (fun x : Player.t * Z => full_name x.1 = name) board).
  { induction board as [|x l IH]; [done|].
    rewrite map_cons, !filter_cons. cbn [fst].
    destruct (decide (full_name x.1 = name)); [rewrite fmap_cons|];
      by rewrite IH. }
  rewrite Hfilter, fmap_last.
  destruct (last (filter (fun x : Player.t * Z => full_name x.1 = name)
                         board)) as [[q sq]|] eqn:Hlast; [|done].
  cbn. intros [= ->].
  assert (Hsorted : StronglySorted (fun a b : Player.t * Z => b.2 <= a.2)
                      (filter (fun x : Player.t * Z => full_name x.1 = name)
                              board)).
  { apply StronglySorted_filter_keeps.
    apply (py_sorted_reverse_spec snd
             (leaderboard calculate_total_score tournament previous_scores)). }
  split.
  - apply last_Some_elem_of in Hlast.
    apply list_elem_of_filter in Hlast as [Hname Hq].
    apply sorted_leaderboard_entry in Hq as [Hq Hs]. by exists q.
  - intros player Hin Hname.
    assert (Hentry : (player, total_score calculate_total_score tournament
                                          previous_scores player)
                     ∈ filter (fun x : Player.t * Z => full_name x.1 = name)
                              board).
    { apply list_elem_of_filter. split; [done|].
      by apply sorted_leaderboard_entry. }
    destruct (StronglySorted_last_least _ _ _ Hsorted Hlast _ Hentry)
      as [[= _ ->]|Hle]; [lia|done].
Qed.

End MoreLeaderboardProperties.

(** ** More on the registration loop *)

Lemma same_name_pair (a b : Player.t) :
  same_name a b = true <-> name_pair a = name_pair b.
Proof.
  unfold same_name, name_pair. rewrite andb_true_iff, !String.eqb_eq.
  split; [by intros [-> ->]|by intros [= -> ->]].
Qed.

Section MoreRegistrationProperties.
Variable calculate_total_score :
  Player.t -> list Round.t -> gmap string Z -> Z.

(** What one pass of the registration loop does to the selection and to the
    counter. *)
Lemma registration_turn_selection (sorted_players_list : list Player.t)
    (st : registration) (t : turn) (ev : list event) (st' : registration)
    (fl : turn_flow) :
  registration_turn calculate_total_score sorted_players_list st t
  = (ev, st', fl) ->
  (selected_players st' = selected_players st
   /\ TournamentController.num_players (self st')
      = TournamentController.num_players (self st))
  \/ (exists player,
        selected_players st' = selected_players st ++ [player]
        /\ TournamentController.num_players (self st')
           = TournamentController.num_players (self st) + 1
        /\ ((user_choice t = "1"
             /\ (name_pair player ∉ name_pair <$> selected_players st)
             /\ player ∈ sorted_players_list)
            \/ (user_choice t = "2" /\ new_player t = Some player))).
Proof.
  unfold registration_turn.
  destruct (String.eqb (user_choice t) "1") eqn:H1.
  { apply String.eqb_eq in H1.
    pose proof (get_selected_player_spec sorted_players_list
                  (index_inputs t)) as Hres.
    destruct (get_selected_player _ _) as [ev_sel [[p idx]|]];
      cbn [snd] in Hres; [|intros [= <- <- <-]; by left].
    destruct (existsb _ _) eqn:Hdup; intros [= <- <- <-]; [by left|].
    right. exists p. split; [done|]. split; [done|]. left.
    split; [done|]. split.
    - intros (q & Hq & Hin)%list_elem_of_fmap.
      assert (Hex : existsb (fun player => same_name player p)
                            (selected_players st) = true); [|congruence].
      apply existsb_exists. exists q. split; [by apply list_elem_of_In|].
      by apply same_name_pair.
    - destruct Hres as (_ & Hp & _). by eapply list_elem_of_lookup_2. }
  destruct (String.eqb (user_choice t) "2") eqn:H2.
  { apply String.eqb_eq in H2.
    destruct (new_player t) as [p|] eqn:Hp; intros [= <- <- <-];
      [|by left].
    right. exists p. split; [done|]. split; [done|]. by right. }
  destruct (String.eqb (user_choice t) "3").
  { destruct (_ && _); [|intros [= <- <- <-]; by left].
    destruct (answer t);
      [destruct (play_tournament _ _ _ _) as [[ev' t'] res]|];
      intros [= <- <- <-]; by left. }
  destruct (String.eqb (user_choice t) "q");
    [destruct (answer t)|]; intros [= <- <- <-]; by left.
Qed.

(** What a run of the registration loop does to the selection and to the
    counter. *)
Lemma registration_loop_selection (sorted_players_list : list Player.t)
    (turns : list turn) :
  forall (st : registration) (ev : list event) (st' : registration)
         (res : registration_outcome),
  registration_loop calculate_total_score sorted_players_list st turns
  = (ev, st', res) ->
  TournamentController.num_players (self st') - len (selected_players st')
  = TournamentController.num_players (self st) - len (selected_players st)
  /\ (forall player,
        player ∈ selected_players st' ->
        player ∈ selected_players st
        \/ player ∈ sorted_players_list
        \/ exists t, t ∈ turns /\ user_choice t = "2"
                     /\ new_player t = Some player)
  /\ (NoDup (name_pair <$> selected_players st) ->
      Forall (fun t => user_choice t = "2" -> new_player t = None) turns ->
      NoDup (name_pair <$> selected_players st')).
Proof.
  induction turns as [|t turns IH]; intros st ev st' res; simpl.
  - intros [= <- <- <-]. by repeat split; auto.
  - destruct (registration_turn _ _ _ _) as [[ev1 st1] fl] eqn:Hturn.
    intros Hrun.
    assert (Hstep :
      TournamentController.num_players (self st1) - len (selected_players st1)
      = TournamentController.num_players (self st) - len (selected_players st)
      /\ (forall player,
            player ∈ selected_players st1 ->
            player ∈ selected_players st
            \/ player ∈ sorted_players_list
            \/ (user_choice t = "2" /\ new_player t = Some player))
      /\ (NoDup (name_pair <$> selected_players st) ->
          (user_choice t = "2" -> new_player t = None) ->
          NoDup (name_pair <$> selected_players st1))).
    { destruct (registration_turn_selection _ _ _ _ _ _ Hturn)
        as [[-> ->]|(p & -> & -> & Hfrom)].
      - by repeat split; auto.
      - unfold len. rewrite length_app. simpl.
        split; [lia|]. split.
        + intros player [Hin|Hin]%elem_of_app; [auto|].
          apply list_elem_of_singleton in Hin as ->.
          destruct Hfrom as [(_ & _ & Hp)|Hcreated]; auto.
        + intros Hnodup Hnocreate. rewrite fmap_app. simpl.
          destruct Hfrom as [(_ & Hfresh & _)|[Hchoice Hcreated]].
          * apply NoDup_app. split; [done|]. split; [|apply NoDup_singleton].
            intros x Hx Hx'. apply list_elem_of_singleton in Hx' as ->. done.
          * rewrite (Hnocreate Hchoice) in Hcreated. done. }
    destruct Hstep as (Hnum & Hfrom & Hnodup).
    assert (Hdone : fl <> Again -> ev = ev1 /\ st' = st1).
    { destruct fl; [done|..]; intros _; by injection Hrun as <- <- <-. }
    destruct fl; try (destruct (Hdone ltac:(done)) as [-> ->];
      split; [done|]; split;
      [intros player Hin; destruct (Hfrom player Hin)
         as [?|[?|[? ?]]]; [auto|auto|];
       right; right; exists t; split; [apply list_elem_of_here|done]
      |intros Hnd Hall; apply Hnodup; [done|];
       by apply Forall_cons_1 in Hall as [? _]]).
    destruct (registration_loop _ _ st1 turns) as [[ev2 st2] res2] eqn:Hrest.
    injection Hrun as <- <- <-.
    destruct (IH _ _ _ _ Hrest) as (Hnum2 & Hfrom2 & Hnodup2).
    split; [lia|]. split.
    + intros player Hin.
      destruct (Hfrom2 player Hin) as [Hin1|[?|(t' & Ht' & Hc & Hn)]];
        [|auto|].
      * destruct (Hfrom player Hin1) as [?|[?|[? ?]]]; [auto|auto|].
        right; right. exists t. split; [apply list_elem_of_here|done].
      * right; right. exists t'. split; [by apply list_elem_of_further|done].
    + intros Hnd Hall. apply Forall_cons_1 in Hall as [Ht Hall].
      apply Hnodup2; [|done]. by apply Hnodup.
Qed.

Lemma registration_entry_counter (self0 : TournamentController.t)
    (tournament0 : Tournament.t) :
  TournamentController.num_players (self (registration_entry self0
                                                             tournament0).2)
  = TournamentController.num_players self0
    + len (Tournament.players_list tournament0)
  /\ selected_players (registration_entry self0 tournament0).2
     = Tournament.players_list tournament0.
Proof.
  unfold registration_entry.
  by destruct (Tournament.players_list tournament0).
Qed.

Lemma add_players_to_tournament_selection (self0 : TournamentController.t)
    (tournament0 : Tournament.t) (turns : list turn) (ev : list event)
    (st : registration) (res : registration_outcome) :
  add_players_to_tournament calculate_total_score self0 tournament0 turns
  = (ev, st, res) ->
  TournamentController.num_players (self st)
  = TournamentController.num_players self0 + len (selected_players st)
  /\ (forall player,
        player ∈ selected_players st ->
        player ∈ Tournament.players_list tournament0
        \/ player ∈ TournamentController.player_repository self0
        \/ exists t, t ∈ turns /\ user_choice t = "2"
                     /\ new_player t = Some player)
  /\ (NoDup (name_pair <$> Tournament.players_list tournament0) ->
      Forall (fun t => user_choice t = "2" -> new_player t = None) turns ->
      NoDup (name_pair <$> selected_players st)).
Proof.
  unfold add_players_to_tournament.
  destruct (display_players_by_index _) as [ev_list sorted] eqn:Hdisplay.
  assert (Hsorted : sorted ≡ₚ TournamentController.player_repository self0).
  { injection Hdisplay as _ <-.
    apply (get_player_by_alphabetical_order_spec
             (TournamentController.player_repository self0)). }
  destruct (registration_entry_counter self0 tournament0) as [Hnum Hsel].
  destruct (registration_entry self0 tournament0) as [ev_entry st0].
  cbn [snd] in Hnum, Hsel.
  destruct (registration_loop _ _ _ _) as [[ev_loop st1] res1] eqn:Hloop.
  intros [= <- <- <-].
  destruct (registration_loop_selection _ _ _ _ _ _ Hloop)
    as (Hnum1 & Hfrom & Hnodup).
  rewrite Hsel in *. split; [lia|]. split; [|done].
  intros player Hin. destruct (Hfrom player Hin) as [?|[Hs|?]]; auto.
  right; left. by rewrite <- Hsorted.
Qed.

(** X14: at any point of [add_players_to_tournament], [self.num_players]
    is its value at entry plus the number of players selected so far, those
    already registered in the tournament included; it equals the number of
    selected players only if the counter was 0 at entry. *)
Theorem add_players_to_tournament_counter (self0 : TournamentController.t)
    (tournament0 : Tournament.t) (turns : list turn) (ev : list event)
    (st : registration) (res : registration_outcome) :
  add_players_to_tournament calculate_total_score self0 tournament0 turns
  = (ev, st, res) ->
  TournamentController.num_players (self st)
  = TournamentController.num_players self0 + len (selected_players st)
  /\ (TournamentController.num_players (self st) = len (selected_players st)
      <-> TournamentController.num_players self0 = 0).
Proof.
  intros Hrun.
  destruct (add_players_to_tournament_selection _ _ _ _ _ _ Hrun)
    as (Hnum & _).
  split; [done|lia].
Qed.

(** X15: when no new player is created under choice 2, the duplicate
    test of choice 1 keeps the selection free of repeated (first name, last
    name) pairs, provided the players already registered were so; the list
    committed on confirmation is then free of them too. *)
Theorem add_players_to_tournament_distinct_names
    (self0 : TournamentController.t) (tournament0 : Tournament.t)
    (turns : list turn) (ev : list event) (st : registration)
    (res : registration_outcome) :
  NoDup (name_pair <$> Tournament.players_list tournament0) ->
  Forall (fun t => user_choice t = "2" -> new_player t = None) turns ->
  add_players_to_tournament calculate_total_score self0 tournament0 turns
  = (ev, st, res) ->
  NoDup (name_pair <$> selected_players st)
  /\ (res = Left Confirmed ->
      NoDup (name_pair <$> Tournament.players_list (tournament st))).
Proof.
  intros Hnodup Hnocreate Hrun.
  destruct (add_players_to_tournament_selection _ _ _ _ _ _ Hrun)
    as (_ & _ & Hkeep).
  specialize (Hkeep Hnodup Hnocreate). split; [done|].
  intros ->.
  destruct (add_players_to_tournament_facts _ _ _ _ _ _ _ Hrun)
    as (_ & _ & _ & [(_ & _ & _ & [Hres|Hres])|(_ & -> & _)]); done.
Qed.

(** X16: the players list committed by [add_players_to_tournament] starts
    with the players registered at entry, in order, and everyone in it was
    registered at entry, comes from the players file, or was created under
    choice 2 during this call. *)
Theorem add_players_to_tournament_confirmed_list
    (self0 : TournamentController.t) (tournament0 : Tournament.t)
    (turns : list turn) (ev : list event) (st : registration) :
  add_players_to_tournament calculate_total_score self0 tournament0 turns
  = (ev, st, Left Confirmed) ->
  (exists added,
     Tournament.players_list (tournament st)
     = Tournament.players_list tournament0 ++ added)
  /\ (forall player,
        player ∈ Tournament.players_list (tournament st) ->
        player ∈ Tournament.players_list tournament0
        \/ player ∈ TournamentController.player_repository self0
        \/ exists t, t ∈ turns /\ user_choice t = "2"
                     /\ new_player t = Some player).
Proof.
  intros Hrun.
  destruct (add_players_to_tournament_selection _ _ _ _ _ _ Hrun)
    as (_ & Hfrom & _).
  destruct (add_players_to_tournament_facts _ _ _ _ _ _ _ Hrun)
    as (_ & Hadded & _ & [(_ & _ & _ & [Hres|Hres])|(_ & -> & _)]); done.
Qed.

(** The registration loop on a tournament whose [current_round] is
    [len(rounds)]. *)
Lemma registration_loop_at_len (sorted_players_list : list Player.t)
    (turns : list turn) :
  forall (st : registration) (ev : list event) (st' : registration)
         (res : registration_outcome),
  Tournament.current_round (tournament st)
  = len (Tournament.rounds (tournament st)) ->
  registration_loop calculate_total_score sorted_players_list st turns
  = (ev, st', res) ->
  pairing_pools ev = []
  /\ previous_scores_passed ev = []
  /\ (saved ev = [] /\ (res = Waiting \/ res = Left Quit)
      \/ saved ev = [tournament st']
         /\ Tournament.players_list (tournament st')
            = Tournament.players_list (tournament st) ++ selected_players st'
         /\ (res = Left Confirmed \/ res = Failed IndexError)).
Proof.
  induction turns as [|t turns IH]; intros st ev st' res Hend; simpl.
  - intros [= <- <- <-]. split; [done|]. split; [done|]. left. auto.
  - destruct (registration_turn _ _ _ _) as [[ev1 st1] fl] eqn:Hturn.
    intros Hrun.
    destruct (registration_turn_cases _ _ _ _ _ _ _ Hturn)
      as [(Hconsole & Ht & _ & _ & Hfl)
         |(_ & Hsel & _ & ev' & res' & Hev & Hplay & Hfl)].
    + destruct Hfl as [->|[->|[-> ->]]].
      * destruct (registration_loop _ _ st1 turns) as [[ev2 st2] res2]
          eqn:Hrest.
        injection Hrun as <- <- <-.
        rewrite <- Ht in Hend. destruct (IH _ _ _ _ Hend Hrest)
          as (Hpools & Hprev & Hcase).
        rewrite pairing_pools_app, previous_scores_passed_app, saved_app.
        rewrite pairing_pools_console, previous_scores_passed_console,
          saved_console by done.
        by rewrite <- Ht.
      * injection Hrun as <- <- <-.
        rewrite pairing_pools_console, previous_scores_passed_console,
          saved_console by done.
        split; [done|]. split; [done|]. left. auto.
      * injection Hrun as <- <- <-.
        rewrite pairing_pools_console, previous_scores_passed_console,
          saved_console by done.
        split; [done|]. split; [done|]. left. auto.
    + cbv zeta in Hev, Hplay.
      assert (Hresult : ev' = []
                /\ tournament st1
                   = Tournament.set_players_list
                       (Tournament.players_list (tournament st)
                        ++ selected_players st) (tournament st)
                /\ (fl = Leave Confirmed \/ fl = Fail IndexError)).
      { destruct (answer t).
        - rewrite play_tournament_at_len in Hplay by done.
          injection Hplay as <- <- <-. subst fl. auto.
        - destruct Hplay as (-> & -> & ->). subst fl. auto. }
      destruct Hresult as (-> & Hst1 & Hfl').
      assert (Hout : ev = ev1 /\ st' = st1
                     /\ (res = Left Confirmed \/ res = Failed IndexError)).
      { destruct Hfl' as [-> | ->]; injection Hrun as <- <- <-; auto. }
      destruct Hout as (-> & -> & Hres).
      rewrite Hev, app_nil_r. split; [done|]. split; [done|]. right.
      split; [by rewrite Hst1|]. split; [|done].
      rewrite Hst1. simpl. by rewrite Hsel.
Qed.

Lemma registration_entry_tournament (self0 : TournamentController.t)
    (tournament0 : Tournament.t) :
  tournament (registration_entry self0 tournament0).2
  = Tournament.set_players_list [] tournament0.
Proof.
  unfold registration_entry.
  destruct tournament0 as [n p ds de dn rs cr pl ps]. by destruct pl.
Qed.

Lemma add_players_to_tournament_at_len (self0 : TournamentController.t)
    (tournament0 : Tournament.t) (turns : list turn) (ev : list event)
    (st : registration) (res : registration_outcome) :
  Tournament.current_round tournament0
  = len (Tournament.rounds tournament0) ->
  add_players_to_tournament calculate_total_score self0 tournament0 turns
  = (ev, st, res) ->
  pairing_pools ev = []
  /\ previous_scores_passed ev = []
  /\ (saved ev = [] /\ (res = Waiting \/ res = Left Quit)
      \/ saved ev = [tournament st]
         /\ Tournament.players_list (tournament st) = selected_players st
         /\ (res = Left Confirmed \/ res = Failed IndexError)).
Proof.
  intros Hend. unfold add_players_to_tournament.
  pose proof (console_display_players_by_index
                (TournamentController.player_repository self0)) as Hlist.
  destruct (display_players_by_index _) as [ev_list sorted].
  pose proof (registration_entry_facts self0 tournament0) as Hentry.
  pose proof (registration_entry_tournament self0 tournament0) as Ht0.
  destruct (registration_entry self0 tournament0) as [ev_entry st0].
  destruct Hentry as (Hconsole & Hempty & Hsel & _).
  cbn [fst snd] in Hlist, Ht0.
  destruct (registration_loop _ _ _ _) as [[ev_loop st1] res1] eqn:Hloop.
  intros [= <- <- <-].
  assert (Hend0 : Tournament.current_round (tournament st0)
                  = len (Tournament.rounds (tournament st0)))
    by by rewrite Ht0.
  destruct (registration_loop_at_len _ _ _ _ _ _ Hend0 Hloop)
    as (Hpools & Hprev & Hcase).
  rewrite !pairing_pools_app, !previous_scores_passed_app, !saved_app,
    (pairing_pools_console ev_list), (pairing_pools_console ev_entry),
    (previous_scores_passed_console ev_list),
    (previous_scores_passed_console ev_entry),
    (saved_console ev_list), (saved_console ev_entry) by done.
  rewrite Hempty in Hcase. done.
Qed.

(** X17: called on a tournament with no round left to play
    ([current_round = len(rounds)], in particular one defined without
    rounds), [add_players_to_tournament] never pairs and never computes a
    leaderboard; it saves at most once, the tournament with the committed
    list, and once a valid selection is confirmed under choice 3 and the
    user agrees to play, the method ends with [IndexError]. *)
Theorem add_players_to_tournament_without_round_to_play
    (self0 : TournamentController.t) (tournament0 : Tournament.t)
    (turns : list turn) (ev : list event) (st : registration)
    (res : registration_outcome) :
  Tournament.current_round tournament0
  = len (Tournament.rounds tournament0) ->
  add_players_to_tournament calculate_total_score self0 tournament0 turns
  = (ev, st, res) ->
  pairing_pools ev = []
  /\ previous_scores_passed ev = []
  /\ (saved ev = [] /\ (res = Waiting \/ res = Left Quit)
      \/ saved ev = [tournament st]
         /\ Tournament.players_list (tournament st) = selected_players st
         /\ (res = Left Confirmed \/ res = Failed IndexError))
  /\ (forall (sorted_players_list : list Player.t) (st0 : registration)
             (t : turn) (rest : list turn),
        Tournament.current_round (tournament st0)
        = len (Tournament.rounds (tournament st0)) ->
        user_choice t = "3" ->
        valid_count (selected_players st0) ->
        answer t = true ->
        (registration_loop calculate_total_score sorted_players_list st0
                           (t :: rest)).2
        = Failed IndexError).
Proof.
  intros Hend Hrun.
  destruct (add_players_to_tournament_at_len _ _ _ _ _ _ Hend Hrun)
    as (Hpools & Hprev & Hcase).
  do 3 (split; [done|]).
  intros sorted_players_list st0 t rest Hend0 Hchoice [Hsix Heven] Hyes.
  cbn [registration_loop]. unfold registration_turn.
  destruct (choice_3 t Hchoice) as (-> & -> & ->).
  destruct (_ && _) eqn:Hcount; [|zbool; lia].
  rewrite Hyes, play_tournament_at_len by done. done.
Qed.

End MoreRegistrationProperties.

(** ** add_director_notes_to_tournament *)

(** X18: [add_director_notes_to_tournament] never returns the text [q]:
    a returned string is empty or the notes typed under [y]; [None] is
    returned only on a confirmed [q] at the first prompt; and while nothing
    has been returned no answer was [n], every note typed under [y] was an
    unconfirmed [q] and every [q] was unconfirmed. *)
Theorem add_director_notes_to_tournament_result (turns : list note_turn) :
  match (add_director_notes_to_tournament turns).2 with
  | Some (Some text) =>
    text <> "q"
    /\ (text = ""
        \/ exists t, t ∈ turns /\ lower (notes t) = "y"
                     /\ notes_text t = text)
  | Some None =>
    exists t, t ∈ turns /\ lower (notes t) = "q" /\ confirmed t = true
  | None =>
    Forall (fun t =>
              lower (notes t) <> "n"
              /\ (lower (notes t) = "y" ->
                  notes_text t = "q" /\ confirmed t = false)
              /\ (lower (notes t) = "q" -> confirmed t = false))
           turns
  end.
Proof.
  induction turns as [|t turns IH]; [by constructor|].
  cbn [add_director_notes_to_tournament].
  assert (Hrest :
    match (add_director_notes_to_tournament turns).2 with
    | Some (Some text) =>
      text <> "q"
      /\ (text = ""
          \/ exists t', t' ∈ t :: turns /\ lower (notes t') = "y"
                        /\ notes_text t' = text)
    | Some None =>
      exists t', t' ∈ t :: turns /\ lower (notes t') = "q"
                 /\ confirmed t' = true
    | None => True
    end).
  { destruct (add_director_notes_to_tournament turns).2 as [[text|]|];
      [|by destruct IH as (t' & Hin & H'); exists t';
          split; [apply list_elem_of_further|]
       |done].
    destruct IH as [Hq [->|(t' & Hin & H')]]; (split; [done|]); [by left|].
    right. exists t'. split; [by apply list_elem_of_further|done]. }
  destruct (String.eqb (lower (notes t)) "y") eqn:Hy.
  { apply String.eqb_eq in Hy.
    destruct (String.eqb (notes_text t) "q") eqn:Hq.
    - apply String.eqb_eq in Hq. destruct (confirmed t) eqn:Hc.
      + cbn [snd]. by split; [|left].
      + destruct (add_director_notes_to_tournament turns) as [ev [[text|]|]];
          cbn [snd] in *; try done.
        constructor; [|done]. rewrite Hy. by repeat split.
    - apply String.eqb_neq in Hq. cbn [snd]. split; [done|]. right.
      exists t. split; [apply list_elem_of_here|done]. }
  apply String.eqb_neq in Hy.
  destruct (String.eqb (lower (notes t)) "n") eqn:Hn.
  { cbn [snd]. by split; [|left]. }
  apply String.eqb_neq in Hn.
  destruct (String.eqb (lower (notes t)) "q") eqn:Hq.
  { apply String.eqb_eq in Hq. destruct (confirmed t) eqn:Hc.
    - cbn [snd]. exists t. split; [apply list_elem_of_here|done].
    - destruct (add_director_notes_to_tournament turns) as [ev [[text|]|]];
        cbn [snd] in *; try done.
      constructor; [|done]. by repeat split. }
  apply String.eqb_neq in Hq.
  destruct (add_director_notes_to_tournament turns) as [ev [[text|]|]];
    cbn [snd] in *; try done.
  constructor; [|done]. by repeat split.
Qed.

(** ** create_new_tournament *)

Lemma add_rounds_rounds (rounds : list RoundDetails.t) :
  forall tournament : Tournament.t,
  let built :=
    foldl (fun tournament round_details =>
             add_round (round_of_details round_details) tournament)
          tournament rounds in
  Tournament.rounds built
  = Tournament.rounds tournament ++ (round_of_details <$> rounds)
  /\ Tournament.players_list built = Tournament.players_list tournament
  /\ Tournament.current_round built = Tournament.current_round tournament
  /\ Tournament.name built = Tournament.name tournament
  /\ Tournament.place built = Tournament.place tournament
  /\ Tournament.date_start built = Tournament.date_start tournament
  /\ Tournament.date_end built = Tournament.date_end tournament
  /\ Tournament.director_note built = Tournament.director_note tournament.
Proof.
  induction rounds as [|rd rounds IH]; intros t; cbn [foldl].
  - by rewrite app_nil_r.
  - destruct (IH (add_round (round_of_details rd) t))
      as (-> & -> & -> & -> & -> & -> & -> & ->).
    cbn. by rewrite <- app_assoc.
Qed.

Section CreationProperties.
Variable calculate_total_score :
  Player.t -> list Round.t -> gmap string Z -> Z.

(** What the registration loop leaves of the tournament it was given. *)
Lemma registration_loop_identity (sorted_players_list : list Player.t)
    (turns : list turn) :
  forall (st : registration) (ev : list event) (st' : registration)
         (res : registration_outcome),
  registration_loop calculate_total_score sorted_players_list st turns
  = (ev, st', res) ->
  tournament_identity (tournament st') = tournament_identity (tournament st)
  /\ length (Tournament.rounds (tournament st'))
     = length (Tournament.rounds (tournament st)).
Proof.
  induction turns as [|t turns IH]; intros st ev st' res; simpl.
  - by intros [= <- <- <-].
  - destruct (registration_turn _ _ _ _) as [[ev1 st1] fl] eqn:Hturn.
    intros Hrun.
    assert (Hstep : tournament_identity (tournament st1)
                    = tournament_identity (tournament st)
                    /\ length (Tournament.rounds (tournament st1))
                       = length (Tournament.rounds (tournament st))).
    { destruct (registration_turn_cases _ _ _ _ _ _ _ Hturn)
        as [(_ & -> & _)|(_ & _ & _ & ev' & res' & _ & Hplay & _)]; [done|].
      cbv zeta in Hplay. destruct (answer t).
      - destruct (play_tournament_frame _ _ _ _ _ _ _ Hplay)
          as (Hn & Hp & Hs & He & Hd & Hr).
        destruct (play_tournament_facts _ _ _ _ _ _ _ Hplay) as (Hlen & _).
        unfold tournament_identity. rewrite Hn, Hp, Hs, He, Hd, Hr, Hlen.
        done.
      - by destruct Hplay as (_ & -> & _). }
    destruct fl; try (injection Hrun as <- <- <-; exact Hstep).
    destruct (registration_loop _ _ st1 turns) as [[ev2 st2] res2] eqn:Hrest.
    injection Hrun as <- <- <-.
    destruct (IH _ _ _ _ Hrest) as [Hid Hlen]. destruct Hstep as [Hid1 Hlen1].
    split; congruence.
Qed.

Lemma add_players_to_tournament_identity (self0 : TournamentController.t)
    (tournament0 : Tournament.t) (turns : list turn) (ev : list event)
    (st : registration) (res : registration_outcome) :
  add_players_to_tournament calculate_total_score self0 tournament0 turns
  = (ev, st, res) ->
  tournament_identity (tournament st) = tournament_identity tournament0
  /\ length (Tournament.rounds (tournament st))
     = length (Tournament.rounds tournament0).
Proof.
  unfold add_players_to_tournament.
  destruct (display_players_by_index _) as [ev_list sorted].
  pose proof (registration_entry_tournament self0 tournament0) as Ht0.
  destruct (registration_entry self0 tournament0) as [ev_entry st0].
  cbn [snd] in Ht0.
  destruct (registration_loop _ _ _ _) as [[ev_loop st1] res1] eqn:Hloop.
  intros [= <- <- <-].
  destruct (registration_loop_identity _ _ _ _ _ _ Hloop) as [-> ->].
  by rewrite Ht0.
Qed.

(** X19: [add_players_to_tournament], the rounds it may play included,
    leaves name, place, dates and director note of the tournament, the
    names of its rounds and their number unchanged. *)
Theorem add_players_to_tournament_keeps_identity
    (self0 : TournamentController.t) (tournament0 : Tournament.t)
    (turns : list turn) (ev : list event) (st : registration)
    (res : registration_outcome) :
  add_players_to_tournament calculate_total_score self0 tournament0 turns
  = (ev, st, res) ->
  tournament_identity (tournament st) = tournament_identity tournament0
  /\ length (Tournament.rounds (tournament st))
     = length (Tournament.rounds tournament0).
Proof. apply add_players_to_tournament_identity. Qed.

Variable new_Tournament :
  string -> string -> string -> string -> string -> Tournament.t.

(** X20: [create_new_tournament] returns [None] and saves nothing when the
    details are cancelled; with details whose [rounds] is [None] it returns
    the tournament as constructed without any output or save.  Otherwise
    the first save holds the constructed tournament with one round per
    dictionary appended in order and no player added yet, and a tournament
    that is returned bears the name and place given and has the rounds
    named as in the details. *)
Theorem create_new_tournament_saved_and_returned
    (self0 : TournamentController.t)
    (tournament_details : option TournamentDetails.t) (add_players : bool)
    (turns : list turn) (ev : list event) (self' : TournamentController.t)
    (returned : option Tournament.t) (res : outcome) :
  create_new_tournament calculate_total_score new_Tournament self0
                        tournament_details add_players turns
  = (ev, self', returned, res) ->
  match tournament_details with
  | None => returned = None /\ saved ev = [] /\ res = Returned
  | Some details =>
    let created :=
      new_Tournament (TournamentDetails.name details)
                     (TournamentDetails.place details)
                     (TournamentDetails.date_start details)
                     (TournamentDetails.date_end details)
                     (TournamentDetails.director_note details) in
    match TournamentDetails.rounds details with
    | None => ev = [] /\ returned = Some created /\ res = Returned
    | Some rounds =>
      (exists first more,
         saved ev = first :: more
         /\ Tournament.rounds first
            = Tournament.rounds created ++ (round_of_details <$> rounds)
         /\ Tournament.players_list first = Tournament.players_list created
         /\ Tournament.current_round first
            = Tournament.current_round created)
      /\ (forall tournament,
            returned = Some tournament ->
            res = Returned
            /\ Tournament.name tournament = Tournament.name created
            /\ Tournament.place tournament = Tournament.place created
            /\ Round.name <$> Tournament.rounds tournament
               = (Round.name <$> Tournament.rounds created)
                 ++ (RoundDetails.name <$> rounds))
    end
  end.
Proof.
  unfold create_new_tournament.
  destruct tournament_details as [details|];
    [|by intros [= <- <- <- <-]].
  destruct (TournamentDetails.rounds details) as [rounds|];
    [|by intros [= <- <- <- <-]].
  cbv zeta.
  set (created := new_Tournament _ _ _ _ _).
  destruct (add_rounds_rounds rounds created)
    as (Hrounds & Hplayers & Hcr & Hname & Hplace & _).
  cbv zeta in Hrounds, Hplayers, Hcr, Hname, Hplace.
  set (built := foldl _ created rounds) in *.
  assert (Hnames : Round.name <$> Tournament.rounds built
                   = (Round.name <$> Tournament.rounds created)
                     ++ (RoundDetails.name <$> rounds)).
  { rewrite Hrounds, fmap_app. f_equal. by rewrite <- list_fmap_compose. }
  destruct add_players.
  - destruct (add_players_to_tournament _ _ _ _) as [[ev1 st] res1] eqn:Hadd.
    destruct (add_players_to_tournament_identity _ _ _ _ _ _ Hadd)
      as [[= Hn Hp _ _ _ Hr] _].
    destruct res1; intros [= <- <- <- <-];
      (split; [by eexists _, _|]); intros t [= <-]; try done.
    split; [done|]. rewrite Hn, Hp, Hr. done.
  - intros [= <- <- <- <-]. split; [by eexists _, _|].
    intros t [= <-]. done.
Qed.

(** X21: when the tournament created has no round to play ([rounds] of the
    details is empty for a constructor starting at round 0),
    [create_new_tournament] with player registration never pairs and never
    computes a leaderboard, and if it ends with [IndexError] nothing is
    returned although the tournament has been saved twice. *)
Theorem create_new_tournament_without_round_to_play
    (self0 : TournamentController.t) (details : TournamentDetails.t)
    (rounds : list RoundDetails.t) (turns : list turn) (ev : list event)
    (self' : TournamentController.t) (returned : option Tournament.t)
    (res : outcome) :
  let created :=
    new_Tournament (TournamentDetails.name details)
                   (TournamentDetails.place details)
                   (TournamentDetails.date_start details)
                   (TournamentDetails.date_end details)
                   (TournamentDetails.director_note details) in
  TournamentDetails.rounds details = Some rounds ->
  Tournament.current_round created
  = len (Tournament.rounds created) + len rounds ->
  create_new_tournament calculate_total_score new_Tournament self0
                        (Some details) true turns
  = (ev, self', returned, res) ->
  pairing_pools ev = []
  /\ previous_scores_passed ev = []
  /\ (res = Raised IndexError ->
      returned = None /\ length (saved ev) = 2%nat).
Proof.
  intros created Hrounds Hend. unfold create_new_tournament.
  rewrite Hrounds. cbv zeta. fold created.
  destruct (add_rounds_rounds rounds created)
    as (Hr & _ & Hcr & _).
  cbv zeta in Hr, Hcr.
  set (built := foldl _ created rounds) in *.
  assert (Hend' : Tournament.current_round built
                  = len (Tournament.rounds built)).
  { rewrite Hcr, Hr, Hend. unfold len.
    rewrite length_app, length_fmap. lia. }
  destruct (add_players_to_tournament _ _ _ _) as [[ev1 st] res1] eqn:Hadd.
  destruct (add_players_to_tournament_at_len _ _ _ _ _ _ _ Hend' Hadd)
    as (Hpools & Hprev & Hcase).
  destruct res1 as [by_|e|]; intros [= <- <- <- <-];
    match goal with
    | |- context [pairing_pools (AddTournament built :: ?l)] =>
      change (AddTournament built :: l) with ([AddTournament built] ++ l)
    end;
    rewrite !pairing_pools_app, !previous_scores_passed_app, ?saved_app,
      Hpools, Hprev;
    do 2 (split; [done|]); [done| |done].
  intros _. split; [done|].
  destruct Hcase as [[_ [?|?]]|(-> & _)]; done.
Qed.

End CreationProperties.

(** * The properties on the sample data *)

Example sample_leaderboard :
  sorted_leaderboard sample_total_score
    (store_round 0 (Round.set_matches round_results (empty_round "Round 1"))
                 two_rounds) ∅
  = [(alice, 2); (chloe, 2); (emma, 2); (bruno, 0); (denis, 0); (felix, 0)].
Proof. vm_compute. reflexivity. Qed.

Example sample_namesakes :
  Tournament.players_score
    (calculate_leaderboard sample_total_score namesakes ∅).2
  = {[ "Bruno Blanc" := 0; "Alice Arnaud" := 0 ]}.
Proof. vm_compute. reflexivity. Qed.

Example play_tournament_no_rounds_raises :
  play_tournament sample_total_score sample_controller no_rounds [go_on]
  = ([], no_rounds, Raised IndexError).
Proof. reflexivity. Qed.

Example play_tournament_negative_index :
  py_index (Tournament.rounds two_rounds) (-1)
  = Some (1%nat, empty_round "Round 2")
  /\ py_index (Tournament.rounds two_rounds) (-3) = None
  /\ py_index (Tournament.rounds two_rounds) 2 = None.
Proof. repeat split. Qed.

Example sample_players_by_index :
  (display_players_by_index [felix; bruno; alice]).2 = [alice; bruno; felix].
Proof. vm_compute. reflexivity. Qed.

Lemma play_tournament_finished_raises_witness :
  Tournament.current_round finished = len (Tournament.rounds finished)
  /\ play_tournament sample_total_score sample_controller finished
                     [go_on; go_on]
     = ([], finished, Raised IndexError).
Proof.
  split; [reflexivity|].
  apply play_tournament_finished_raises. reflexivity.
Defined.

(** C2 as first stated fails: with two rounds and a user who goes on after
    the first, pairing runs on rounds 0 and 1, the pass over round 0 saves
    nothing, and the whole call saves once, at the end. *)
Lemma play_tournament_continue_skips_save :
  let first_pass :=
    play_round sample_total_score sample_controller two_rounds 0
               (empty_round "Round 1") go_on in
  let run :=
    play_tournament sample_total_score sample_controller two_rounds
                    [go_on; go_on] in
  first_pass.2 = Continue
  /\ saved first_pass.1.1 = []
  /\ run.2 = Returned
  /\ paired_rounds run.1.1 = [0; 1]
  /\ length (saved run.1.1) = 1%nat
  /\ Tournament.current_round <$> saved run.1.1 = [2].
Proof. vm_compute. repeat split. Qed.

Lemma play_tournament_saves_when_loop_stops_witness :
  let run :=
    play_tournament sample_total_score sample_controller two_rounds
                    [go_on; go_on] in
  let first_pass :=
    play_round sample_total_score sample_controller two_rounds 0
               (empty_round "Round 1") go_on in
  run = (run.1.1, run.1.2, Returned)
  /\ loop_guard two_rounds = true
  /\ saved run.1.1 = [run.1.2]
  /\ first_pass = (first_pass.1.1, first_pass.1.2, first_pass.2)
  /\ Tournament.current_round two_rounds
     <> len (Tournament.rounds two_rounds) - 1
  /\ play_next go_on = true
  /\ first_pass.2 = Continue
  /\ saved first_pass.1.1 = [].
Proof.
  intros run first_pass.
  assert (Hrun : run = (run.1.1, run.1.2, Returned))
    by (vm_compute; reflexivity).
  assert (Hpass : first_pass
                  = (first_pass.1.1, first_pass.1.2, first_pass.2))
    by (vm_compute; reflexivity).
  assert (Hnotlast : Tournament.current_round two_rounds
                     <> len (Tournament.rounds two_rounds) - 1)
    by (vm_compute; discriminate).
  split; [exact Hrun|]. split; [reflexivity|].
  destruct (play_tournament_saves_when_loop_stops _ _ _ _ _ _ _ Hrun)
    as (Hsave & _ & Hbody & _).
  split; [destruct (Hsave eq_refl eq_refl) as (Hsaved & _); exact Hsaved|].
  split; [exact Hpass|]. split; [exact Hnotlast|]. split; [reflexivity|].
  destruct (Hbody _ _ _ _ _ _ Hpass) as (_ & Hyes & _).
  apply (Hyes Hnotlast eq_refl).
Defined.

Lemma resume_tournament_reenters_at_current_round_witness :
  let run :=
    resume_tournament sample_total_score Tournament.t (fun x => x)
                      sample_controller (Some one_round_played) [go_on] in
  0 < Tournament.current_round one_round_played
    < len (Tournament.rounds one_round_played)
  /\ run = (run.1.1, run.1.2, Returned)
  /\ exists tournament',
       run.1.2 = Some tournament'
       /\ paired_rounds run.1.1 = [1]
       /\ Tournament.rounds tournament' !! 0%nat
          = Tournament.rounds one_round_played !! 0%nat.
Proof.
  intros run.
  assert (Hrange : 0 < Tournament.current_round one_round_played
                     < len (Tournament.rounds one_round_played))
    by (vm_compute; split; reflexivity).
  assert (Hrun : run = (run.1.1, run.1.2, Returned))
    by (vm_compute; reflexivity).
  split; [exact Hrange|]. split; [exact Hrun|].
  destruct (resume_tournament_reenters_at_current_round
              sample_total_score Tournament.t (fun x => x) _ _ _ _ _ _
              Hrange Hrun)
    as (tournament' & Hsome & _ & _ & _ & _ & Hframe).
  exists tournament'. split; [exact Hsome|]. split; [reflexivity|].
  apply Hframe. reflexivity.
Defined.

(** C5 as first stated fails: in the first pass over a fresh round the call
    of [calculate_leaderboard] (event 6 of the pass) comes before the clock
    is read for [end_time] (event 14), and the tournament it receives still
    has no [end_time] on the round. *)
Lemma play_round_leaderboard_precedes_end_stamp :
  let first_pass :=
    play_round sample_total_score sample_controller two_rounds 0
               (empty_round "Round 1") go_on in
  exists s : Tournament.t,
    first_pass.1.1 !! 6%nat = Some (CalculateLeaderboard s ∅)
    /\ Round.end_time <$> Tournament.rounds s !! 0%nat = Some None
    /\ first_pass.1.1 !! 14%nat = Some (Now (clock_end go_on))
    /\ Round.end_time <$> Tournament.rounds first_pass.1.2 !! 0%nat
       = Some (Some (clock_end go_on)).
Proof. eexists. repeat split; vm_compute; reflexivity. Qed.

Lemma play_round_leaderboard_then_end_time_witness :
  let first_pass :=
    play_round sample_total_score sample_controller two_rounds 0
               (empty_round "Round 1") go_on in
  Tournament.rounds two_rounds !! 0%nat = Some (empty_round "Round 1")
  /\ Round.end_time (empty_round "Round 1") = None
  /\ first_pass = (first_pass.1.1, first_pass.1.2, first_pass.2)
  /\ Round.end_time <$> Tournament.rounds first_pass.1.2 !! 0%nat
     = Some (Some (clock_end go_on)).
Proof.
  intros first_pass.
  assert (Hpass : first_pass = (first_pass.1.1, first_pass.1.2, first_pass.2))
    by (vm_compute; reflexivity).
  split; [reflexivity|]. split; [reflexivity|]. split; [exact Hpass|].
  destruct (play_round_leaderboard_then_end_time
              sample_total_score sample_controller two_rounds 0
              (empty_round "Round 1") go_on _ _ _
              eq_refl eq_refl Hpass)
    as (ev1 & s & _ & _ & Hend).
  exact Hend.
Defined.

(** C8 as first stated fails: Alice is registered and her score is 2, but
    the entry under her name holds 0, the score of the other registered
    player of that name, who is ranked after her and written last. *)
Lemma calculate_leaderboard_namesake_score_overwritten :
  alice ∈ Tournament.players_list namesakes
  /\ namesake ∈ Tournament.players_list namesakes
  /\ sample_total_score alice (Tournament.rounds namesakes) ∅ = 2
  /\ sample_total_score namesake (Tournament.rounds namesakes) ∅ = 0
  /\ Tournament.players_score
       (calculate_leaderboard sample_total_score namesakes ∅).2
     !! "Alice Arnaud" = Some 0.
Proof.
  split; [apply list_elem_of_further, list_elem_of_here|].
  split; [do 2 apply list_elem_of_further; apply list_elem_of_here|].
  repeat split; vm_compute; reflexivity.
Qed.

Lemma calculate_leaderboard_players_score_witness :
  namesake ∈ Tournament.players_list namesakes
  /\ Tournament.players_score
       (calculate_leaderboard sample_total_score namesakes ∅).2
     !! (Player.firstname namesake +:+ " " +:+ Player.lastname namesake)
     = Some (sample_total_score namesake (Tournament.rounds namesakes) ∅).
Proof.
  assert (Hin : namesake ∈ Tournament.players_list namesakes)
    by (do 2 apply list_elem_of_further; apply list_elem_of_here).
  split; [exact Hin|].
  destruct (calculate_leaderboard_players_score sample_total_score
                                                namesakes ∅)
    as (_ & _ & Hown).
  apply (Hown namesake Hin).
  intros other Hother Hname.
  apply elem_of_cons in Hother as [->|Hother]; [discriminate Hname|].
  apply elem_of_cons in Hother as [->|Hother];
    [vm_compute; discriminate|].
  apply elem_of_cons in Hother as [->|Hother]; [reflexivity|].
  by apply not_elem_of_nil in Hother.
Defined.

Lemma add_players_commits_valid_count_only_witness :
  let run :=
    add_players_to_tournament sample_total_score sample_controller two_rounds
                              [confirm_and_play] in
  run = (run.1.1, run.1.2, Left Confirmed)
  /\ pairing_pools run.1.1 = [six_players; six_players]
  /\ Forall valid_count (pairing_pools run.1.1).
Proof.
  intros run.
  assert (Hrun : run = (run.1.1, run.1.2, Left Confirmed))
    by (vm_compute; reflexivity).
  split; [exact Hrun|]. split; [vm_compute; reflexivity|].
  destruct (add_players_commits_valid_count_only _ _ _ _ _ _ _ Hrun)
    as (_ & Hpools & _).
  exact Hpools.
Defined.

Lemma duplicate_selection_rejected_witness :
  user_choice select_first = "1"
  /\ get_selected_player six_players (index_inputs select_first)
     = ([Input "Entrez l'index du joueur : ";
         Print (esc +:+ "[91mVeuillez indiquer un numéro valide."
                +:+ esc +:+ "[0m");
         Input "Entrez l'index du joueur : "],
        Some (alice, 1))
  /\ alice ∈ selected_players alice_selected
  /\ registration_turn sample_total_score six_players alice_selected
                       select_first
     = ([DisplayAddPlayerMenu 1]
        ++ [Input "Entrez l'index du joueur : ";
            Print (esc +:+ "[91mVeuillez indiquer un numéro valide."
                   +:+ esc +:+ "[0m");
            Input "Entrez l'index du joueur : "]
        ++ [Print "Ce joueur est déjà ajouté au tournoi."],
        alice_selected, Again).
Proof.
  assert (Hsel : get_selected_player six_players (index_inputs select_first)
                 = ([Input "Entrez l'index du joueur : ";
                     Print (esc +:+ "[91mVeuillez indiquer un numéro valide."
                            +:+ esc +:+ "[0m");
                     Input "Entrez l'index du joueur : "],
                    Some (alice, 1)))
    by (vm_compute; reflexivity).
  assert (Hin : alice ∈ selected_players alice_selected)
    by apply list_elem_of_here.
  split; [reflexivity|]. split; [exact Hsel|]. split; [exact Hin|].
  apply (duplicate_selection_rejected sample_total_score six_players
           alice_selected select_first [] _ alice 1 eq_refl Hsel).
  exists alice. split; [exact Hin|]. split; reflexivity.
Defined.

Lemma previous_scores_always_empty_witness :
  reachable sample_total_score sample_controller
  /\ TournamentController.players_score sample_controller = None
  /\ previous_scores_passed
       (play_tournament sample_total_score sample_controller two_rounds
                        [go_on; go_on]).1.1
     = [∅; ∅].
Proof.
  assert (Hreach : reachable sample_total_score sample_controller)
    by apply reachable_init.
  split; [exact Hreach|].
  destruct (previous_scores_always_empty sample_total_score _ Hreach)
    as (Hnone & _ & _).
  split; [exact Hnone|]. vm_compute. reflexivity.
Defined.

Lemma quit_leaves_players_list_empty_witness :
  let run :=
    add_players_to_tournament sample_total_score sample_controller two_rounds
                              [select_first; quit_confirmed] in
  Tournament.players_list two_rounds <> []
  /\ run = (run.1.1, run.1.2, Left Quit)
  /\ Tournament.players_list (tournament run.1.2) = [].
Proof.
  intros run.
  assert (Hnonempty : Tournament.players_list two_rounds <> [])
    by discriminate.
  assert (Hrun : run = (run.1.1, run.1.2, Left Quit))
    by (vm_compute; reflexivity).
  split; [exact Hnonempty|]. split; [exact Hrun|].
  destruct (quit_leaves_players_list_empty _ _ _ _ _ _ Hnonempty Hrun)
    as (Hempty & _).
  exact Hempty.
Defined.

Lemma get_tournament_name_by_index_bounds_witness :
  1 <= 2 <= len [two_rounds; no_rounds]
  /\ get_tournament_name_by_index [two_rounds; no_rounds] 2
     = Value (Some "Blitz").
Proof.
  assert (Hrange : 1 <= 2 <= len [two_rounds; no_rounds])
    by (vm_compute; split; discriminate).
  split; [exact Hrange|].
  destruct (get_tournament_name_by_index_bounds [two_rounds; no_rounds] 2)
    as (_ & Hin & _).
  destruct (Hin Hrange) as (tournament & Hlookup & ->).
  injection Hlookup as <-. reflexivity.
Defined.

Lemma get_selected_player_first_valid_line_witness :
  Forall (fun s => plain_line s = true) (["x"; "9"] ++ ["2"])
  /\ Forall (fun s => valid_index_input six_players s = false) ["x"; "9"]
  /\ valid_index_input six_players "2" = true
  /\ (get_selected_player six_players (["x"; "9"] ++ "2" :: ["5"])).2
     = Some (bruno, 2).
Proof.
  assert (Hplain : Forall (fun s => plain_line s = true)
                          (["x"; "9"] ++ ["2"]))
    by (repeat constructor).
  assert (Hrejected : Forall (fun s => valid_index_input six_players s = false)
                             ["x"; "9"])
    by (repeat constructor).
  assert (Haccepted : valid_index_input six_players "2" = true)
    by reflexivity.
  split; [exact Hplain|]. split; [exact Hrejected|].
  split; [exact Haccepted|].
  destruct (get_selected_player_first_valid_line six_players ["x"; "9"] "2"
              ["5"] Hplain Hrejected Haccepted)
    as (player & Hlookup & _ & ->).
  injection Hlookup as <-. reflexivity.
Defined.

Lemma get_selected_player_result_witness :
  Forall (fun s => plain_line s = true) ["0"; "12"; "seven"]
  /\ Forall (fun s => valid_index_input six_players s = false)
            ["0"; "12"; "seven"].
Proof.
  assert (Hplain : Forall (fun s => plain_line s = true)
                          ["0"; "12"; "seven"])
    by (repeat constructor).
  split; [exact Hplain|].
  apply (get_selected_player_result six_players ["0"; "12"; "seven"] Hplain).
Defined.

Lemma add_players_to_tournament_no_players_to_select_witness :
  TournamentController.player_repository empty_controller = []
  /\ user_choice select_first = "1"
  /\ Forall (fun s => plain_line s = true) (index_inputs select_first)
  /\ (add_players_to_tournament sample_total_score empty_controller
                                two_rounds [select_first; quit_confirmed]).2
     = Waiting.
Proof.
  assert (Hplain : Forall (fun s => plain_line s = true)
                          (index_inputs select_first))
    by (repeat constructor).
  split; [reflexivity|]. split; [reflexivity|]. split; [exact Hplain|].
  destruct (add_players_to_tournament_no_players_to_select
              sample_total_score empty_controller two_rounds select_first
              [quit_confirmed] eq_refl eq_refl Hplain)
    as (ev & st & -> & _).
  reflexivity.
Defined.

Lemma displayed_index_selects_displayed_player_witness :
  (display_players_by_index [felix; bruno; alice]).2 !! 1%nat = Some bruno
  /\ get_selected_player (display_players_by_index [felix; bruno; alice]).2
                         (pretty (Z.of_nat 1 + 1) :: [])
     = ([Input "Entrez l'index du joueur : "],
        Some (bruno, Z.of_nat 1 + 1)).
Proof.
  assert (Hshown : (display_players_by_index [felix; bruno; alice]).2
                   !! 1%nat = Some bruno)
    by (vm_compute; reflexivity).
  split; [exact Hshown|].
  apply (displayed_index_selects_displayed_player _ _ _ [] Hshown).
Defined.

Lemma play_tournament_entry_cases_witness :
  (Tournament.current_round finished = len (Tournament.rounds finished)
   \/ Tournament.current_round finished
      < - len (Tournament.rounds finished))
  /\ play_tournament sample_total_score sample_controller finished [go_on]
     = ([], finished, Raised IndexError).
Proof.
  assert (Hentry : Tournament.current_round finished
                   = len (Tournament.rounds finished)
                   \/ Tournament.current_round finished
                      < - len (Tournament.rounds finished))
    by (left; reflexivity).
  split; [exact Hentry|].
  destruct (play_tournament_entry_cases sample_total_score sample_controller
                                        finished [go_on])
    as (Hraise & _).
  apply Hraise. exact Hentry.
Defined.


Lemma play_tournament_played_rounds_witness :
  let run :=
    play_tournament sample_total_score sample_controller two_rounds
                    [go_on; go_on] in
  0 <= Tournament.current_round two_rounds
  /\ run = (run.1.1, run.1.2, Returned)
  /\ Tournament.current_round two_rounds <= Z.of_nat 1
       < Tournament.current_round run.1.2
  /\ Tournament.rounds two_rounds !! 1%nat = Some (empty_round "Round 2")
  /\ Tournament.rounds run.1.2 !! 1%nat
     = Some (Round.mk "Round 2" round_results (Some (clock_start go_on))
                      (Some (clock_end go_on))).
Proof.
  intros run.
  assert (Hstart : 0 <= Tournament.current_round two_rounds)
    by (vm_compute; discriminate).
  assert (Hrun : run = (run.1.1, run.1.2, Returned))
    by (vm_compute; reflexivity).
  assert (Hplayed : Tournament.current_round two_rounds <= Z.of_nat 1
                      < Tournament.current_round run.1.2)
    by (vm_compute; split; [discriminate|reflexivity]).
  split; [exact Hstart|]. split; [exact Hrun|]. split; [exact Hplayed|].
  split; [reflexivity|].
  destruct (play_tournament_played_rounds _ _ _ _ _ _ _ 1%nat
              (empty_round "Round 2") Hstart Hrun Hplayed eq_refl)
    as (inp & Hinp & ->).
  injection Hinp as <-. reflexivity.
Defined.

Lemma play_tournament_number_of_rounds_witness :
  let run :=
    play_tournament sample_total_score sample_controller two_rounds
                    [go_on] in
  0 <= Tournament.current_round two_rounds
    < len (Tournament.rounds two_rounds)
  /\ run = (run.1.1, run.1.2, Pending)
  /\ leading_yes [go_on] = 1%nat
  /\ paired_rounds run.1.1 = seqZ 0 1.
Proof.
  intros run.
  assert (Hrange : 0 <= Tournament.current_round two_rounds
                     < len (Tournament.rounds two_rounds))
    by (vm_compute; split; [discriminate|reflexivity]).
  assert (Hrun : run = (run.1.1, run.1.2, Pending))
    by (vm_compute; reflexivity).
  split; [exact Hrange|]. split; [exact Hrun|]. split; [reflexivity|].
  destruct (play_tournament_number_of_rounds _ _ _ _ _ _ _ Hrange Hrun)
    as (_ & _ & _ & Hpaired).
  exact Hpaired.
Defined.

Lemma play_tournament_to_the_end_then_again_witness :
  let run :=
    play_tournament sample_total_score sample_controller two_rounds
                    [go_on; go_on] in
  0 <= Tournament.current_round two_rounds
    < len (Tournament.rounds two_rounds)
  /\ run = (run.1.1, run.1.2, run.2)
  /\ Forall (fun inp => play_next inp = true) [go_on; go_on]
  /\ play_tournament sample_total_score sample_controller run.1.2 [go_on]
     = ([], run.1.2, Raised IndexError).
Proof.
  intros run.
  assert (Hrange : 0 <= Tournament.current_round two_rounds
                     < len (Tournament.rounds two_rounds))
    by (vm_compute; split; [discriminate|reflexivity]).
  assert (Hrun : run = (run.1.1, run.1.2, run.2))
    by (vm_compute; reflexivity).
  assert (Hyes : Forall (fun inp => play_next inp = true) [go_on; go_on])
    by (repeat constructor).
  split; [exact Hrange|]. split; [exact Hrun|]. split; [exact Hyes|].
  destruct (play_tournament_to_the_end_then_again _ _ _ _ _ _ _ Hrange Hrun)
    as (Hend & Hagain).
  apply Hagain. apply Hend; [exact Hyes|].
  vm_compute. discriminate.
Defined.

Lemma calculate_leaderboard_namesakes_lowest_score_witness :
  Tournament.players_score
    (calculate_leaderboard sample_total_score namesakes ∅).2
  !! "Alice Arnaud" = Some 0
  /\ total_score sample_total_score namesakes ∅ alice = 2
  /\ 0 <= total_score sample_total_score namesakes ∅ alice.
Proof.
  assert (Hscore : Tournament.players_score
                     (calculate_leaderboard sample_total_score namesakes
                                            ∅).2
                   !! "Alice Arnaud" = Some 0)
    by (vm_compute; reflexivity).
  split; [exact Hscore|]. split; [reflexivity|].
  destruct (calculate_leaderboard_namesakes_lowest_score
              sample_total_score namesakes ∅ "Alice Arnaud" 0 Hscore)
    as (_ & Hlowest).
  apply Hlowest; [|reflexivity].
  apply list_elem_of_further, list_elem_of_here.
Defined.

Lemma add_players_to_tournament_counter_witness :
  let run :=
    add_players_to_tournament sample_total_score sample_controller two_rounds
                              [select_first; quit_confirmed] in
  run = (run.1.1, run.1.2, Left Quit)
  /\ selected_players run.1.2 = six_players
  /\ TournamentController.num_players (self run.1.2)
     = TournamentController.num_players sample_controller
       + len (selected_players run.1.2).
Proof.
  intros run.
  assert (Hrun : run = (run.1.1, run.1.2, Left Quit))
    by (vm_compute; reflexivity).
  split; [exact Hrun|]. split; [vm_compute; reflexivity|].
  destruct (add_players_to_tournament_counter _ _ _ _ _ _ _ Hrun)
    as (Hcount & _).
  exact Hcount.
Defined.

Lemma add_players_to_tournament_distinct_names_witness :
  let turns := [select "1"; select "1"; quit_confirmed] in
  let run :=
    add_players_to_tournament sample_total_score sample_controller
                              (Tournament.set_players_list [] two_rounds)
                              turns in
  NoDup (name_pair
         <$> Tournament.players_list
               (Tournament.set_players_list [] two_rounds))
  /\ Forall (fun t => user_choice t = "2" -> new_player t = None) turns
  /\ run = (run.1.1, run.1.2, Left Quit)
  /\ selected_players run.1.2 = [alice]
  /\ NoDup (name_pair <$> selected_players run.1.2).
Proof.
  intros turns run.
  assert (Hdistinct : NoDup (name_pair
                             <$> Tournament.players_list
                                   (Tournament.set_players_list
                                      [] two_rounds)))
    by apply NoDup_nil_2.
  assert (Hnew : Forall (fun t => user_choice t = "2" -> new_player t = None)
                        turns)
    by (repeat constructor).
  assert (Hrun : run = (run.1.1, run.1.2, Left Quit))
    by (vm_compute; reflexivity).
  split; [exact Hdistinct|]. split; [exact Hnew|]. split; [exact Hrun|].
  split; [vm_compute; reflexivity|].
  destruct (add_players_to_tournament_distinct_names _ _ _ _ _ _ _
              Hdistinct Hnew Hrun)
    as (Hselected & _).
  exact Hselected.
Defined.

Lemma add_players_to_tournament_confirmed_list_witness :
  let run :=
    add_players_to_tournament sample_total_score sample_controller two_rounds
                              [confirm_and_play] in
  run = (run.1.1, run.1.2, Left Confirmed)
  /\ exists added,
       Tournament.players_list (tournament run.1.2)
       = Tournament.players_list two_rounds ++ added.
Proof.
  intros run.
  assert (Hrun : run = (run.1.1, run.1.2, Left Confirmed))
    by (vm_compute; reflexivity).
  split; [exact Hrun|].
  destruct (add_players_to_tournament_confirmed_list _ _ _ _ _ _ Hrun)
    as (Hadded & _).
  exact Hadded.
Defined.

Lemma add_players_to_tournament_without_round_to_play_witness :
  let run :=
    add_players_to_tournament sample_total_score sample_controller no_rounds
                              [confirm_and_play] in
  Tournament.current_round no_rounds = len (Tournament.rounds no_rounds)
  /\ run = (run.1.1, run.1.2, Failed IndexError)
  /\ pairing_pools run.1.1 = [].
Proof.
  intros run.
  assert (Hrun : run = (run.1.1, run.1.2, Failed IndexError))
    by (vm_compute; reflexivity).
  split; [reflexivity|]. split; [exact Hrun|].
  destruct (add_players_to_tournament_without_round_to_play
              sample_total_score sample_controller no_rounds _ _ _ _
              eq_refl Hrun)
    as (Hpools & _).
  exact Hpools.
Defined.

Lemma add_players_to_tournament_keeps_identity_witness :
  let run :=
    add_players_to_tournament sample_total_score sample_controller two_rounds
                              [confirm_and_play] in
  run = (run.1.1, run.1.2, Left Confirmed)
  /\ tournament_identity (tournament run.1.2)
     = tournament_identity two_rounds.
Proof.
  intros run.
  assert (Hrun : run = (run.1.1, run.1.2, Left Confirmed))
    by (vm_compute; reflexivity).
  split; [exact Hrun|].
  destruct (add_players_to_tournament_keeps_identity _ _ _ _ _ _ _ Hrun)
    as (Hidentity & _).
  exact Hidentity.
Defined.

Lemma create_new_tournament_saved_and_returned_witness :
  let run :=
    create_new_tournament sample_total_score sample_new_Tournament
                          sample_controller (Some open_details) true
                          [quit_confirmed] in
  run = (run.1.1.1, run.1.1.2, run.1.2, Returned)
  /\ exists first more,
       saved run.1.1.1 = first :: more
       /\ Round.name <$> Tournament.rounds first = ["Round 1"; "Round 2"].
Proof.
  intros run.
  assert (Hrun : run = (run.1.1.1, run.1.1.2, run.1.2, Returned))
    by (vm_compute; reflexivity).
  split; [exact Hrun|].
  destruct (create_new_tournament_saved_and_returned _ _ _ _ _ _ _ _ _ _
              Hrun)
    as ((first & more & Hsaved & Hrounds & _) & _).
  exists first, more. split; [exact Hsaved|].
  rewrite Hrounds. reflexivity.
Defined.

Lemma create_new_tournament_without_round_to_play_witness :
  let run :=
    create_new_tournament sample_total_score sample_new_Tournament
                          sample_controller (Some blitz_details) true
                          register_six in
  TournamentDetails.rounds blitz_details = Some []
  /\ Tournament.current_round
       (sample_new_Tournament "Blitz" "Lyon" "05-11-2026" "05-11-2026" "")
     = len (Tournament.rounds
              (sample_new_Tournament "Blitz" "Lyon" "05-11-2026"
                                     "05-11-2026" ""))
       + len (@nil RoundDetails.t)
  /\ run = (run.1.1.1, run.1.1.2, run.1.2, Raised IndexError)
  /\ run.1.2 = None
  /\ length (saved run.1.1.1) = 2%nat.
Proof.
  intros run.
  assert (Hrun : run = (run.1.1.1, run.1.1.2, run.1.2, Raised IndexError))
    by (vm_compute; reflexivity).
  split; [reflexivity|]. split; [reflexivity|]. split; [exact Hrun|].
  destruct (create_new_tournament_without_round_to_play
              sample_total_score sample_new_Tournament sample_controller
              blitz_details [] register_six _ _ _ _ eq_refl eq_refl Hrun)
    as (_ & _ & Hraised).
  apply Hraised. reflexivity.
Defined.
